(** * Agentic_AI_Fundamentals: a shallow embedding of the pattern runners,
      the guardrail filter, the tracer and the cache, with the properties
      the specification states about them.

    Python [str] values are modelled as lists of characters ([text]); the
    character operations ([str.upper], [str.strip], the regular-expression
    classes) are the ASCII ones, and a character above 127 is a symbol
    that is neither a letter, a digit nor white space.  The LLM gateway,
    [json.loads], [datetime.now] and the order in which concurrent
    branches complete are external: they are Section variables or
    parameters.  The content of a completion is a string, as the
    annotations of the scripts say.  Console output is modelled for
    agenticpatterns.py and Production-Ready.py, without the pictographs;
    the progress messages of the other scripts are left out. *)

From Stdlib Require Import Ascii String ZArith Bool Lia.
From Stdlib Require Import Floats.SpecFloat QArith.QArith_base.
From stdpp Require Import base list strings pretty gmap.

Set Warnings "-register-all".
Set Warnings "-notation-overridden".
Set Warnings "-notation-incompatible-prefix".
Open Scope list_scope.

(* ===================================================================== *)
(** ** Text: Python [str] as a list of characters                         *)
(* ===================================================================== *)

Abbreviation text := (list ascii).

(** A string literal as a text. *)
Definition str (s : string) : text := list_ascii_of_string s.
Arguments str : simpl never.

Module PyStr.

Definition code (c : ascii) : nat := nat_of_ascii c.

Definition is_lower (c : ascii) : bool := (97 <=? code c) && (code c <=? 122).
Definition is_upper (c : ascii) : bool := (65 <=? code c) && (code c <=? 90).
Definition is_digit (c : ascii) : bool := (48 <=? code c) && (code c <=? 57).

(** [str.upper] on one character. *)
Definition upper_char (c : ascii) : ascii :=
  if is_lower c then ascii_of_nat (code c - 32) else c.


(** [s.upper()] *)
Definition upper (s : text) : text := map upper_char s.

(** [c.isspace()]: tab, newline, vertical tab, form feed, carriage
    return, the four separators 0x1c..0x1f and the space. *)
Definition isspace (c : ascii) : bool :=
  ((9 <=? code c) && (code c <=? 13)) ||
  ((28 <=? code c) && (code c <=? 31)) ||
  (code c =? 32).

Fixpoint lstrip (s : text) : text :=
  match s with
  | [] => []
  | c :: s' => if isspace c then lstrip s' else s
  end.

Definition rstrip (s : text) : text := rev (lstrip (rev s)).

(** [s.strip()] *)
Definition strip (s : text) : text := lstrip (rstrip s).

(** [s.startswith(p)] *)
Fixpoint startswith (p s : text) : bool :=
  match p, s with
  | [], _ => true
  | _ :: _, [] => false
  | a :: p', b :: s' => if decide (a = b) then startswith p' s' else false
  end.

(** [needle in hay] *)
Fixpoint contains (needle hay : text) : bool :=
  match hay with
  | [] => startswith needle []
  | _ :: hay' => startswith needle hay || contains needle hay'
  end.

(** [sep.join(parts)] *)
Fixpoint join (sep : text) (parts : list text) : text :=
  match parts with
  | [] => []
  | [p] => p
  | p :: ps => p ++ sep ++ join sep ps
  end.

End PyStr.


(* ===================================================================== *)
(** ** The regular expressions the scripts use                            *)
(* ===================================================================== *)

(** The patterns in the repository are sequences of quantified character
    sets and word boundaries.  [match_here] is the backtracking matcher
    of Python's [re] on such patterns: every quantifier is greedy, a
    failure further right makes it give characters back one at a time,
    and the first success wins. *)
Module Re.
Import PyStr.

(** An item between square brackets. *)
Inductive item : Type :=
| Range (lo hi : ascii)
| Lit (c : ascii).

Inductive atom : Type :=
| Set_ (items : list item)     (* [...] or a single literal character *)
| Digit                        (* \d *)
| Word                         (* \w *)
| Any.                         (* .  *)

Inductive piece : Type :=
| Rep (a : atom) (lo : nat) (hi : option nat)   (* a{lo,hi}; a+ is a{1,}; a? is a{0,1} *)
| Boundary.                                     (* \b *)

Abbreviation pattern := (list piece).

Definition in_item (c : ascii) (it : item) : bool :=
  match it with
  | Range lo hi => (code lo <=? code c) && (code c <=? code hi)
  | Lit d => bool_decide (c = d)
  end.

Definition is_word (c : ascii) : bool :=
  is_lower c || is_upper c || is_digit c || bool_decide (c = "_"%char).

Definition accepts (a : atom) (c : ascii) : bool :=
  match a with
  | Set_ items => existsb (in_item c) items
  | Digit => is_digit c
  | Word => is_word c
  | Any => negb (bool_decide (c = "010"%char))
  end.

(** A literal text, character by character. *)
Definition lit (s : text) : pattern := map (fun c => Rep (Set_ [Lit c]) 1 (Some 1)) s.

Definition word_side (c : option ascii) : bool :=
  match c with
  | Some c => is_word c
  | None => false
  end.

(** [\b] holds between [prev] and [next]. *)
Definition at_boundary (prev next : option ascii) : bool :=
  xorb (word_side prev) (word_side next).

Definition within (hi : option nat) (n : nat) : bool :=
  match hi with
  | Some h => n <? h
  | None => true
  end.

(** How many characters a greedy [a{_,hi}] takes at the front of [s]:
    [count] have been taken already. *)
Fixpoint run (a : atom) (hi : option nat) (count : nat) (s : text) : nat :=
  match s with
  | c :: s' => if accepts a c && within hi count then run a hi (S count) s' else count
  | [] => count
  end.

(** The character before position [n] of [s], when [prev] is the one
    before [s]. *)
Definition before (prev : option ascii) (s : text) (n : nat) : option ascii :=
  match n with
  | 0 => prev
  | S n' => s !! n'
  end.

(** Try the continuation [k] after [n], [n-1], ..., [lo] characters. *)
Fixpoint backtrack (k : nat -> option (list nat)) (lo n : nat) : option (list nat) :=
  if n <? lo then None
  else match k n with
       | Some ns => Some (n :: ns)
       | None => match n with
                 | 0 => None
                 | S n' => backtrack k lo n'
                 end
       end.

(** A match of [ps] at the front of [s]: how many characters each piece
    took. *)
Fixpoint match_here (ps : pattern) (prev : option ascii) (s : text) : option (list nat) :=
  match ps with
  | [] => Some []
  | Boundary :: ps' =>
      if at_boundary prev (head s) then cons 0 <$> match_here ps' prev s else None
  | Rep a lo hi :: ps' =>
      backtrack (fun n => match_here ps' (before prev s n) (drop n s)) lo (run a hi 0 s)
  end.

Definition total (ns : list nat) : nat := foldr Nat.add 0 ns.

(** The length of the match at the front of [s], if there is one. *)
Definition match_len (ps : pattern) (prev : option ascii) (s : text) : option nat :=
  total <$> match_here ps prev s.

(** [re.search(ps, s)]: the leftmost match; its start and what each
    piece took. *)
Fixpoint search_from (ps : pattern) (prev : option ascii) (s : text) (pos : nat)
  : option (nat * list nat) :=
  match match_here ps prev s with
  | Some ns => Some (pos, ns)
  | None => match s with
            | [] => None
            | c :: s' => search_from ps (Some c) s' (S pos)
            end
  end.

Definition search (ps : pattern) (s : text) : option (nat * list nat) :=
  search_from ps None s 0.

(** The text matched by piece number [i] of a match starting at [pos]:
    a group around a single piece. *)
Definition group (s : text) (m : nat * list nat) (i : nat) : text :=
  let '(pos, ns) := m in
  take (default 0 (ns !! i)) (drop (pos + total (take i ns)) s).

(** [re.sub(ps, repl, s)] for a replacement without back-references.
    [skip] counts the characters of [s] still inside the last match.
    An empty match is replaced too, and the scan then moves on by one
    character. *)
Fixpoint sub_from (ps : pattern) (repl : text) (skip : nat) (prev : option ascii) (s : text)
  : text :=
  match s with
  | [] =>
      match skip, match_len ps prev [] with
      | 0, Some _ => repl
      | _, _ => []
      end
  | c :: s' =>
      match skip with
      | S skip' => sub_from ps repl skip' (Some c) s'
      | 0 =>
          match match_len ps prev s with
          | Some (S n) => repl ++ sub_from ps repl n (Some c) s'
          | Some 0 => repl ++ c :: sub_from ps repl 0 (Some c) s'
          | None => c :: sub_from ps repl 0 (Some c) s'
          end
      end
  end.

Definition sub (ps : pattern) (repl : text) (s : text) : text := sub_from ps repl 0 None s.

(** The common character sets. *)
Definition az : item := Range "a" "z".
Definition AZ : item := Range "A" "Z".
Definition d09 : item := Range "0" "9".
Definition plus (a : atom) : piece := Rep a 1 None.
Definition star (a : atom) : piece := Rep a 0 None.
Definition opt (a : atom) : piece := Rep a 0 (Some 1).
Definition times (n : nat) (a : atom) : piece := Rep a n (Some n).
Definition char (c : ascii) : piece := Rep (Set_ [Lit c]) 1 (Some 1).

End Re.

(* ===================================================================== *)
(** ** Python values, exceptions and the gateway                          *)
(* ===================================================================== *)

(** The values [json.loads] produces and the pattern runners pass around.
    A [PDict] keeps its items in insertion order, keys distinct. *)
Inductive pyval : Type :=
| PNone
| PBool (b : bool)
| PInt (z : Z)
| PFloat (f : spec_float)
| PStr (s : text)
| PList (l : list pyval)
| PDict (items : list (text * pyval)).

Module Py.

(** [bool(v)]: what [if v:] and [not v] look at. *)
Definition truthy (v : pyval) : bool :=
  match v with
  | PNone => false
  | PBool b => b
  | PInt z => negb (z =? 0)%Z
  | PFloat (S754_zero _) => false
  | PFloat _ => true
  | PStr s => negb (Nat.eqb (length s) 0)
  | PList l => negb (Nat.eqb (length l) 0)
  | PDict items => negb (Nat.eqb (length items) 0)
  end.

(** [d.get(key, default)] on the items of a dict. *)
Fixpoint dict_get (items : list (text * pyval)) (key : text) (default : pyval) : pyval :=
  match items with
  | [] => default
  | (k, v) :: rest => if decide (k = key) then v else dict_get rest key default
  end.

(** [list(d.values())] *)
Definition dict_values (items : list (text * pyval)) : list pyval := map snd items.

(** [v == "literal"] for a string literal. *)
Definition eq_str (v : pyval) (s : text) : bool :=
  match v with
  | PStr s' => bool_decide (s' = s)
  | _ => false
  end.

End Py.

Inductive exn : Type :=
| GatewayError (msg : text)      (* the provider call failed *)
| JSONDecodeError
| AttributeError
| TypeError
| IndexError
| KeyError
| ToolError (msg : text).        (* raised by a tool implementation *)

Inductive outcome (A : Type) : Type :=
| Returned (a : A)
| Raised (e : exn).
Arguments Returned {A} a.
Arguments Raised {A} e.

(** One chat message, [{"role": ..., "content": ...}]. *)
Record message := Message { role : text; content : pyval }.

(** The keyword arguments of [client.chat.completions.create]. *)
Record request := Request {
  model : text;
  messages : list message;
  temperature : option Q;
  json_object : bool            (* response_format = {"type": "json_object"} *)
  }.

(** Effects: a computation threads the state of the outside world, the
    log of gateway requests and the texts printed, and either returns or
    raises. *)
Section Effects.
Context {W : Type}.

Record env := Env { world : W; sent : list request; printed : list text }.

Definition M (A : Type) : Type := env -> outcome A * env.

Definition ret {A} (a : A) : M A := fun e => (Returned a, e).
Definition raise {A} (x : exn) : M A := fun e => (Raised x, e).
Definition bind {A B} (m : M A) (k : A -> M B) : M B :=
  fun e => match m e with
           | (Returned a, e') => k a e'
           | (Raised x, e') => (Raised x, e')
           end.

(** [try: m except: h] with a bare [except]. *)
Definition try_except {A} (m : M A) (h : M A) : M A :=
  fun e => match m e with
           | (Returned a, e') => (Returned a, e')
           | (Raised _, e') => h e'
           end.

Definition of_outcome {A} (o : outcome A) : M A := fun e => (o, e).

(** [print(line)] *)
Definition print (line : text) : M unit :=
  fun e => (Returned tt,
            {| world := world e; sent := sent e; printed := printed e ++ [line] |}).
End Effects.
Arguments env W : clear implicits.
Arguments M W A : clear implicits.

Notation "'let*' x ':=' m 'in' k" := (bind m (fun x => k))
  (at level 10, x name, m at level 100, k at level 200, only parsing).

(** The gateway: one provider call.  It may read and change the world,
    and it may fail; every request is logged in [sent]. *)
Section Gateway.
Context {W : Type}.
Variable provider : request -> W -> outcome text * W.

(** [client.chat.completions.create(...)] followed by
    [.choices[0].message.content]. *)
Definition create (rq : request) : M W text :=
  fun e =>
    let '(o, w') := provider rq (world e) in
    (o, {| world := w'; sent := sent e ++ [rq]; printed := printed e |}).
End Gateway.

(* ===================================================================== *)
(** ** Week1/router_chain.py                                              *)
(* ===================================================================== *)

Module RouterChain.
Section RouterChain.
Import PyStr.
Context {W : Type}.
Variable provider : request -> W -> outcome text * W.






End RouterChain.
End RouterChain.

(* ===================================================================== *)
(** ** week2/agenticpatterns.py                                           *)
(* ===================================================================== *)

Definition nl : text := ["010"%char].
Definition esc : text := ["027"%char].

(** [asyncio.gather]: the awaitables run to completion in some order (the
    schedule names them by launch position); each result is stored in
    the slot of its launch position, and the list of slots is the value
    of the gather.  The first exception propagates. *)
Section Gather.
Context {W : Type}.

Fixpoint run_to_completion (schedule : list nat) (tasks : list (M W text))
  : M W (list (nat * text)) :=
  match schedule with
  | [] => ret []
  | i :: rest =>
      match tasks !! i with
      | None => raise IndexError
      | Some task =>
          let* r := task in
          let* done := run_to_completion rest tasks in
          ret ((i, r) :: done)
      end
  end.

Definition store_results (n : nat) (completed : list (nat * text)) : list (option text) :=
  foldl (fun slots '(i, r) => <[i := Some r]> slots) (replicate n None) completed.

Definition gather (schedule : list nat) (tasks : list (M W text)) : M W (list (option text)) :=
  let* completed := run_to_completion schedule tasks in
  ret (store_results (length tasks) completed).

(** [results[i]] on the value of a gather. *)
Definition result_at (results : list (option text)) (i : nat) : M W text :=
  match results !! i with
  | Some (Some r) => ret r
  | _ => raise IndexError
  end.
End Gather.

Module AgenticPatterns.
Section AgenticPatterns.
Import PyStr.
Context {W : Type}.
Variable provider : request -> W -> outcome text * W.
(** [client.api_key] *)
Variable api_key : option text.
(** [json.loads]; [None] stands for [JSONDecodeError]. *)
Variable json_loads : text -> option pyval.
(** [str(v)] of a float, a list or a dict. *)
Variable repr : pyval -> text.

(** What an f-string or [str()] makes of a value. *)
Definition format (v : pyval) : text :=
  match v with
  | PStr s => s
  | PNone => str "None"
  | PBool true => str "True"
  | PBool false => str "False"
  | PInt z => str (pretty z)
  | _ => repr v
  end.

Definition has_key : bool :=
  match api_key with
  | Some (_ :: _) => true
  | _ => false
  end.

(** [call_llm(system, user, model="gpt-4o", json_mode=False)] *)
Definition call_llm (system : text) (user : pyval) (json_mode : bool) : M W text :=
  if negb has_key then ret (str "Simulated Output (No API Key)")
  else create provider
         {| model := str "gpt-4o";
            messages := [ Message (str "system") (PStr system);
                          Message (str "user") user ];
            temperature := Some (7 # 10)%Q;
            json_object := json_mode |}.

(* ------------------------------------------------------------------- *)
(** *** Pattern 2: routing *)

Definition ROUTER_SYSTEM : text := str "
    Classify the user query into exactly one category: " ++ str "
    - BILLING
    - TECHNICAL
    - GENERAL
    Output only the category name.
    ".

Definition inputs : list text :=
  [ str "My bill is wrong, I was charged twice.";
    str "How do I reset my password?";
    str "Tell me a joke." ].

(** [print_step(pattern, step, content)] *)
Definition print_step (pattern step : text) (content : pyval) : M W unit :=
  print (nl ++ str "[" ++ pattern ++ str "] " ++ esc ++ str "[92m" ++ step
            ++ esc ++ str "[0m: " ++ format content).

(** The body of the [for query in inputs] loop. *)
Definition route (query : text) : M W unit :=
  let* category0 := call_llm ROUTER_SYSTEM (PStr query) false in
  let category := upper (strip category0) in
  if contains (str "BILLING") category then
    let* response := call_llm (str "You are a Billing Agent. Be empathetic.") (PStr query) false in
    print_step (str "Router") (str "Route: BILLING") (PStr response)
  else if contains (str "TECHNICAL") category then
    let* response := call_llm (str "You are a Tech Support. Be precise.") (PStr query) false in
    print_step (str "Router") (str "Route: TECHNICAL") (PStr response)
  else
    let* response := call_llm (str "You are a Chatbot. Be witty.") (PStr query) false in
    print_step (str "Router") (str "Route: GENERAL") (PStr response).

Fixpoint for_each {A} (body : A -> M W unit) (l : list A) : M W unit :=
  match l with
  | [] => ret tt
  | a :: l' => let* _ := body a in for_each body l'
  end.

Definition pattern_routing : M W pyval :=
  let* _ := print (nl ++ str "--- PATTERN 2: ROUTING ---") in
  let* _ := for_each route inputs in
  ret PNone.

(* ------------------------------------------------------------------- *)
(** *** Pattern 1: prompt chaining *)

Definition pattern_prompt_chaining : M W pyval :=
  let* _ := print (nl ++ str "--- PATTERN 1: PROMPT CHAINING ---") in
  let user_input := str "I want to cook a romantic dinner for 2, vegetarian, under 30 mins." in
  let* step1_response :=
    call_llm (str "You are a Chef. Suggest ONE meal name based on constraints.")
             (PStr user_input) false in
  let* _ := print_step (str "Chain") (str "Step 1 (Idea)") (PStr step1_response) in
  let* step2_response :=
    call_llm (str "You are a Sous Chef. List ingredients for the provided meal name as a CSV list.")
             (PStr step1_response) false in
  let* _ := print_step (str "Chain") (str "Step 2 (Ingredients)") (PStr step2_response) in
  let* step3_response :=
    call_llm (str "You are a Clerk. Convert CSV ingredients to a JSON object with 'aisle' and 'item'.")
             (PStr step2_response) true in
  let* _ := print_step (str "Chain") (str "Step 3 (JSON)") (PStr step3_response) in
  ret PNone.

(* ------------------------------------------------------------------- *)
(** *** Pattern 3: parallelization *)

Definition async_call_llm (system user tag : text) : M W text :=
  call_llm system (PStr user) false.

Definition topic : text := str "The Future of AI in 2030".

(** The three awaitables of the scatter. *)
Definition task1 : M W text :=
  async_call_llm (str "You are an Optimist.")
                 (str "Write 1 sentence on " ++ topic ++ str ".") (str "Optimist").
Definition task2 : M W text :=
  async_call_llm (str "You are a Pessimist.")
                 (str "Write 1 sentence on " ++ topic ++ str ".") (str "Pessimist").
Definition task3 : M W text :=
  async_call_llm (str "You are a Realist.")
                 (str "Write 1 sentence on " ++ topic ++ str ".") (str "Realist").

Definition pattern_parallelization (schedule : list nat) : M W pyval :=
  let* _ := print (nl ++ str "--- PATTERN 3: PARALLELIZATION (SCATTER-GATHER) ---") in
  let* _ := print_step (str "Parallel") (str "Scatter")
              (PStr (str "Generating 3 perspectives on '" ++ topic ++ str "'...")) in
  let* results := gather schedule [task1; task2; task3] in
  let* r0 := result_at results 0 in
  let* r1 := result_at results 1 in
  let* r2 := result_at results 2 in
  let combined_input :=
    str "Optimist: " ++ r0 ++ nl ++ str "Pessimist: " ++ r1 ++ nl ++ str "Realist: " ++ r2 in
  let* final_summary :=
    call_llm (str "You are a Synthesizer. Combine these views into a balanced conclusion.")
             (PStr combined_input) false in
  let* _ := print_step (str "Parallel") (str "Gather (Synthesis)") (PStr final_summary) in
  ret PNone.

(* ------------------------------------------------------------------- *)
(** *** Pattern 4: orchestrator-workers *)

(** [json.loads(s)] as a computation. *)
Definition loads (s : text) : M W pyval :=
  match json_loads s with
  | Some v => ret v
  | None => raise JSONDecodeError
  end.

(** [v.get(key, default)]: only a dict has the method. *)
Definition get (v : pyval) (key : text) (default : pyval) : M W pyval :=
  match v with
  | PDict items => ret (Py.dict_get items key default)
  | _ => raise AttributeError
  end.

(** [list(v.values())] *)
Definition values (v : pyval) : M W (list pyval) :=
  match v with
  | PDict items => ret (Py.dict_values items)
  | _ => raise AttributeError
  end.

(** [l[0]] *)
Definition first (l : list pyval) : M W pyval :=
  match l with
  | v :: _ => ret v
  | [] => raise IndexError
  end.

(** [iter(v)], as [enumerate(v)] and a [for] loop need it: the items of
    a list, the characters of a string, the keys of a dict. *)
Definition iterate (v : pyval) : M W (list pyval) :=
  match v with
  | PList l => ret l
  | PStr s => ret (map (fun c => PStr [c]) s)
  | PDict items => ret (map (fun kv => PStr (fst kv)) items)
  | _ => raise TypeError
  end.

Definition complex_task : text :=
  str "Write a blog post about coffee. Section 1: History. Section 2: Health Benefits.".

Definition fallback_tasks : pyval :=
  PList [ PStr (str "Write history of coffee");
          PStr (str "Write health benefits of coffee") ].

(** The [try] block of the orchestrator and its bare [except]. *)
Definition plan_tasks (plan_response : text) : M W pyval :=
  try_except
    (let* parsed := loads plan_response in
     let* tasks := get parsed (str "tasks") (PList []) in
     if negb (Py.truthy tasks) then
       let* parsed' := loads plan_response in
       let* vs := values parsed' in
       first vs
     else ret tasks)
    (ret fallback_tasks).

(** The worker loop, [for i, task in enumerate(tasks)]; [i] counts from
    0 and [results] is the list built so far. *)
Fixpoint workers (i : nat) (tasks : list pyval) (results : list text) : M W (list text) :=
  match tasks with
  | [] => ret results
  | task :: rest =>
      let* worker_output :=
        call_llm (str "You are a Blog Writer. Write 1 short paragraph.") task false in
      let* _ := print_step (str "Orchestrator") (str "Worker " ++ str (pretty (i + 1)))
                  (PStr worker_output) in
      workers (i + 1) rest (results ++ [worker_output])
  end.

Definition pattern_orchestrator : M W pyval :=
  let* _ := print (nl ++ str "--- PATTERN 4: ORCHESTRATOR-WORKERS ---") in
  let* plan_response :=
    call_llm (str "You are an Editor. Break the blog topic into exactly 2 sub-task prompts for writers. Return JSON list ['task1', 'task2'].")
             (PStr complex_task) true in
  let* tasks := plan_tasks plan_response in
  let* _ := print_step (str "Orchestrator") (str "Plan") (PStr (format tasks)) in
  let* items := iterate tasks in
  let* results := workers 0 items [] in
  let final_doc := join (nl ++ nl) results in
  let* _ := print_step (str "Orchestrator") (str "Final Output")
              (PStr (take 100 final_doc ++ str "...")) in
  ret PNone.

(* ------------------------------------------------------------------- *)
(** *** Pattern 5: evaluator-optimizer *)

Definition request_text : text :=
  str "Write a python function to add two numbers, but make the variable names terrible.".

Definition REJECTED : text := str "REJECTED".
Definition APPROVED : text := str "APPROVED".

(** The local variables of [pattern_evaluator_optimizer]; [draft] and
    [feedback] are unbound until the first iteration assigns them. *)
Record locals := Locals {
  context : text;
  status : text;
  attempt : nat;
  draft : option text;
  feedback : option pyval
}.

(** The [try] block that reads the verdict, and its bare [except]; the
    value is the new [status] and [feedback]. *)
Definition read_verdict (eval_response : text) : M W (text * pyval) :=
  try_except
    (let* eval_json := loads eval_response in
     let* verdict := get eval_json (str "status") PNone in
     let status' := if Py.eq_str verdict (str "PASS") then APPROVED else REJECTED in
     let* feedback' := get eval_json (str "feedback") PNone in
     ret (status', feedback'))
    (ret (APPROVED, PStr (str "JSON Error"))).

(** Step 1 of the body, the generator: the draft is requested and
    printed. *)
Definition generate (st : locals) : M W text :=
  let* draft' := call_llm (str "You are a Junior Coder. Write the code requested.")
                          (PStr (context st)) false in
  let* _ := print_step (str "Loop") (str "Draft " ++ str (pretty (attempt st + 1)))
              (PStr draft') in
  ret draft'.

(** Step 2 of the body, the evaluator's answer on the draft. *)
Definition evaluate (draft' : text) : M W text :=
  call_llm (str "You are a Senior Dev. Evaluate code. If variable names are bad/unreadable, say PASS. If they are clean/good, say FAIL (because prompt asked for terrible names). Return JSON {'status': 'PASS'/'FAIL', 'feedback': 'string'}")
           (PStr (str "Req: " ++ request_text ++ nl ++ str "Code: " ++ draft')) true.

(** One pass through the body of the [while] loop. *)
Definition iteration (st : locals) : M W locals :=
  let attempt' := attempt st + 1 in
  let* draft' := generate st in
  let* eval_response := evaluate draft' in
  let* verdict := read_verdict eval_response in
  let '(status', feedback') := verdict in
  let* _ := print_step (str "Loop") (str "Evaluation (" ++ status' ++ str ")") feedback' in
  let context' :=
    if bool_decide (status' = REJECTED) then
      str "Original Request: " ++ request_text ++ nl ++
      str "Previous Draft: " ++ draft' ++ nl ++
      str "Critique: " ++ format feedback' ++ nl ++ str "Fix it."
    else context st in
  ret {| context := context'; status := status'; attempt := attempt';
         draft := Some draft'; feedback := Some feedback' |}.

(** The loop condition, [status == "REJECTED" and attempt < 3]. *)
Definition continues (st : locals) : bool :=
  bool_decide (status st = REJECTED) && (attempt st <? 3).

(** [while status == "REJECTED" and attempt < 3: ...].  The recursion is
    on [fuel]; a loop that wants to go on with no fuel left is [None]. *)
Fixpoint while_loop (fuel : nat) (st : locals) : M W (option locals) :=
  if continues st then
    match fuel with
    | 0 => ret None
    | S fuel' => let* st' := iteration st in while_loop fuel' st'
    end
  else ret (Some st).

Definition initial : locals :=
  {| context := request_text; status := REJECTED; attempt := 0;
     draft := None; feedback := None |}.

(** The function has no [return]: its value is [None].  [run_loop] is
    the loop alone, giving the locals it ends with. *)
Definition run_loop (fuel : nat) : M W (option locals) :=
  let* _ := print (nl ++ str "--- PATTERN 5: EVALUATOR-OPTIMIZER ---") in
  while_loop fuel initial.

Definition pattern_evaluator_optimizer (fuel : nat) : M W (option pyval) :=
  let* final := run_loop fuel in
  match final with
  | Some _ => ret (Some PNone)
  | None => ret None
  end.

End AgenticPatterns.
End AgenticPatterns.

(* ===================================================================== *)
(** ** parallel_consensus.py                                              *)
(* ===================================================================== *)

Module ParallelConsensus.
Section ParallelConsensus.
Import PyStr.
Context {W : Type}.
Variable provider : request -> W -> outcome text * W.

(** [ask_agent(name, prompt, color)] *)
Definition ask_agent (name prompt : text) : M W text :=
  let* content := create provider
      {| model := str "gpt-4";
         messages := [ Message (str "user") (PStr prompt) ];
         temperature := Some (7 # 10)%Q;
         json_object := false |} in
  ret (name ++ str ": " ++ content).

Definition agents (prompt : text) : list (M W text) :=
  [ ask_agent (str "Agent A") prompt;
    ask_agent (str "Agent B") prompt;
    ask_agent (str "Agent C") prompt ].

(** The final call, to the judge. *)
Definition judge (combined_text : text) : M W text :=
  create provider
    {| model := str "gpt-4";
       messages := [ Message (str "system")
                       (PStr (str "You are a Judge. Synthesize the following 3 facts into one definitive truth."));
                     Message (str "user") (PStr combined_text) ];
       temperature := None;
       json_object := false |}.

(** [results] of the gather: [None] slots cannot be joined. *)
Fixpoint all_results (results : list (option text)) : M W (list text) :=
  match results with
  | [] => ret []
  | Some r :: rest => let* rs := all_results rest in ret (r :: rs)
  | None :: _ => raise TypeError
  end.

Definition run_consensus (schedule : list nat) (topic : text) : M W pyval :=
  let prompt := str "Provide a brief, 1-sentence interesting fact about: " ++ topic in
  let* slots := gather schedule (agents prompt) in
  let* results := all_results slots in
  let combined_text := join nl results in
  let* final_verdict := judge combined_text in
  ret PNone.

End ParallelConsensus.
End ParallelConsensus.

(* ===================================================================== *)
(** ** smart_investor_local.py                                            *)
(* ===================================================================== *)

(** [str(e)] *)
Definition exn_message (e : exn) : text :=
  match e with
| GatewayError msg => msg
| ToolError msg => msg
| JSONDecodeError => str "JSONDecodeError"
| AttributeError => str "AttributeError"
| TypeError => str "TypeError"
| IndexError => str "IndexError"
| KeyError => str "KeyError"
  end.

Module SmartInvestorLocal.

(** A tool takes its input text and returns an observation or raises. *)
Abbreviation tool := (text -> outcome text).
Section SmartInvestorLocal.
Import PyStr.
Context {W : Type}.
Variable provider : request -> W -> outcome text * W.

Definition get_stock_price : tool :=
  fun ticker => Returned (ticker ++ str " is currently trading at $215.40").

Definition get_news : tool :=
  fun query => Returned (str "Recent news for " ++ query ++
                         str ": Analysts predict strong growth due to AI demand.").

(** The tool registry. *)
Definition tools : gmap text tool :=
  <[ str "get_stock_price" := get_stock_price ]>
    (<[ str "get_news" := get_news ]> ∅).

Definition SYSTEM_PROMPT : text := str "
You are a Financial Research Agent.
You run in a loop of Thought, Action, PAUSE, Observation.
At the end of the loop, output your Final Answer.

Use Action: tool_name[input] to use a tool.
Available tools: get_stock_price, get_news.

Example:
Thought: I need to check the price.
Action: get_stock_price[AAPL]
PAUSE
".

(** The pattern of an action line: the text [Action: ], a group of one
    or more word characters, an opening bracket, a group of any
    characters, a closing bracket.  The groups are pieces 8 and 10. *)
Definition action_pattern : Re.pattern :=
  Re.lit (str "Action: ") ++
  [ Re.plus Re.Word; Re.char "["; Re.star Re.Any; Re.char "]" ].

Definition parse_action (agent_text : text) : option (text * text) :=
  match Re.search action_pattern agent_text with
  | Some m => Some (Re.group agent_text m 8, Re.group agent_text m 10)
  | None => None
  end.

(** Running the named tool: the [if tool_name in tools] block, whose
    value is the observation. *)
Definition observe (registry : gmap text tool) (tool_name tool_input : text) : text :=
  match registry !! tool_name with
  | Some impl =>
      match impl tool_input with
      | Returned observation => observation
      | Raised e => str "Error: " ++ exn_message e
      end
  | None => str "Error: Tool '" ++ tool_name ++ str "' not found."
  end.

(** What one turn of the loop does to the transcript: it returns the
    final answer, or goes on with the new transcript. *)
Inductive turn_result : Type :=
| Final (agent_text : text)
| Continue (transcript : list message).

Definition turn (registry : gmap text tool) (transcript : list message) : M W turn_result :=
  let* agent_text := create provider
      {| model := str "gpt-4"; messages := transcript;
         temperature := None; json_object := false |} in
  let transcript := transcript ++ [ Message (str "assistant") (PStr agent_text) ] in
  if contains (str "Final Answer:") agent_text then ret (Final agent_text)
  else
    match parse_action agent_text with
    | Some (tool_name, tool_input) =>
        let observation := observe registry tool_name tool_input in
        ret (Continue (transcript ++
               [ Message (str "user") (PStr (str "Observation: " ++ observation)) ]))
    | None => ret (Continue transcript)
    end.

(** [for turn in range(turns): ...]; falling out of the loop returns
    [None]. *)
Fixpoint turns_loop (registry : gmap text tool) (turns : nat) (transcript : list message)
  : M W (pyval * list message) :=
  match turns with
  | 0 => ret (PNone, transcript)
  | S turns' =>
      let* r := turn registry transcript in
      match r with
      | Final agent_text => ret (PStr agent_text, transcript ++ [Message (str "assistant") (PStr agent_text)])
      | Continue transcript' => turns_loop registry turns' transcript'
      end
  end.

(** The value is the one returned and the transcript at that point. *)
Definition run_agent_with (registry : gmap text tool) (user_query : text)
  : M W (pyval * list message) :=
  turns_loop registry 5
    [ Message (str "system") (PStr SYSTEM_PROMPT);
      Message (str "user") (PStr user_query) ].

Definition run_agent (user_query : text) : M W (pyval * list message) :=
  run_agent_with tools user_query.

End SmartInvestorLocal.
End SmartInvestorLocal.

(* ===================================================================== *)
(** ** week4/autonomousclaims.py: the PII guardrail                       *)
(* ===================================================================== *)

Module AutonomousClaims.
Import Re.

(** [r'[a-zA-Z0-9_.+-]+@[a-zA-Z0-9-]+\.[a-zA-Z0-9-.]+'] *)
Definition email_pattern : pattern :=
  [ plus (Set_ [az; AZ; d09; Lit "_"; Lit "."; Lit "+"; Lit "-"]);
    char "@";
    plus (Set_ [az; AZ; d09; Lit "-"]);
    char ".";
    plus (Set_ [az; AZ; d09; Lit "-"; Lit "."]) ].

(** [r'\b\d{3}[-.]?\d{3}[-.]?\d{4}\b'] *)
Definition phone_pattern : pattern :=
  [ Boundary;
    times 3 Digit; opt (Set_ [Lit "-"; Lit "."]);
    times 3 Digit; opt (Set_ [Lit "-"; Lit "."]);
    times 4 Digit;
    Boundary ].

Definition REDACTED_EMAIL : text := str "[REDACTED_EMAIL]".
Definition REDACTED_PHONE : text := str "[REDACTED_PHONE]".

Definition redact (t : text) : text :=
  let t := sub email_pattern REDACTED_EMAIL t in
  let t := sub phone_pattern REDACTED_PHONE t in
  t.

(** [d[key]] and [d[key] = v] on the items of a dict. *)
Fixpoint dict_lookup (items : list (text * pyval)) (key : text) : option pyval :=
  match items with
  | [] => None
  | (k, v) :: rest => if decide (k = key) then Some v else dict_lookup rest key
  end.

Fixpoint dict_set (items : list (text * pyval)) (key : text) (v : pyval)
  : list (text * pyval) :=
  match items with
  | [] => [(key, v)]
  | (k, v') :: rest =>
      if decide (k = key) then (k, v) :: rest else (k, v') :: dict_set rest key v
  end.

(** The body of the loop over the parts of a structured content. *)
Definition redact_item (item : pyval) : outcome pyval :=
  match item with
  | PDict new_item =>
      if Py.eq_str (Py.dict_get new_item (str "type") PNone) (str "text") then
        match dict_lookup new_item (str "text") with
        | Some (PStr t) => Returned (PDict (dict_set new_item (str "text") (PStr (redact t))))
        | Some _ => Raised TypeError
        | None => Raised KeyError
        end
      else Returned (PDict new_item)
  | _ => Raised AttributeError
  end.

Fixpoint redact_items (items : list pyval) : outcome (list pyval) :=
  match items with
  | [] => Returned []
  | item :: rest =>
      match redact_item item with
      | Raised e => Raised e
      | Returned new_item =>
          match redact_items rest with
          | Raised e => Raised e
          | Returned new_content => Returned (new_item :: new_content)
          end
      end
  end.

Definition pii_guardrail (content : pyval) : outcome pyval :=
  match content with
  | PStr t => Returned (PStr (redact t))
  | PList items =>
      match redact_items items with
      | Returned new_content => Returned (PList new_content)
      | Raised e => Raised e
      end
  | _ => Returned content
  end.

End AutonomousClaims.

(* ===================================================================== *)
(** ** week4/Production-Ready.py: tracer, guardrail, cache, agent         *)
(* ===================================================================== *)

Module ProductionReady.

(** A span, the dict [start_span] builds and [end_span] completes. *)
Record span := Span {
  trace_id : text;
  span_name : text;
  start_time : text;
  input : pyval;
  status : text;
  end_time : option text;       (* absent until the span is ended *)
  output : option pyval         (* absent until the span is ended *)
}.

(** The process-wide state: the world outside, the module-level
    [CACHE_STORE] and the lines of [agent_traces.jsonl], each line kept
    as the span it serialises. *)
Record process (W : Type) := Process {
  outside : W;
  CACHE_STORE : gmap text text;
  agent_traces : list span
}.
Arguments Process {W}.
Arguments outside {W}.
Arguments CACHE_STORE {W}.
Arguments agent_traces {W}.

(** A [Tracer] object; the methods take it and give back its new state. *)
Module Tracer.
Record t := Make { trace_id : text; spans : list span }.
End Tracer.

Section ProductionReady.
Context {W : Type}.
Variable provider : request -> W -> outcome text * W.
(** [datetime.now().isoformat()] *)
Variable now : W -> text * W.
(** [client.api_key] *)
Variable api_key : option text.

Definition get_state {A} (f : process W -> A) : M (process W) A :=
  fun e => (Returned (f (world e)), e).

Definition set_state (f : process W -> process W) : M (process W) unit :=
  fun e => (Returned tt, {| world := f (world e); sent := sent e; printed := printed e |}).

Definition isoformat_now : M (process W) text :=
  fun e =>
    let '(stamp, w') := now (outside (world e)) in
    (Returned stamp,
     {| world := Process w' (CACHE_STORE (world e)) (agent_traces (world e));
        sent := sent e; printed := printed e |}).

Definition on_outside (rq : request) (p : process W) : outcome text * process W :=
  let '(o, w') := provider rq (outside p) in
  (o, Process w' (CACHE_STORE p) (agent_traces p)).

(* ------------------------------------------------------------------- *)
(** *** Module 1: tracing *)

Definition RUNNING : text := str "RUNNING".
Definition COMPLETED : text := str "COMPLETED".

Definition start_span (self : Tracer.t) (name : text) (input_data : pyval)
  : M (process W) (Tracer.t * Z) :=
  let* stamp := isoformat_now in
  let span := {| trace_id := Tracer.trace_id self; span_name := name;
                 start_time := stamp; input := input_data; status := RUNNING;
                 end_time := None; output := None |} in
  let spans := Tracer.spans self ++ [span] in
  ret (Tracer.Make (Tracer.trace_id self) spans, Z.of_nat (length spans) - 1)%Z.

(** [l[i]] for a Python list: a negative index counts from the end. *)
Definition list_index (len : nat) (i : Z) : option nat :=
  if (0 <=? i)%Z && (i <? Z.of_nat len)%Z then Some (Z.to_nat i)
  else if (i <? 0)%Z && (- Z.of_nat len <=? i)%Z then Some (Z.to_nat (Z.of_nat len + i))
  else None.

Definition _log_to_file (span : span) : M (process W) unit :=
  let* _ := set_state (fun p => Process (outside p) (CACHE_STORE p) (agent_traces p ++ [span])) in
  print (str "   [Trace] Logged span: " ++ span_name span).

Definition end_span (self : Tracer.t) (span_index : Z) (output_data : pyval)
  : M (process W) Tracer.t :=
  match list_index (length (Tracer.spans self)) span_index with
  | None => raise IndexError
  | Some i =>
      match Tracer.spans self !! i with
      | None => raise IndexError
      | Some span =>
          let* stamp := isoformat_now in
          let span := {| trace_id := trace_id span; span_name := span_name span;
                         start_time := start_time span; input := input span;
                         status := COMPLETED;
                         end_time := Some stamp; output := Some output_data |} in
          let* _ := _log_to_file span in
          ret (Tracer.Make (Tracer.trace_id self) (<[i := span]> (Tracer.spans self)))
      end
  end.

(* ------------------------------------------------------------------- *)
(** *** Module 2: the guardrail *)

(** [r'[a-zA-Z0-9._%+-]+@[a-zA-Z0-9.-]+\.[a-zA-Z]{2,}'] *)
Definition email_pattern : Re.pattern :=
  [ Re.plus (Re.Set_ [Re.az; Re.AZ; Re.d09; Re.Lit "."; Re.Lit "_"; Re.Lit "%"; Re.Lit "+"; Re.Lit "-"]);
    Re.char "@";
    Re.plus (Re.Set_ [Re.az; Re.AZ; Re.d09; Re.Lit "."; Re.Lit "-"]);
    Re.char ".";
    Re.Rep (Re.Set_ [Re.az; Re.AZ]) 2 None ].

Definition REDACTED_EMAIL : text := str "[REDACTED_EMAIL]".

(** The decorator: [guardrail_pii func] is the wrapper around [func].
    [func] returns its result next to the objects it has changed. *)
Definition guardrail_pii {S} (func : M (process W) (pyval * S)) : M (process W) (pyval * S) :=
  let* r := func in
  let '(result, objects) := r in
  match result with
  | PStr result =>
      let redacted_result := Re.sub email_pattern REDACTED_EMAIL result in
      let* _ := (if bool_decide (redacted_result <> result)
                 then print (str "   [Guardrail] ALERT: PII detected and redacted.")
                 else ret tt) in
      ret (PStr redacted_result, objects)
  | _ => ret (result, objects)
  end.

(* ------------------------------------------------------------------- *)
(** *** Module 3: the cache *)

Definition check_cache (prompt : text) : M (process W) (option text) :=
  get_state (fun p => CACHE_STORE p !! prompt).

Definition update_cache (prompt response : text) : M (process W) unit :=
  set_state (fun p => Process (outside p) (<[prompt := response]> (CACHE_STORE p)) (agent_traces p)).

(* ------------------------------------------------------------------- *)
(** *** The agent *)

Definition has_key : bool :=
  match api_key with
  | Some (_ :: _) => true
  | _ => false
  end.

(** The call to the model, with its [except Exception] handler. *)
Definition ask_model (user_query : text) : M (process W) text :=
  fun e =>
    let prompt := user_query ++ str ". Include a contact email in your response." in
    match create on_outside
            {| model := str "gpt-4o";
               messages := [ Message (str "user") (PStr prompt) ];
               temperature := None; json_object := false |} e with
    | (Returned response, e') => (Returned response, e')
    | (Raised x, e') => (Returned (str "Error: " ++ exn_message x), e')
    end.

(** The function under the decorator. *)
Definition secure_agent_executor_body (user_query : text) (tracer : Tracer.t)
  : M (process W) (pyval * Tracer.t) :=
  let* started := start_span tracer (str "secure_agent_execution") (PStr user_query) in
  let '(tracer, span_idx) := started in
  let* cached := check_cache user_query in
  match cached with
  | Some (c :: cached') =>
      let cached := c :: cached' in
      let* _ := print (str "   [Cache] Hit! Returning cached response.") in
      let* tracer := end_span tracer span_idx
                       (PDict [ (str "source", PStr (str "cache"));
                                (str "response", PStr cached) ]) in
      ret (PStr cached, tracer)
  | _ =>
      let* response :=
        (if negb has_key
         then ret (str "Sure, I can help. Contact support at admin@company.com for details.")
         else ask_model user_query) in
      let* _ := update_cache user_query response in
      let* tracer := end_span tracer span_idx
                       (PDict [ (str "source", PStr (str "llm"));
                                (str "response", PStr response) ]) in
      ret (PStr response, tracer)
  end.

Definition secure_agent_executor (user_query : text) (tracer : Tracer.t)
  : M (process W) (pyval * Tracer.t) :=
  guardrail_pii (secure_agent_executor_body user_query tracer).

End ProductionReady.
End ProductionReady.

(* ===================================================================== *)
(** ** week4/langraph_production_Agent.py: the PII check                  *)
(* ===================================================================== *)

Module ProductionAgent.
Import Re.

(** The two patterns are written as in autonomousclaims.py. *)
Definition email_pattern : pattern :=
  [ plus (Set_ [az; AZ; d09; Lit "_"; Lit "."; Lit "+"; Lit "-"]);
    char "@";
    plus (Set_ [az; AZ; d09; Lit "-"]);
    char ".";
    plus (Set_ [az; AZ; d09; Lit "-"; Lit "."]) ].

Definition phone_pattern : pattern :=
  [ Boundary;
    times 3 Digit; opt (Set_ [Lit "-"; Lit "."]);
    times 3 Digit; opt (Set_ [Lit "-"; Lit "."]);
    times 4 Digit;
    Boundary ].

(** [if re.search(p, text)]: a match object is true, [None] is false. *)
Definition found (p : pattern) (t : text) : bool :=
  match search p t with
  | Some _ => true
  | None => false
  end.

Definition pii_guardrail (t : text) : text :=
  if found email_pattern t || found phone_pattern t then
    let t := sub email_pattern (str "[REDACTED_EMAIL]") t in
    let t := sub phone_pattern (str "[REDACTED_PHONE]") t in
    t
  else t.

End ProductionAgent.

(* ===================================================================== *)
(** ** week3/autogen1.py: the termination test                            *)
(* ===================================================================== *)

Module AutoGen.
Import PyStr.



End AutoGen.

(* ===================================================================== *)
(** ** Week1/smart_investor_nativetools.py                                *)
(* ===================================================================== *)

Module NativeTools.

(** A tool call of the model: [tool_call.id], [tool_call.function.name]
    and [tool_call.function.arguments], a JSON text. *)
Record tool_call := ToolCall { id : text; name : text; arguments : text }.

(** [response.choices[0].message]; [tool_calls] is empty when the model
    asks for none. *)
Record reply := Reply { content : option text; tool_calls : list tool_call }.

(** What [messages] holds: the two opening dicts, the replies appended as
    they are, and the tool results. *)
Inductive entry : Type :=
| Plain (role content : text)
| Assistant (msg : reply)
| ToolResult (tool_call_id name content : text).

(** 215.40 as a double. *)
Definition price : spec_float := S754_finite false 7578713747934413 (-45).

Definition function_schema (fname description hint : text) : pyval :=
  PDict [ (str "type", PStr (str "function"));
          (str "function",
           PDict [ (str "name", PStr fname);
                   (str "description", PStr description);
                   (str "parameters",
                    PDict [ (str "type", PStr (str "object"));
                            (str "properties",
                             PDict [ (str "ticker",
                                      PDict [ (str "type", PStr (str "string"));
                                              (str "description", PStr hint) ]) ]);
                            (str "required", PList [ PStr (str "ticker") ]) ]) ]) ].

Definition tools_schema : pyval :=
  PList [ function_schema (str "get_stock_price")
            (str "Get the current stock price for a given ticker symbol.")
            (str "The stock ticker (e.g., AAPL)");
          function_schema (str "get_news")
            (str "Get recent news for a given stock ticker.")
            (str "The stock ticker (e.g., NVDA)") ].

(** The keyword arguments of the completion request. *)
Record native_request := NativeRequest {
  model : text;
  messages : list entry;
  tools : pyval;
  tool_choice : text
}.

Section NativeTools.
Context {W : Type}.
Variable provider : native_request -> W -> outcome reply * W.
(** [json.loads]; [None] stands for [JSONDecodeError]. *)
Variable json_loads : text -> option pyval.
(** [json.dumps] *)
Variable json_dumps : pyval -> text.

Definition get_stock_price (ticker : pyval) : text :=
  json_dumps (PDict [ (str "ticker", ticker); (str "price", PFloat price);
                      (str "currency", PStr (str "USD")) ]).

Definition get_news (ticker : pyval) : text :=
  json_dumps (PDict [ (str "ticker", ticker);
                      (str "news", PStr (str "Earnings beat expectations. Analysts bullish.")) ]).

Definition available_functions : gmap text (pyval -> text) :=
  <[ str "get_stock_price" := get_stock_price ]> (<[ str "get_news" := get_news ]> ∅).

(** The call of [function_to_call] with [function_args] as its keyword
    arguments, for a function of the one parameter [ticker]. *)
Definition call_with (function_to_call : pyval -> text) (function_args : pyval)
  : outcome text :=
  match function_args with
  | PDict [ (k, v) ] =>
      if decide (k = str "ticker") then Returned (function_to_call v) else Raised TypeError
  | _ => Raised TypeError
  end.

(** [for tool_call in tool_calls: ...] *)
Fixpoint execute (calls : list tool_call) (transcript : list entry) : outcome (list entry) :=
  match calls with
  | [] => Returned transcript
  | tool_call :: rest =>
      let function_name := name tool_call in
      match json_loads (arguments tool_call) with
      | None => Raised JSONDecodeError
      | Some function_args =>
          match available_functions !! function_name with
          | None => Raised KeyError
          | Some function_to_call =>
              match call_with function_to_call function_args with
              | Raised x => Raised x
              | Returned function_response =>
                  execute rest
                    (transcript ++
                       [ ToolResult (id tool_call) function_name function_response ])
              end
          end
      end
  end.

(** [for turn in range(turns): ...]; the value is [messages] when the
    loop is left. *)
Fixpoint turns_loop (turns : nat) (transcript : list entry) (w : W)
  : outcome (list entry) * W :=
  match turns with
  | 0 => (Returned transcript, w)
  | S turns' =>
      match provider {| model := str "gpt-4"; messages := transcript;
                        tools := tools_schema; tool_choice := str "auto" |} w with
      | (Raised x, w') => (Raised x, w')
      | (Returned msg, w') =>
          match tool_calls msg with
          | [] => (Returned transcript, w')
          | calls =>
              match execute calls (transcript ++ [Assistant msg]) with
              | Raised x => (Raised x, w')
              | Returned transcript' => turns_loop turns' transcript' w'
              end
          end
      end
  end.

Definition run_native_agent (query : text) (w : W) : outcome (list entry) * W :=
  turns_loop 5
    [ Plain (str "system")
        (str "You are a helpful financial assistant. Use tools to answer questions.");
      Plain (str "user") query ] w.

End NativeTools.
End NativeTools.

(* ===================================================================== *)
(** ** week3/langraph_statefulagent.py                                    *)
(* ===================================================================== *)

Module StatefulAgent.

(** [AgentState]; a key other than [messages] is absent until a node
    sets it. *)
Record AgentState := State {
  messages : list message;
  current_step : option text;
  plan : option (list text);
  final_answer : option text
}.

(** The dict a node returns. *)
Record update := Update {
  new_messages : list message;
  new_current_step : option text;
  new_plan : option (list text);
  new_final_answer : option text
}.

(** The graph adds [messages] with [operator.add] and overwrites the
    other keys a node returns. *)
Definition merge (state : AgentState) (u : update) : AgentState :=
  {| messages := messages state ++ new_messages u;
     current_step := match new_current_step u with Some s => Some s | None => current_step state end;
     plan := match new_plan u with Some p => Some p | None => plan state end;
     final_answer := match new_final_answer u with
                     | Some a => Some a | None => final_answer state end |}.

Inductive node : Type := planner | executor | reviewer.

(** Where an edge leads. *)
Inductive target : Type := To (n : node) | END.

Section StatefulAgent.
Context {W : Type}.
Variable provider : request -> W -> outcome text * W.

(** [llm.invoke(msgs)] with [ChatOpenAI(model="gpt-4", temperature=0)]. *)
Definition invoke (msgs : list message) : M W text :=
  create provider (Request (str "gpt-4") msgs (Some (0 # 1)%Q) false).

Definition planner_node (state : AgentState) : M W update :=
  match last (messages state) with
  | None => raise IndexError
  | Some last_message =>
      match content last_message with
      | PStr task =>
          let* plan_response :=
            invoke [ Message (str "user")
                       (PStr (str "You are a planner. Generate a list of 3 steps to solve: " ++ task)) ] in
          ret {| new_messages := [];
                 new_current_step := Some (str "plan_created");
                 new_plan := Some [ str "Step 1: Research"; str "Step 2: Draft";
                                    str "Step 3: Review" ];
                 new_final_answer := None |}
      | _ => raise TypeError
      end
  end.

Definition executor_node (state : AgentState) : M W update :=
  match plan state with
  | None => raise KeyError
  | Some steps =>
      let execution_log :=
        str "Executed " ++ str (pretty (length steps)) ++ str " steps successfully." in
      ret {| new_messages := [ Message (str "assistant") (PStr execution_log) ];
             new_current_step := Some (str "executed");
             new_plan := None; new_final_answer := None |}
  end.

Definition reviewer_node (state : AgentState) : M W update :=
  ret {| new_messages := [];
         new_current_step := Some (str "finished");
         new_plan := None;
         new_final_answer := Some (str "Task Completed and Verified.") |}.

(** [router(state)] *)
Definition router (state : AgentState) : M W text :=
  match current_step state with
  | None => raise KeyError
  | Some step =>
      if decide (step = str "plan_created") then ret (str "executor")
      else if decide (step = str "executed") then ret (str "reviewer")
      else if decide (step = str "finished") then ret (str "end")
      else ret (str "end")
  end.

Definition run_node (n : node) : AgentState -> M W update :=
  match n with
  | planner => planner_node
  | executor => executor_node
  | reviewer => reviewer_node
  end.

(** The mapping given to [add_conditional_edges] for a node; a key that
    is not in the mapping is an error. *)
Definition path_map (n : node) (key : text) : M W target :=
  match n with
  | planner =>
      if decide (key = str "executor") then ret (To executor)
      else if decide (key = str "end") then ret END
      else raise KeyError
  | executor =>
      if decide (key = str "reviewer") then ret (To reviewer)
      else if decide (key = str "end") then ret END
      else raise KeyError
  | reviewer =>
      if decide (key = str "end") then ret END
      else raise KeyError
  end.

(** The compiled graph from a node on: the node runs, its update is
    merged, the router picks the edge.  The value is the final state and
    the nodes that ran; [None] when the steps allowed run out. *)
Fixpoint run_from (steps : nat) (n : node) (state : AgentState) (ran : list node)
  : M W (option (AgentState * list node)) :=
  match steps with
  | 0 => ret None
  | S steps' =>
      let* u := run_node n state in
      let state := merge state u in
      let* key := router state in
      let* next := path_map n key in
      match next with
      | END => ret (Some (state, ran ++ [n]))
      | To n' => run_from steps' n' state (ran ++ [n])
      end
  end.

(** [app.stream(inputs)], from the entry point. *)
Definition app (steps : nat) (inputs : list message) : M W (option (AgentState * list node)) :=
  run_from steps planner
    {| messages := inputs; current_step := None; plan := None; final_answer := None |} [].

End StatefulAgent.
End StatefulAgent.

(* ===================================================================== *)
(** ** Vocabulary of the properties                                       *)
(* ===================================================================== *)

Definition GENERAL : text := str "GENERAL".

Section Handlers.
Context {W : Type}.
Variable provider : request -> W -> outcome text * W.
Variable api_key : option text.
Variable repr : pyval -> text.



End Handlers.

(** The evaluator-optimizer loop, as the specification names its states:
    the loop ends [approved] when [status] is APPROVED, and [exhausted]
    when it leaves at the ceiling with [status] still REJECTED.  The code
    has no value EXHAUSTED; the word names this way of leaving. *)
Definition approved (st : AgenticPatterns.locals) : Prop :=
  AgenticPatterns.status st = AgenticPatterns.APPROVED.

Definition exhausted (st : AgenticPatterns.locals) : Prop :=
  AgenticPatterns.status st = AgenticPatterns.REJECTED /\ AgenticPatterns.attempt st = 3.

(** A line [print_step] wrote for a draft. *)
Definition is_draft_line (line : text) : bool :=
  PyStr.startswith (nl ++ str "[Loop] " ++ esc ++ str "[92mDraft ") line.

(** The number of drafts generated so far. *)
Definition drafts {W} (e : env W) : nat := length (filter (fun l => is_draft_line l = true) (printed e)).

(** The evaluator's response [says] a word when it is a JSON object whose
    status is that word. *)
Definition says (json_loads : text -> option pyval) (eval_response word : text) : Prop :=
  exists items,
    json_loads eval_response = Some (PDict items) /\
    Py.dict_get items (str "status") PNone = PStr word.

(** A response is [unreadable] when [json.loads] rejects it, or accepts
    it as something that is not an object. *)
Definition unreadable (json_loads : text -> option pyval) (eval_response : text) : Prop :=
  match json_loads eval_response with
  | None => True
  | Some (PDict _) => False
  | Some _ => True
  end.

(** A value [carries] a text when the text is the value or is inside it. *)
Fixpoint carries (v : pyval) (t : text) : bool :=
  match v with
  | PStr s => bool_decide (s = t)
  | PList l => existsb (fun x => carries x t) l
  | PDict items => existsb (fun kv => carries (snd kv) t) items
  | _ => false
  end.

(** What the provider does for the evaluator-optimizer loop: [evals]
    counts the evaluations the world has seen. *)
Section EvaluatorBehaviour.
Context {W : Type}.
Variable provider : request -> W -> outcome text * W.
Variable json_loads : text -> option pyval.
Variable evals : W -> nat.

(** Every request that is not in JSON mode is answered, and is no
    evaluation. *)
Definition answers_drafts : Prop :=
  forall rq w, json_object rq = false ->
    exists d w', provider rq w = (Returned d, w') /\ evals w' = evals w.

(** Every request in JSON mode is answered by an object whose status is
    [verdict_at n], where [n] evaluations came before. *)
Definition verdicts (verdict_at : nat -> text) : Prop :=
  forall rq w, json_object rq = true ->
    exists r w', provider rq w = (Returned r, w') /\ evals w' = S (evals w) /\
                 says json_loads r (verdict_at (evals w)).
End EvaluatorBehaviour.

Section Synthesis.
Context {W : Type}.
Variable provider : request -> W -> outcome text * W.
Variable api_key : option text.
Variable repr : pyval -> text.

(** The scatter of [pattern_parallelization] has been announced. *)
Definition announced (e : env W) : env W :=
  {| world := world e; sent := sent e;
     printed := (printed e ++
       [ nl ++ str "--- PATTERN 3: PARALLELIZATION (SCATTER-GATHER) ---" ]) ++
       [ nl ++ str "[Parallel] " ++ esc ++ str "[92mScatter" ++ esc ++ str "[0m: " ++
           str "Generating 3 perspectives on '" ++ AgenticPatterns.topic ++ str "'..." ] |}.

(** The gather step of [pattern_parallelization] on its input. *)
Definition synthesize (combined_input : text) : M W pyval :=
  let* final_summary :=
    AgenticPatterns.call_llm provider api_key
      (str "You are a Synthesizer. Combine these views into a balanced conclusion.")
      (PStr combined_input) false in
  let* _ := AgenticPatterns.print_step repr (str "Parallel") (str "Gather (Synthesis)")
              (PStr final_summary) in
  ret PNone.

(** The last step of [run_consensus] on the combined text. *)
Definition judged (combined_text : text) : M W pyval :=
  let* final_verdict := ParallelConsensus.judge provider combined_text in
  ret PNone.
End Synthesis.

(** The request of a turn of the research agent. *)
Definition turn_request (transcript : list message) : request :=
  {| model := str "gpt-4"; messages := transcript; temperature := None; json_object := false |}.

(** The two messages a turn with an action adds to the transcript. *)
Definition fed_back (agent_text observation : text) : list message :=
  [ Message (str "assistant") (PStr agent_text);
    Message (str "user") (PStr (str "Observation: " ++ observation)) ].

(** A span as [end_span] leaves it. *)
Definition completed (s : ProductionReady.span) (stamp : text) (output_data : pyval)
  : ProductionReady.span :=
  {| ProductionReady.trace_id := ProductionReady.trace_id s;
     ProductionReady.span_name := ProductionReady.span_name s;
     ProductionReady.start_time := ProductionReady.start_time s;
     ProductionReady.input := ProductionReady.input s;
     ProductionReady.status := ProductionReady.COMPLETED;
     ProductionReady.end_time := Some stamp;
     ProductionReady.output := Some output_data |}.

(** What a match is, apart from the way [match_here] finds one; and what
    it means for a text to have none. *)
Module ReSpec.
Import Re.

Definition fits (hi : option nat) (n : nat) : Prop :=
  match hi with
  | Some h => n <= h
  | None => True
  end.

(** [matches ps prev s ns]: the pieces of [ps] match at the front of [s],
    piece number [i] taking [ns !! i] characters. *)
Fixpoint matches (ps : pattern) (prev : option ascii) (s : text) (ns : list nat) : Prop :=
  match ps, ns with
  | [], [] => True
  | Boundary :: ps', 0 :: ns' =>
      at_boundary prev (head s) = true /\ matches ps' prev s ns'
  | Rep a lo hi :: ps', n :: ns' =>
      lo <= n /\ fits hi n /\ n <= length s /\
      Forall (fun c => accepts a c = true) (take n s) /\
      matches ps' (before prev s n) (drop n s) ns'
  | _, _ => False
  end.

(** There is a match at the front of [s]. *)
Definition hit (ps : pattern) (prev : option ascii) (s : text) : Prop :=
  exists ns, matches ps prev s ns.

(** No match starts at any position of [s]; [prev] is the character
    before [s]. *)
Fixpoint clean (ps : pattern) (prev : option ascii) (s : text) : Prop :=
  ~ hit ps prev s /\
  match s with
  | [] => True
  | c :: s' => clean ps (Some c) s'
  end.

(** The characters a match can contain. *)
Definition alphabet (ps : pattern) (c : ascii) : bool :=
  existsb (fun p => match p with Rep a _ _ => accepts a c | Boundary => false end) ps.

(** The least length of a match. *)
Definition min_len (ps : pattern) : nat :=
  foldr (fun p n => match p with Rep _ lo _ => lo + n | Boundary => n end) 0 ps.

Definition has_boundary (ps : pattern) : bool :=
  existsb (fun p => match p with Boundary => true | Rep _ _ _ => false end) ps.

(** Every match begins and ends with a word character and has none on
    either side. *)
Definition bordered (ps : pattern) : Prop :=
  forall prev s ns, matches ps prev s ns ->
    word_side prev = false /\ word_side (head s) = true /\
    word_side (before prev s (total ns)) = true /\ word_side (s !! total ns) = false.

(** A set of characters some piece of the pattern must take at least
    once, and that the replacement text does not contain. *)
Definition required_outside (ps : pattern) (repl : text) : Prop :=
  exists a lo hi, In (Rep a lo hi) ps /\ 1 <= lo /\
                  Forall (fun c => accepts a c = false) repl.

(** The replacement text keeps matches out: it begins and ends with a
    character no match can contain, and lacks a required one. *)
Definition sealed (ps : pattern) (repl : text) : Prop :=
  (exists o, head repl = Some o /\ alphabet ps o = false) /\
  (exists z, last repl = Some z /\ alphabet ps z = false) /\
  required_outside ps repl.

(** How [sub] with pattern [qs] rewrites a text: a character where
    nothing matches is kept, a match is replaced by [repl].  [miss] is
    what is known where a character is kept. *)
Inductive rewritten (qs : pattern) (repl : text) (miss : option ascii -> text -> Prop)
  : option ascii -> text -> text -> Prop :=
| rewritten_end prev : rewritten qs repl miss prev [] []
| rewritten_keep prev c s out :
    miss prev (c :: s) ->
    rewritten qs repl miss (Some c) s out ->
    rewritten qs repl miss prev (c :: s) (c :: out)
| rewritten_repl prev w c rest out ns :
    matches qs prev ((w ++ [c]) ++ rest) ns ->
    total ns = length (w ++ [c]) ->
    rewritten qs repl miss (Some c) rest out ->
    rewritten qs repl miss prev ((w ++ [c]) ++ rest) (repl ++ out).

(** The character before what follows [w], when [prev] is the one before
    [w]. *)
Definition ctx_after (prev : option ascii) (w : text) : option ascii :=
  match last w with
  | Some c => Some c
  | None => prev
  end.

(** The characters before a position of the input ([prev]) and before the
    corresponding position of the output ([prev_out]) are on the same
    side for the pattern, or no match can begin there. *)
Definition start_ok (ps : pattern) (prev prev_out : option ascii) (s : text) : Prop :=
  has_boundary ps = false \/ word_side prev = word_side prev_out \/ word_side (head s) = false.

End ReSpec.

(** Providers for the examples: the world is the number of requests
    served so far. *)
Module Stub.
(** Answers every request with the same text. *)
Definition always (answer : text) : request -> nat -> outcome text * nat :=
  fun _ served => (Returned answer, S served).

Definition start : env nat := {| world := 0; sent := []; printed := [] |}.

Definition no_repr : pyval -> text := fun _ => str "<value>".

(** The quotation mark, for the JSON texts of the examples. *)
Definition dq : text := ["034"%char].

(** The JSON object an evaluator answers with. *)
Definition verdict_json (word : text) : text :=
  str "{" ++ dq ++ str "status" ++ dq ++ str ": " ++ dq ++ word ++ dq ++ str ", "
          ++ dq ++ str "feedback" ++ dq ++ str ": " ++ dq ++ str "names" ++ dq ++ str "}".

Definition verdict_value (word : text) : pyval :=
  PDict [ (str "status", PStr word); (str "feedback", PStr (str "names")) ].

(** A planner that answers with an object whose tasks entry is the
    number 5. *)
Definition plan_of_five : text := str "{" ++ dq ++ str "tasks" ++ dq ++ str ": 5}".

(** [json.loads] on the texts the providers below produce; every other
    text is rejected. *)
Definition loads (s : text) : option pyval :=
  if decide (s = verdict_json (str "PASS")) then Some (verdict_value (str "PASS"))
  else if decide (s = verdict_json (str "FAIL")) then Some (verdict_value (str "FAIL"))
  else if decide (s = plan_of_five) then Some (PDict [ (str "tasks", PInt 5) ])
  else None.

(** An evaluator that says FAIL [fails] times and PASS from then on; a
    request in JSON mode is an evaluation, any other gets a draft. *)
Definition fail_then_pass (fails : nat) : request -> nat -> outcome text * nat :=
  fun rq served =>
    if json_object rq
    then (Returned (verdict_json (if served <? fails then str "FAIL" else str "PASS")),
          S served)
    else (Returned (str "def add(a, b): return a + b"), served).

(** An evaluator that says FAIL every time. *)
Definition always_fail : request -> nat -> outcome text * nat :=
  fun rq served =>
    if json_object rq
    then (Returned (verdict_json (str "FAIL")), S served)
    else (Returned (str "def add(a, b): return a + b"), served).

Definition key : option text := Some (str "sk-test").

(** Answers each request with the number of requests served before it. *)
Definition numbered : request -> nat -> outcome text * nat :=
  fun _ served => (Returned (str "answer " ++ str (pretty served)), S served).

(** A clock that shows the number of times it was read. *)
Definition clock : nat -> text * nat :=
  fun reads => (str "2026-01-01T00:00:0" ++ str (pretty reads), S reads).

Definition process_start : env (ProductionReady.process nat) :=
  {| world := ProductionReady.Process 0 ∅ []; sent := []; printed := [] |}.

Definition fresh_tracer : ProductionReady.Tracer.t :=
  ProductionReady.Tracer.Make (str "trace_1") [].

(** A tracer holding one running span. *)
Definition one_span : ProductionReady.Tracer.t :=
  ProductionReady.Tracer.Make (str "trace_1")
    [ {| ProductionReady.trace_id := str "trace_1";
         ProductionReady.span_name := str "work";
         ProductionReady.start_time := str "2026-01-01T00:00:00";
         ProductionReady.input := PNone;
         ProductionReady.status := ProductionReady.RUNNING;
         ProductionReady.end_time := None;
         ProductionReady.output := None |} ].

(** A tool that is out of service. *)
Definition broken_tool : text -> outcome text :=
  fun _ => Raised (ToolError (str "service unavailable")).
End Stub.

(* ===================================================================== *)
(** ** Vocabulary of the further properties                               *)
(* ===================================================================== *)

(** A span as [start_span] makes it. *)
Definition running (tid name stamp : text) (input_data : pyval) : ProductionReady.span :=
  {| ProductionReady.trace_id := tid;
     ProductionReady.span_name := name;
     ProductionReady.start_time := stamp;
     ProductionReady.input := input_data;
     ProductionReady.status := ProductionReady.RUNNING;
     ProductionReady.end_time := None;
     ProductionReady.output := None |}.

(** The request of [secure_agent_executor] to the model. *)
Definition agent_request (user_query : text) : request :=
  {| model := str "gpt-4o";
     messages := [ Message (str "user")
                     (PStr (user_query ++ str ". Include a contact email in your response.")) ];
     temperature := None; json_object := false |}.

(** The response [secure_agent_executor] makes up without an API key. *)
Definition canned_response : text :=
  str "Sure, I can help. Contact support at admin@company.com for details.".

(** What [end_span] is given as output. *)
Definition span_output (source response : text) : pyval :=
  PDict [ (str "source", PStr source); (str "response", PStr response) ].

(** The cache has nothing to serve for the query: no entry, or an empty
    one. *)
Definition cache_miss (entry : option text) : Prop :=
  match entry with
  | Some (_ :: _) => False
  | _ => True
  end.

(** The request [call_llm] sends when there is an API key. *)
Definition llm_request (system : text) (user : pyval) (json_mode : bool) : request :=
  {| model := str "gpt-4o";
     messages := [ Message (str "system") (PStr system); Message (str "user") user ];
     temperature := Some (7 # 10)%Q;
     json_object := json_mode |}.

(** What [call_llm] returns when there is none. *)
Definition SIMULATED : text := str "Simulated Output (No API Key)".

(** The line [print_step] writes for a text. *)
Definition step_line (pattern step content : text) : text :=
  nl ++ str "[" ++ pattern ++ str "] " ++ esc ++ str "[92m" ++ step
     ++ esc ++ str "[0m: " ++ content.

(** The three requests of the prompt chain. *)
Definition chef_request : request :=
  llm_request (str "You are a Chef. Suggest ONE meal name based on constraints.")
    (PStr (str "I want to cook a romantic dinner for 2, vegetarian, under 30 mins.")) false.

Definition sous_chef_request (idea : text) : request :=
  llm_request (str "You are a Sous Chef. List ingredients for the provided meal name as a CSV list.")
    (PStr idea) false.

Definition clerk_request (ingredients : text) : request :=
  llm_request (str "You are a Clerk. Convert CSV ingredients to a JSON object with 'aisle' and 'item'.")
    (PStr ingredients) true.

(** The request of a worker of the orchestrator for a task. *)
Definition worker_request (task : pyval) : request :=
  llm_request (str "You are a Blog Writer. Write 1 short paragraph.") task false.


(** The opening of the history of the native-tools agent. *)
Definition native_opening (query : text) : list NativeTools.entry :=
  [ NativeTools.Plain (str "system")
      (str "You are a helpful financial assistant. Use tools to answer questions.");
    NativeTools.Plain (str "user") query ].

(** The result entry for a tool call. *)
Definition tool_result (call : NativeTools.tool_call) (response : text) : NativeTools.entry :=
  NativeTools.ToolResult (NativeTools.id call) (NativeTools.name call) response.

(** A history in which every reply with tool calls is followed by one
    result for each of its calls, in the order of the calls and under
    their ids; [rounds] counts the replies. *)
Inductive answered : nat -> list NativeTools.entry -> Prop :=
| answered_nil : answered 0 []
| answered_round rounds msg responses rest :
    NativeTools.tool_calls msg <> [] ->
    length responses = length (NativeTools.tool_calls msg) ->
    answered rounds rest ->
    answered (S rounds)
      (NativeTools.Assistant msg ::
       zip_with tool_result (NativeTools.tool_calls msg) responses ++ rest).

(** The request of the planner node for a task. *)
Definition planner_request (task : text) : request :=
  Request (str "gpt-4")
    [ Message (str "user")
        (PStr (str "You are a planner. Generate a list of 3 steps to solve: " ++ task)) ]
    (Some (0 # 1)%Q) false.

(** The request each agent of the consensus sends, and the request to
    the judge. *)
Definition consensus_request (topic : text) : request :=
  {| model := str "gpt-4";
     messages := [ Message (str "user")
                     (PStr (str "Provide a brief, 1-sentence interesting fact about: " ++ topic)) ];
     temperature := Some (7 # 10)%Q;
     json_object := false |}.

Definition judge_request (combined_text : text) : request :=
  {| model := str "gpt-4";
     messages := [ Message (str "system")
                     (PStr (str "You are a Judge. Synthesize the following 3 facts into one definitive truth."));
                   Message (str "user") (PStr combined_text) ];
     temperature := None;
     json_object := false |}.

(** The name of the agent launched at a position. *)
Definition agent_label (i : nat) : text :=
  match i with
  | 0 => str "Agent A"
  | 1 => str "Agent B"
  | _ => str "Agent C"
  end.

(** More providers and states for the examples. *)
Module Samples.

(** A gateway that is down. *)
Definition down : request -> nat -> outcome text * nat :=
  fun _ served => (Raised (GatewayError (str "connection timed out")), S served).

(** A process whose cache has an answer for one query. *)
Definition warm_query : text := str "How do I reset my password?".
Definition warm_answer : text := str "Write to help@company.com.".
Definition warm : env (ProductionReady.process nat) :=
  {| world := ProductionReady.Process 0 (<[ warm_query := warm_answer ]> ∅) [];
     sent := []; printed := [] |}.

End Samples.

(* ===================================================================== *)
(** * Properties                                                          *)
(* ===================================================================== *)

(* --------------------------------------------------------------------- *)
(** *** Facts about the text operations                                   *)
(* --------------------------------------------------------------------- *)

Section TextFacts.
Import PyStr.


















End TextFacts.

(* --------------------------------------------------------------------- *)
(** *** Routing                                                           *)
(* --------------------------------------------------------------------- *)

Section Routing.
Import PyStr.
Context {W : Type}.
Variable provider : request -> W -> outcome text * W.
Variable api_key : option text.
Variable repr : pyval -> text.





End Routing.



(* --------------------------------------------------------------------- *)
(** *** The evaluator-optimizer loop                                      *)
(* --------------------------------------------------------------------- *)

Section EvaluatorOptimizer.
Import AgenticPatterns.
Context {W : Type}.
Variable provider : request -> W -> outcome text * W.
Variable api_key : option text.
Variable json_loads : text -> option pyval.
Variable repr : pyval -> text.

Local Abbreviation call_llm := (call_llm provider api_key).
Local Abbreviation generate := (generate provider api_key repr).
Local Abbreviation evaluate := (evaluate provider api_key).
Local Abbreviation read_verdict := (@read_verdict W json_loads).
Local Abbreviation iteration := (iteration provider api_key json_loads repr).
Local Abbreviation while_loop := (while_loop provider api_key json_loads repr).
Local Abbreviation run_loop := (run_loop provider api_key json_loads repr).

Lemma call_llm_printed system user json_mode (e : env W) :
  printed (snd (call_llm system user json_mode e)) = printed e.
Proof.
  unfold AgenticPatterns.call_llm. destruct (negb (has_key api_key)); [reflexivity|].
  unfold create. destruct (provider _ _). reflexivity.
Qed.

Lemma drafts_print_other (e : env W) line :
  is_draft_line line = false ->
  drafts {| world := world e; sent := sent e; printed := printed e ++ [line] |} = drafts e.
Proof.
  intros H. unfold drafts. simpl. rewrite filter_app, length_app. simpl.
  rewrite filter_cons_False by (rewrite H; discriminate). simpl. lia.
Qed.

Lemma drafts_print_draft (e : env W) line :
  is_draft_line line = true ->
  drafts {| world := world e; sent := sent e; printed := printed e ++ [line] |} = drafts e + 1.
Proof.
  intros H. unfold drafts. simpl. rewrite filter_app, length_app. simpl.
  rewrite filter_cons_True by exact H. reflexivity.
Qed.

Lemma drafts_same_printed (e e' : env W) : printed e' = printed e -> drafts e' = drafts e.
Proof. unfold drafts. by intros ->. Qed.

(** The generator prints one draft line, when it returns. *)
Lemma generate_drafts st (e : env W) :
  match generate st e with
  | (Returned _, e') => drafts e' = drafts e + 1
  | (Raised _, e') => drafts e' = drafts e
  end.
Proof.
  unfold AgenticPatterns.generate, bind.
  pose proof (call_llm_printed (str "You are a Junior Coder. Write the code requested.")
                (PStr (context st)) false e) as Hp.
  destruct (call_llm _ _ _ e) as [[d|x] e1]; simpl in Hp.
  - unfold print_step, print, ret. simpl.
    rewrite drafts_print_draft by reflexivity.
    f_equal. by apply drafts_same_printed.
  - by apply drafts_same_printed.
Qed.

Lemma evaluate_drafts d (e : env W) : drafts (snd (evaluate d e)) = drafts e.
Proof. apply drafts_same_printed. apply call_llm_printed. Qed.

(** Reading the verdict never raises and leaves the world alone. *)
Lemma read_verdict_unreadable r (e : env W) :
  unreadable json_loads r ->
  read_verdict r e = (Returned (APPROVED, PStr (str "JSON Error")), e).
Proof.
  unfold unreadable, AgenticPatterns.read_verdict, try_except, bind, loads.
  destruct (json_loads r) as [[]|]; simpl; intros H; try reflexivity. destruct H.
Qed.

Lemma read_verdict_says r word (e : env W) :
  says json_loads r word ->
  exists fb, read_verdict r e
             = (Returned (if bool_decide (word = str "PASS") then APPROVED else REJECTED, fb), e).
Proof.
  intros (items & Hl & Hs).
  unfold AgenticPatterns.read_verdict, try_except, bind, loads.
  rewrite Hl. cbn -[Py.dict_get Py.eq_str]. rewrite Hs.
  unfold Py.eq_str. eexists. reflexivity.
Qed.

Lemma read_verdict_total r (e : env W) :
  exists s fb, read_verdict r e = (Returned (s, fb), e) /\ (s = APPROVED \/ s = REJECTED).
Proof.
  unfold AgenticPatterns.read_verdict, try_except, bind, loads.
  destruct (json_loads r) as [[]|]; simpl; try (do 2 eexists; split; [reflexivity|by left]).
  destruct (Py.eq_str _ _); do 2 eexists; (split; [reflexivity|]); [by left|by right].
Qed.

Lemma continues_true st :
  continues st = true <-> status st = REJECTED /\ attempt st < 3.
Proof.
  unfold continues. rewrite andb_true_iff, bool_decide_eq_true, Nat.ltb_lt. reflexivity.
Qed.

Lemma continues_false st :
  continues st = false <-> status st <> REJECTED \/ 3 <= attempt st.
Proof.
  unfold continues. rewrite andb_false_iff, bool_decide_eq_false, Nat.ltb_ge. reflexivity.
Qed.

Lemma while_loop_stop fuel st (e : env W) :
  continues st = false -> while_loop fuel st e = (Returned (Some st), e).
Proof. intros H. destruct fuel; simpl; rewrite H; reflexivity. Qed.

Lemma while_loop_step fuel st (e : env W) st' e' :
  continues st = true -> iteration st e = (Returned st', e') ->
  while_loop (S fuel) st e = while_loop fuel st' e'.
Proof. intros H Hi. simpl. rewrite H. unfold bind. rewrite Hi. reflexivity. Qed.

Lemma while_loop_raise fuel st (e : env W) x e' :
  continues st = true -> iteration st e = (Raised x, e') ->
  while_loop (S fuel) st e = (Raised x, e').
Proof. intros H Hi. simpl. rewrite H. unfold bind. rewrite Hi. reflexivity. Qed.

(** One pass: what it returns, given what the generator and the evaluator
    answered. *)
Lemma iteration_run st (e : env W) d e1 r e2 :
  generate st e = (Returned d, e1) ->
  evaluate d e1 = (Returned r, e2) ->
  exists s fb e3,
    read_verdict r e2 = (Returned (s, fb), e2) /\
    iteration st e
    = (Returned {| context := if bool_decide (s = REJECTED)
                              then str "Original Request: " ++ request_text ++ nl ++
                                   str "Previous Draft: " ++ d ++ nl ++
                                   str "Critique: " ++ format repr fb ++ nl ++ str "Fix it."
                              else context st;
                   status := s; attempt := attempt st + 1;
                   draft := Some d; feedback := Some fb |}, e3) /\
    world e3 = world e2 /\ sent e3 = sent e2 /\ drafts e3 = drafts e + 1.
Proof.
  intros Hg He.
  destruct (read_verdict_total r e2) as (s & fb & Hr & _).
  exists s, fb. eexists. split; [exact Hr|].
  unfold AgenticPatterns.iteration, bind. rewrite Hg, He, Hr.
  unfold print_step, print, ret. cbn [fst snd].
  split; [reflexivity|]. cbn [world sent]. split; [reflexivity|]. split; [reflexivity|].
  rewrite drafts_print_other by reflexivity.
  pose proof (evaluate_drafts d e1) as H1. rewrite He in H1. simpl in H1. rewrite H1.
  pose proof (generate_drafts st e) as H2. rewrite Hg in H2. exact H2.
Qed.

Lemma iteration_outcome st (e : env W) :
  match iteration st e with
  | (Returned st', e') =>
      attempt st' = attempt st + 1 /\ (status st' = APPROVED \/ status st' = REJECTED) /\
      drafts e' = drafts e + 1 /\ is_Some (draft st')
  | (Raised _, e') => drafts e' <= drafts e + 1
  end.
Proof.
  pose proof (generate_drafts st e) as Hg.
  destruct (generate st e) as [[d|x] e1] eqn:Eg.
  - pose proof (evaluate_drafts d e1) as He.
    destruct (evaluate d e1) as [[r|x] e2] eqn:Ee.
    + destruct (iteration_run st e d e1 r e2 Eg Ee) as (s & fb & e3 & Hr & -> & _ & _ & Hd).
      destruct (read_verdict_total r e2) as (s' & fb' & Hr' & Hs).
      rewrite Hr in Hr'. injection Hr' as <- <-.
      simpl. repeat split; eauto.
    + unfold AgenticPatterns.iteration, bind. rewrite Eg, Ee. simpl in He. lia.
  - unfold AgenticPatterns.iteration, bind. rewrite Eg. lia.
Qed.

(** The loop ends within the ceiling: fuel for the distance to 3 is
    enough, and more changes nothing. *)
Lemma while_loop_bounded fuel : forall st (e : env W),
  3 <= attempt st + fuel ->
  match while_loop fuel st e with
  | (Returned (Some st'), e') =>
      continues st' = false /\ attempt st <= attempt st' /\
      attempt st' <= Nat.max 3 (attempt st) /\
      drafts e' + attempt st = drafts e + attempt st' /\
      (st' = st \/ ((status st' = APPROVED \/ status st' = REJECTED) /\ is_Some (draft st')))
  | (Returned None, _) => False
  | (Raised _, e') => drafts e' + attempt st <= drafts e + 3
  end.
Proof.
  induction fuel as [|fuel IH]; intros st e Hfuel.
  - destruct (continues st) eqn:Hc.
    + apply continues_true in Hc. lia.
    + rewrite while_loop_stop by exact Hc. repeat split; auto; lia.
  - destruct (continues st) eqn:Hc.
    + pose proof (iteration_outcome st e) as Hi.
      destruct (iteration st e) as [[st1|x] e1] eqn:Ei.
      * rewrite (while_loop_step _ _ _ _ _ Hc Ei).
        destruct Hi as (Ha & Hs & Hd & Hdr).
        specialize (IH st1 e1 ltac:(lia)).
        apply continues_true in Hc.
        destruct (while_loop fuel st1 e1) as [[[st'|]|x] e'].
        -- destruct IH as (H1 & H2 & H3 & H4 & H5).
           repeat split; try lia; auto.
           right. destruct H5 as [->|H5]; auto.
        -- exact IH.
        -- lia.
      * rewrite (while_loop_raise _ _ _ _ _ Hc Ei).
        apply continues_true in Hc. lia.
    + rewrite while_loop_stop by exact Hc. repeat split; auto; lia.
Qed.

Lemma run_loop_unfold fuel (e : env W) :
  run_loop fuel e
  = while_loop fuel initial
      {| world := world e; sent := sent e;
         printed := printed e ++ [nl ++ str "--- PATTERN 5: EVALUATOR-OPTIMIZER ---"] |}.
Proof. reflexivity. Qed.

Lemma run_loop_bounded extra (e : env W) :
  match run_loop (3 + extra) e with
  | (Returned (Some st), e') =>
      attempt st <= 3 /\ drafts e' = drafts e + attempt st /\
      (approved st \/ exhausted st) /\ is_Some (draft st)
  | (Returned None, _) => False
  | (Raised _, e') => drafts e' <= drafts e + 3
  end.
Proof.
  rewrite run_loop_unfold.
  set (e0 := {| world := world e; sent := sent e; printed := _ |}).
  assert (drafts e0 = drafts e) as Hd0 by (by apply drafts_print_other).
  pose proof (while_loop_bounded (3 + extra) initial e0 ltac:(simpl; lia)) as H.
  destruct (while_loop (3 + extra) initial e0) as [[[st|]|x] e'].
  - destruct H as (Hc & _ & Hle & Hd & Hst). simpl in Hle, Hd.
    destruct Hst as [->|[Hs Hdraft]]; [discriminate Hc|].
    split; [lia|]. split; [lia|]. split; [|exact Hdraft].
    destruct Hs as [Hs|Hs]; [by left|right].
    apply continues_false in Hc as [Hc|Hc]; [contradiction|].
    split; [exact Hs|lia].
  - exact H.
  - simpl in H. lia.
Qed.

Section Scripted.
Variable evals : W -> nat.
Hypothesis Hkey : has_key api_key = true.
Hypothesis Hdrafts : answers_drafts provider evals.

Lemma generate_answers st (e : env W) :
  exists d e1, generate st e = (Returned d, e1) /\ evals (world e1) = evals (world e).
Proof.
  unfold AgenticPatterns.generate, bind, AgenticPatterns.call_llm. rewrite Hkey. simpl.
  unfold create.
  match goal with |- context [provider ?rq ?w] =>
    destruct (Hdrafts rq w eq_refl) as (d & w' & -> & Hw) end.
  exists d. eexists. split; [reflexivity|]. exact Hw.
Qed.

Lemma evaluate_answers verdict_at d (e : env W) :
  verdicts provider json_loads evals verdict_at ->
  exists r e2, evaluate d e = (Returned r, e2) /\
               evals (world e2) = S (evals (world e)) /\
               says json_loads r (verdict_at (evals (world e))).
Proof.
  intros Hv. unfold AgenticPatterns.evaluate, AgenticPatterns.call_llm. rewrite Hkey. simpl.
  unfold create.
  match goal with |- context [provider ?rq ?w] =>
    destruct (Hv rq w eq_refl) as (r & w' & -> & Hw & Hs) end.
  exists r. eexists. split; [reflexivity|]. split; [exact Hw|exact Hs].
Qed.

(** One pass under a scripted evaluator. *)
Lemma iteration_scripted verdict_at st (e : env W) :
  verdicts provider json_loads evals verdict_at ->
  exists st' e',
    iteration st e = (Returned st', e') /\
    status st' = (if bool_decide (verdict_at (evals (world e)) = str "PASS")
                  then APPROVED else REJECTED) /\
    attempt st' = attempt st + 1 /\
    evals (world e') = S (evals (world e)) /\
    drafts e' = drafts e + 1.
Proof.
  intros Hv.
  destruct (generate_answers st e) as (d & e1 & Hg & Hw1).
  destruct (evaluate_answers verdict_at d e1 Hv) as (r & e2 & He & Hw2 & Hs).
  destruct (iteration_run st e d e1 r e2 Hg He) as (s & fb & e3 & Hr & Hi & Hw3 & _ & Hd).
  destruct (read_verdict_says r _ e2 Hs) as (fb' & Hr').
  rewrite Hr in Hr'. injection Hr' as -> ->.
  eexists _, e3. split; [exact Hi|]. simpl.
  rewrite Hw1. split; [reflexivity|]. split; [reflexivity|].
  split; [|exact Hd]. rewrite Hw3, Hw2, Hw1. reflexivity.
Qed.

(** The side conditions of a step of the loop. *)
Ltac loop_on :=
  first [ eassumption | apply continues_true; split; [ assumption | lia ] ].

Lemma fail_twice_then_pass fuel st (e : env W) :
  verdicts provider json_loads evals (fun n => if n <? 2 then str "FAIL" else str "PASS") ->
  status st = REJECTED -> attempt st = 0 -> evals (world e) = 0 ->
  exists st' e',
    while_loop (3 + fuel) st e = (Returned (Some st'), e') /\
    approved st' /\ attempt st' = 3 /\ drafts e' = drafts e + 3.
Proof.
  intros Hv Hs Ha Hw.
  destruct (iteration_scripted _ st e Hv) as (st1 & e1 & Hi1 & Hs1 & Ha1 & Hw1 & Hd1).
  destruct (iteration_scripted _ st1 e1 Hv) as (st2 & e2 & Hi2 & Hs2 & Ha2 & Hw2 & Hd2).
  destruct (iteration_scripted _ st2 e2 Hv) as (st3 & e3 & Hi3 & Hs3 & Ha3 & Hw3 & Hd3).
  rewrite Hw in *. rewrite Hw1 in *. rewrite Hw2 in *.
  change (status st1 = REJECTED) in Hs1.
  change (status st2 = REJECTED) in Hs2.
  change (status st3 = APPROVED) in Hs3.
  exists st3, e3. split.
  - change (3 + fuel) with (S (S (S fuel))).
    rewrite (while_loop_step _ st e st1 e1) by loop_on.
    rewrite (while_loop_step _ st1 e1 st2 e2) by loop_on.
    rewrite (while_loop_step _ st2 e2 st3 e3) by loop_on.
    apply while_loop_stop. apply continues_false. left. rewrite Hs3. discriminate.
  - split; [exact Hs3|]. split; lia.
Qed.

Lemma fail_always fuel st (e : env W) :
  verdicts provider json_loads evals (fun _ => str "FAIL") ->
  status st = REJECTED -> attempt st = 0 ->
  exists st' e',
    while_loop (3 + fuel) st e = (Returned (Some st'), e') /\
    exhausted st' /\ drafts e' = drafts e + 3.
Proof.
  intros Hv Hs Ha.
  destruct (iteration_scripted _ st e Hv) as (st1 & e1 & Hi1 & Hs1 & Ha1 & Hw1 & Hd1).
  destruct (iteration_scripted _ st1 e1 Hv) as (st2 & e2 & Hi2 & Hs2 & Ha2 & Hw2 & Hd2).
  destruct (iteration_scripted _ st2 e2 Hv) as (st3 & e3 & Hi3 & Hs3 & Ha3 & Hw3 & Hd3).
  change (status st1 = REJECTED) in Hs1.
  change (status st2 = REJECTED) in Hs2.
  change (status st3 = REJECTED) in Hs3.
  exists st3, e3. split.
  - change (3 + fuel) with (S (S (S fuel))).
    rewrite (while_loop_step _ st e st1 e1) by loop_on.
    rewrite (while_loop_step _ st1 e1 st2 e2) by loop_on.
    rewrite (while_loop_step _ st2 e2 st3 e3) by loop_on.
    apply while_loop_stop. apply continues_false. right. lia.
  - split; [split; [exact Hs3|lia]|lia].
Qed.

End Scripted.

End EvaluatorOptimizer.

(** C1. With an evaluator that says FAIL on the first two evaluations and
    PASS on the third, the loop generates exactly 3 drafts and ends
    approved; with an evaluator that says FAIL every time it ends
    exhausted after exactly 3 drafts.  Fuel beyond 3 adds no iteration. *)
Theorem evaluator_optimizer_iterations {W} (provider : request -> W -> outcome text * W)
    (api_key : option text) (json_loads : text -> option pyval) (repr : pyval -> text)
    (evals : W -> nat) (extra : nat) (e : env W) :
  AgenticPatterns.has_key api_key = true ->
  answers_drafts provider evals ->
  evals (world e) = 0 ->
  (verdicts provider json_loads evals (fun n => if n <? 2 then str "FAIL" else str "PASS") ->
   exists st e',
     AgenticPatterns.run_loop provider api_key json_loads repr (3 + extra) e
       = (Returned (Some st), e') /\
     approved st /\ AgenticPatterns.attempt st = 3 /\ drafts e' = drafts e + 3)
  /\
  (verdicts provider json_loads evals (fun _ => str "FAIL") ->
   exists st e',
     AgenticPatterns.run_loop provider api_key json_loads repr (3 + extra) e
       = (Returned (Some st), e') /\
     exhausted st /\ drafts e' = drafts e + 3).
Proof.
  intros Hkey Hdrafts Hw. split; intros Hv; rewrite run_loop_unfold.
  - destruct (fail_twice_then_pass provider api_key json_loads repr evals Hkey Hdrafts
                extra AgenticPatterns.initial
                {| world := world e; sent := sent e;
                   printed := printed e ++ [nl ++ str "--- PATTERN 5: EVALUATOR-OPTIMIZER ---"] |}
                Hv eq_refl eq_refl Hw) as (st & e' & Hl & Hs & Ha & Hd).
    exists st, e'. rewrite drafts_print_other in Hd by reflexivity. auto.
  - destruct (fail_always provider api_key json_loads repr evals Hkey Hdrafts
                extra AgenticPatterns.initial
                {| world := world e; sent := sent e;
                   printed := printed e ++ [nl ++ str "--- PATTERN 5: EVALUATOR-OPTIMIZER ---"] |}
                Hv eq_refl eq_refl) as (st & e' & Hl & Hs & Hd).
    exists st, e'. rewrite drafts_print_other in Hd by reflexivity. auto.
Qed.

Lemma stub_answers_drafts fails : answers_drafts (Stub.fail_then_pass fails) (fun n => n).
Proof. intros rq w H. unfold Stub.fail_then_pass. rewrite H. eauto. Qed.

Lemma stub_always_fail_answers_drafts : answers_drafts Stub.always_fail (fun n => n).
Proof. intros rq w H. unfold Stub.always_fail. rewrite H. eauto. Qed.

Lemma stub_says word :
  word = str "PASS" \/ word = str "FAIL" ->
  says Stub.loads (Stub.verdict_json word) word.
Proof.
  intros H. exists [ (str "status", PStr word); (str "feedback", PStr (str "names")) ].
  split; [destruct H as [-> | ->]; vm_compute; reflexivity | reflexivity].
Qed.

Lemma stub_fail_then_pass_verdicts :
  verdicts (Stub.fail_then_pass 2) Stub.loads (fun n => n)
           (fun n => if n <? 2 then str "FAIL" else str "PASS").
Proof.
  intros rq w H. unfold Stub.fail_then_pass. rewrite H.
  eexists _, _. split; [reflexivity|]. split; [reflexivity|].
  apply stub_says. destruct (w <? 2); auto.
Qed.

Lemma stub_always_fail_verdicts :
  verdicts Stub.always_fail Stub.loads (fun n => n) (fun _ => str "FAIL").
Proof.
  intros rq w H. unfold Stub.always_fail. rewrite H.
  eexists _, _. split; [reflexivity|]. split; [reflexivity|].
  apply stub_says. auto.
Qed.

(** The two evaluators of the claim, on the stub providers. *)
Lemma evaluator_optimizer_iterations_witness :
  (exists st e',
     AgenticPatterns.run_loop (Stub.fail_then_pass 2) Stub.key Stub.loads Stub.no_repr 3 Stub.start
       = (Returned (Some st), e') /\
     approved st /\ AgenticPatterns.attempt st = 3 /\ drafts e' = drafts Stub.start + 3)
  /\
  (exists st e',
     AgenticPatterns.run_loop Stub.always_fail Stub.key Stub.loads Stub.no_repr 3 Stub.start
       = (Returned (Some st), e') /\
     exhausted st /\ drafts e' = drafts Stub.start + 3).
Proof.
  split.
  - apply (proj1 (evaluator_optimizer_iterations (Stub.fail_then_pass 2) Stub.key Stub.loads
                    Stub.no_repr (fun n => n) 0 Stub.start eq_refl
                    (stub_answers_drafts 2) eq_refl)).
    exact stub_fail_then_pass_verdicts.
  - apply (proj2 (evaluator_optimizer_iterations Stub.always_fail Stub.key Stub.loads
                    Stub.no_repr (fun n => n) 0 Stub.start eq_refl
                    stub_always_fail_answers_drafts eq_refl)).
    exact stub_always_fail_verdicts.
Defined.

(** C2, as the code has it.  Whatever the provider and the evaluator
    answer, the loop ends after at most 3 iterations (fuel beyond 3 is
    never used, and 3 is always enough); it ends approved, or exhausted
    with [status] still REJECTED, and the last draft is in the local
    variable [draft].  When the gateway fails the failure propagates, after
    at most 3 drafts.  The function itself returns [None] in every case:
    it returns no draft and no flag. *)
Theorem evaluator_loop_ceiling {W} (provider : request -> W -> outcome text * W)
    (api_key : option text) (json_loads : text -> option pyval) (repr : pyval -> text)
    (extra : nat) (e : env W) :
  match AgenticPatterns.run_loop provider api_key json_loads repr (3 + extra) e with
  | (Returned (Some st), e') =>
      AgenticPatterns.attempt st <= 3 /\
      drafts e' = drafts e + AgenticPatterns.attempt st /\
      (approved st \/ exhausted st) /\
      is_Some (AgenticPatterns.draft st) /\
      AgenticPatterns.pattern_evaluator_optimizer provider api_key json_loads repr (3 + extra) e
        = (Returned (Some PNone), e')
  | (Returned None, _) => False
  | (Raised x, e') =>
      drafts e' <= drafts e + 3 /\
      AgenticPatterns.pattern_evaluator_optimizer provider api_key json_loads repr (3 + extra) e
        = (Raised x, e')
  end.
Proof.
  pose proof (run_loop_bounded provider api_key json_loads repr extra e) as H.
  unfold AgenticPatterns.pattern_evaluator_optimizer, bind.
  destruct (AgenticPatterns.run_loop provider api_key json_loads repr (3 + extra) e)
    as [[[st|]|x] e'].
  - destruct H as (H1 & H2 & H3 & H4). auto.
  - exact H.
  - auto.
Qed.

(** C2 as stated fails: with an evaluator that always says FAIL the loop
    ends exhausted with a last draft, and the function returns [None],
    which carries neither the draft nor a flag. *)
Lemma exhausted_returns_none :
  let run := AgenticPatterns.run_loop Stub.always_fail Stub.key Stub.loads Stub.no_repr 3 Stub.start in
  let ret := AgenticPatterns.pattern_evaluator_optimizer
               Stub.always_fail Stub.key Stub.loads Stub.no_repr 3 Stub.start in
  exists st last_draft,
    fst run = Returned (Some st) /\ exhausted st /\
    AgenticPatterns.draft st = Some last_draft /\
    fst ret = Returned (Some PNone) /\
    ~ (exists v, fst ret = Returned (Some v) /\ carries v last_draft = true).
Proof.
  eexists _, _. split; [vm_compute; reflexivity|].
  split; [split; reflexivity|]. split; [reflexivity|]. split; [vm_compute; reflexivity|].
  intros (v & Hv & Hc). vm_compute in Hv. injection Hv as <-. discriminate Hc.
Qed.

(** C6. When the evaluator's response cannot be read as a JSON object,
    the pass ends with [status] APPROVED and the loop stops there: no
    further draft, no exception. *)
Theorem unreadable_verdict_approves {W} (provider : request -> W -> outcome text * W)
    (api_key : option text) (json_loads : text -> option pyval) (repr : pyval -> text)
    (fuel : nat) (st : AgenticPatterns.locals) (e e1 e2 : env W) (d r : text) :
  AgenticPatterns.continues st = true ->
  AgenticPatterns.generate provider api_key repr st e = (Returned d, e1) ->
  AgenticPatterns.evaluate provider api_key d e1 = (Returned r, e2) ->
  unreadable json_loads r ->
  exists st' e',
    AgenticPatterns.while_loop provider api_key json_loads repr (S fuel) st e
      = (Returned (Some st'), e') /\
    approved st' /\
    AgenticPatterns.attempt st' = AgenticPatterns.attempt st + 1 /\
    AgenticPatterns.draft st' = Some d /\
    AgenticPatterns.feedback st' = Some (PStr (str "JSON Error")) /\
    AgenticPatterns.context st' = AgenticPatterns.context st /\
    drafts e' = drafts e + 1.
Proof.
  intros Hc Hg He Hu.
  destruct (iteration_run provider api_key json_loads repr st e d e1 r e2 Hg He)
    as (s & fb & e3 & Hr & Hi & _ & _ & Hd).
  rewrite (read_verdict_unreadable json_loads r e2 Hu) in Hr. injection Hr as <- <-.
  eexists _, e3. split.
  - rewrite (while_loop_step provider api_key json_loads repr fuel st e _ e3 Hc Hi).
    apply while_loop_stop. reflexivity.
  - repeat split; auto.
Qed.

(** An evaluator that answers [not json]. *)
Lemma unreadable_verdict_approves_witness :
  exists st' e',
    AgenticPatterns.while_loop (Stub.always (str "not json")) Stub.key Stub.loads Stub.no_repr
      3 AgenticPatterns.initial Stub.start = (Returned (Some st'), e') /\
    approved st' /\
    AgenticPatterns.attempt st' = 1 /\
    AgenticPatterns.draft st' = Some (str "not json") /\
    AgenticPatterns.feedback st' = Some (PStr (str "JSON Error")) /\
    AgenticPatterns.context st' = AgenticPatterns.request_text /\
    drafts e' = 1.
Proof.
  exact (unreadable_verdict_approves (Stub.always (str "not json")) Stub.key Stub.loads
           Stub.no_repr 2 AgenticPatterns.initial Stub.start _ _ (str "not json") (str "not json")
           eq_refl eq_refl eq_refl I).
Defined.

(* --------------------------------------------------------------------- *)
(** *** The orchestrator's plan                                           *)
(* --------------------------------------------------------------------- *)

Section Orchestrator.
Import AgenticPatterns.
Context {W : Type}.
Variable provider : request -> W -> outcome text * W.
Variable api_key : option text.
Variable json_loads : text -> option pyval.
Variable repr : pyval -> text.

(** A response [json.loads] rejects gives the fallback tasks. *)
Lemma plan_tasks_undecodable plan_response (e : env W) :
  json_loads plan_response = None ->
  plan_tasks json_loads plan_response e = (Returned fallback_tasks, e).
Proof.
  intros H. unfold plan_tasks, try_except, bind, loads. rewrite H. reflexivity.
Qed.

(** So does a response that is not an object, and an empty object. *)
Lemma plan_tasks_not_object plan_response v (e : env W) :
  json_loads plan_response = Some v ->
  match v with PDict (_ :: _) => False | _ => True end ->
  plan_tasks json_loads plan_response e = (Returned fallback_tasks, e).
Proof.
  intros H Hv. unfold plan_tasks, try_except, bind, loads. rewrite H.
  destruct v as [| | | | | |[|kv items]]; try reflexivity. destruct Hv.
Qed.

(** An object whose tasks entry is true in a test is taken as it is,
    whatever it is. *)
Lemma plan_tasks_taken plan_response items (e : env W) :
  json_loads plan_response = Some (PDict items) ->
  Py.truthy (Py.dict_get items (str "tasks") (PList [])) = true ->
  plan_tasks json_loads plan_response e
  = (Returned (Py.dict_get items (str "tasks") (PList [])), e).
Proof.
  intros H Ht. unfold plan_tasks, try_except, bind, loads, get. rewrite H.
  cbn -[Py.dict_get Py.truthy]. rewrite Ht. reflexivity.
Qed.

(** Tasks that cannot be iterated abort the pattern after the plan is
    printed. *)
Lemma orchestrator_aborts plan_response items tasks (e e1 : env W) :
  call_llm provider api_key
    (str "You are an Editor. Break the blog topic into exactly 2 sub-task prompts for writers. Return JSON list ['task1', 'task2'].")
    (PStr complex_task) true
    {| world := world e; sent := sent e;
       printed := printed e ++ [nl ++ str "--- PATTERN 4: ORCHESTRATOR-WORKERS ---"] |}
    = (Returned plan_response, e1) ->
  json_loads plan_response = Some (PDict items) ->
  Py.dict_get items (str "tasks") (PList []) = tasks ->
  Py.truthy tasks = true ->
  match tasks with PList _ | PStr _ | PDict _ => False | _ => True end ->
  fst (pattern_orchestrator provider api_key json_loads repr e) = Raised TypeError.
Proof.
  intros Hc Hl Hg Ht Hn. unfold pattern_orchestrator.
  unfold bind at 1. unfold print at 1. cbn [fst snd].
  unfold bind at 1. rewrite Hc.
  unfold bind at 1. rewrite (plan_tasks_taken _ items) by (rewrite ?Hg; assumption).
  rewrite Hg. unfold bind at 1. unfold print_step, print. cbn [fst snd].
  unfold bind. destruct tasks; try destruct Hn; reflexivity.
Qed.

End Orchestrator.

(** C7 fails on the code.  When the planner answers with an object whose
    tasks entry is the number 5, no fallback is substituted: the plan is
    5, and iterating over it raises [TypeError] outside the [try] block,
    so the pattern aborts. *)
Theorem orchestrator_aborts_on_number :
  AgenticPatterns.plan_tasks Stub.loads Stub.plan_of_five Stub.start
    = (Returned (PInt 5), Stub.start) /\
  fst (AgenticPatterns.pattern_orchestrator (Stub.always Stub.plan_of_five) Stub.key
         Stub.loads Stub.no_repr Stub.start)
    = Raised TypeError.
Proof.
  split.
  - vm_compute. reflexivity.
  - apply (orchestrator_aborts (Stub.always Stub.plan_of_five) Stub.key Stub.loads Stub.no_repr
             Stub.plan_of_five [ (str "tasks", PInt 5) ] (PInt 5) Stub.start _ eq_refl).
    + vm_compute. reflexivity.
    + reflexivity.
    + reflexivity.
    + exact I.
Qed.

(* --------------------------------------------------------------------- *)
(** *** The tool loop of the research agent                               *)
(* --------------------------------------------------------------------- *)

Section ToolLoop.
Import SmartInvestorLocal.
Context {W : Type}.
Variable provider : request -> W -> outcome text * W.
Variable registry : gmap text tool.

Lemma turn_action transcript (e e' : env W) agent_text tool_name tool_input :
  create provider (turn_request transcript) e = (Returned agent_text, e') ->
  PyStr.contains (str "Final Answer:") agent_text = false ->
  parse_action agent_text = Some (tool_name, tool_input) ->
  turn provider registry transcript e
  = (Returned (Continue
       ((transcript ++ [Message (str "assistant") (PStr agent_text)]) ++
        [Message (str "user")
           (PStr (str "Observation: " ++ observe registry tool_name tool_input))])), e').
Proof.
  intros Hc Hf Hp. unfold turn, bind. fold (turn_request transcript).
  rewrite Hc, Hf, Hp. reflexivity.
Qed.

Lemma turns_loop_continue turns transcript transcript' (e e' : env W) :
  turn provider registry transcript e = (Returned (Continue transcript'), e') ->
  turns_loop provider registry (S turns) transcript e
  = turns_loop provider registry turns transcript' e'.
Proof. intros H. simpl. unfold bind. rewrite H. reflexivity. Qed.

End ToolLoop.

(** C8. A turn whose action names a tool that is not in the registry
    raises nothing: the observation is the text [Error: Tool '...' not
    found.], it is appended to the transcript, and the loop goes on with
    that transcript.  When the tool is registered and its implementation
    raises, the observation is [Error: ] followed by the message of the
    exception, fed back the same way. *)
Theorem unknown_tool_recovered {W} (provider : request -> W -> outcome text * W)
    (registry : gmap text SmartInvestorLocal.tool)
    (turns : nat) (transcript : list message) (e e' : env W)
    (agent_text tool_name tool_input : text) :
  create provider (turn_request transcript) e = (Returned agent_text, e') ->
  PyStr.contains (str "Final Answer:") agent_text = false ->
  SmartInvestorLocal.parse_action agent_text = Some (tool_name, tool_input) ->
  (registry !! tool_name = None ->
     let observation := str "Error: Tool '" ++ tool_name ++ str "' not found." in
     SmartInvestorLocal.turn provider registry transcript e
       = (Returned (SmartInvestorLocal.Continue
                      (transcript ++ fed_back agent_text observation)), e') /\
     SmartInvestorLocal.turns_loop provider registry (S turns) transcript e
       = SmartInvestorLocal.turns_loop provider registry turns
           (transcript ++ fed_back agent_text observation) e')
  /\
  (forall impl x,
     registry !! tool_name = Some impl -> impl tool_input = Raised x ->
     let observation := str "Error: " ++ exn_message x in
     SmartInvestorLocal.turn provider registry transcript e
       = (Returned (SmartInvestorLocal.Continue
                      (transcript ++ fed_back agent_text observation)), e') /\
     SmartInvestorLocal.turns_loop provider registry (S turns) transcript e
       = SmartInvestorLocal.turns_loop provider registry turns
           (transcript ++ fed_back agent_text observation) e').
Proof.
  intros Hc Hf Hp.
  pose proof (turn_action provider registry transcript e e' agent_text tool_name tool_input
                Hc Hf Hp) as Ht.
  rewrite <- app_assoc in Ht.
  split.
  - intros Hnone observation.
    assert (SmartInvestorLocal.observe registry tool_name tool_input = observation) as Ho.
    { unfold SmartInvestorLocal.observe. rewrite Hnone. reflexivity. }
    rewrite Ho in Ht. split; [exact Ht|].
    apply turns_loop_continue. exact Ht.
  - intros impl x Hsome Hraise observation.
    assert (SmartInvestorLocal.observe registry tool_name tool_input = observation) as Ho.
    { unfold SmartInvestorLocal.observe. rewrite Hsome, Hraise. reflexivity. }
    rewrite Ho in Ht. split; [exact Ht|].
    apply turns_loop_continue. exact Ht.
Qed.

(** The agent asks for a tool [lookup] that the registry of the script
    does not have, and for a tool that is out of service. *)
Lemma unknown_tool_recovered_witness :
  let agent_text := str "Thought: I need data.
Action: lookup[NVDA]
PAUSE" in
  let transcript := [ Message (str "system") (PStr SmartInvestorLocal.SYSTEM_PROMPT);
                      Message (str "user") (PStr (str "Is Nvidia a good buy?")) ] in
  let registry := <[ str "lookup" := Stub.broken_tool ]> SmartInvestorLocal.tools in
  SmartInvestorLocal.turn (Stub.always agent_text) SmartInvestorLocal.tools transcript Stub.start
  = (Returned (SmartInvestorLocal.Continue
                 (transcript ++ fed_back agent_text (str "Error: Tool 'lookup' not found."))),
     snd (create (Stub.always agent_text) (turn_request transcript) Stub.start))
  /\
  SmartInvestorLocal.turn (Stub.always agent_text) registry transcript Stub.start
  = (Returned (SmartInvestorLocal.Continue
                 (transcript ++ fed_back agent_text (str "Error: service unavailable"))),
     snd (create (Stub.always agent_text) (turn_request transcript) Stub.start)).
Proof.
  intros agent_text transcript registry. split.
  - apply (proj1 (unknown_tool_recovered (Stub.always agent_text) SmartInvestorLocal.tools 0
                    transcript Stub.start _ agent_text (str "lookup") (str "NVDA")
                    eq_refl eq_refl eq_refl)).
    vm_compute. reflexivity.
  - apply (proj2 (unknown_tool_recovered (Stub.always agent_text) registry 0
                    transcript Stub.start _ agent_text (str "lookup") (str "NVDA")
                    eq_refl eq_refl eq_refl) Stub.broken_tool (ToolError (str "service unavailable"))).
    + vm_compute. reflexivity.
    + reflexivity.
Defined.

(* --------------------------------------------------------------------- *)
(** *** The tracer                                                        *)
(* --------------------------------------------------------------------- *)

Section TracerFacts.
Import ProductionReady.
Context {W : Type}.
Variable now : W -> text * W.

Lemma list_index_in_range len (i : Z) :
  (- Z.of_nat len <= i < Z.of_nat len)%Z ->
  exists k, list_index len i = Some k /\ k < len.
Proof.
  intros H. unfold list_index.
  destruct (0 <=? i)%Z eqn:H0.
  - apply Z.leb_le in H0.
    assert ((i <? Z.of_nat len)%Z = true) as -> by (apply Z.ltb_lt; lia).
    simpl. eexists. split; [reflexivity|]. lia.
  - apply Z.leb_gt in H0. simpl.
    assert ((i <? 0)%Z = true) as -> by (apply Z.ltb_lt; lia).
    assert ((- Z.of_nat len <=? i)%Z = true) as -> by (apply Z.leb_le; lia).
    simpl. eexists. split; [reflexivity|]. lia.
Qed.

Lemma list_index_out_of_range len (i : Z) :
  (i < - Z.of_nat len \/ Z.of_nat len <= i)%Z -> list_index len i = None.
Proof.
  intros H. unfold list_index.
  destruct (0 <=? i)%Z eqn:H0.
  - apply Z.leb_le in H0.
    assert ((i <? Z.of_nat len)%Z = false) as -> by (apply Z.ltb_ge; lia).
    simpl.
    assert ((i <? 0)%Z = false) as -> by (apply Z.ltb_ge; lia). reflexivity.
  - apply Z.leb_gt in H0. simpl.
    assert ((- Z.of_nat len <=? i)%Z = false) as -> by (apply Z.leb_gt; lia).
    rewrite andb_false_r. reflexivity.
Qed.

(** Ending a span whose index is in range: the span at that position is
    completed, whatever its status was, and a line is appended to the
    trace file. *)
Lemma end_span_in_range (self : Tracer.t) (span_index : Z) output_data (e : env (process W)) :
  (- Z.of_nat (length (Tracer.spans self)) <= span_index
     < Z.of_nat (length (Tracer.spans self)))%Z ->
  exists i s stamp e',
    list_index (length (Tracer.spans self)) span_index = Some i /\
    Tracer.spans self !! i = Some s /\
    end_span now self span_index output_data e
      = (Returned (Tracer.Make (Tracer.trace_id self)
                     (<[i := completed s stamp output_data]> (Tracer.spans self))), e') /\
    agent_traces (world e') = agent_traces (world e) ++ [completed s stamp output_data] /\
    CACHE_STORE (world e') = CACHE_STORE (world e).
Proof.
  intros H. destruct (list_index_in_range _ _ H) as (i & Hi & Hlt).
  destruct (lookup_lt_is_Some_2 (Tracer.spans self) i Hlt) as [s Hs].
  unfold end_span. rewrite Hi, Hs.
  unfold bind, isoformat_now.
  destruct (now (outside (world e))) as [stamp w'].
  exists i, s, stamp. eexists. split; [reflexivity|]. split; [exact Hs|].
  split; [reflexivity|]. split; reflexivity.
Qed.

Lemma end_span_out_of_range (self : Tracer.t) (span_index : Z) output_data (e : env (process W)) :
  (span_index < - Z.of_nat (length (Tracer.spans self))
   \/ Z.of_nat (length (Tracer.spans self)) <= span_index)%Z ->
  end_span now self span_index output_data e = (Raised IndexError, e).
Proof.
  intros H. unfold end_span. rewrite (list_index_out_of_range _ _ H). reflexivity.
Qed.

End TracerFacts.

(** C9, as the code has it.  [end_span] looks the handle up as a Python
    list index.  A handle from [-len(spans)] to [len(spans) - 1] ends the
    span at that position, also a negative one, which [start_span] never
    returns, and also when that span was ended before: each call appends
    one more line to the trace file.  Any other handle raises
    [IndexError] and changes nothing. *)
Theorem end_span_by_index {W} (now : W -> text * W)
    (self : ProductionReady.Tracer.t) (span_index : Z) (output_data again : pyval)
    (e : env (ProductionReady.process W)) :
  let len := Z.of_nat (length (ProductionReady.Tracer.spans self)) in
  ((- len <= span_index < len)%Z ->
     exists self1 e1 self2 e2,
       ProductionReady.end_span now self span_index output_data e = (Returned self1, e1) /\
       length (ProductionReady.agent_traces (world e1))
         = length (ProductionReady.agent_traces (world e)) + 1 /\
       ProductionReady.end_span now self1 span_index again e1 = (Returned self2, e2) /\
       length (ProductionReady.agent_traces (world e2))
         = length (ProductionReady.agent_traces (world e)) + 2)
  /\
  ((span_index < - len \/ len <= span_index)%Z ->
     ProductionReady.end_span now self span_index output_data e = (Raised IndexError, e)).
Proof.
  intros len. split.
  - intros H.
    destruct (end_span_in_range now self span_index output_data e H)
      as (i & s & stamp & e1 & Hi & Hs & Hend & Htr & _).
    set (self1 := ProductionReady.Tracer.Make (ProductionReady.Tracer.trace_id self)
                    (<[i := completed s stamp output_data]> (ProductionReady.Tracer.spans self))).
    assert (length (ProductionReady.Tracer.spans self1)
            = length (ProductionReady.Tracer.spans self)) as Hlen
      by (apply length_insert).
    destruct (end_span_in_range now self1 span_index again e1)
      as (i' & s' & stamp' & e2 & Hi' & Hs' & Hend' & Htr' & _).
    { rewrite Hlen. exact H. }
    exists self1, e1. eexists _, e2.
    split; [exact Hend|]. split; [rewrite Htr, length_app; reflexivity|].
    split; [exact Hend'|]. rewrite Htr', Htr, !length_app. simpl. lia.
  - apply end_span_out_of_range.
Qed.

(** A tracer with one running span: handle 0 is ended twice, and handle 7
    is out of range. *)
Lemma end_span_by_index_witness :
  (exists self1 e1 self2 e2,
     ProductionReady.end_span Stub.clock Stub.one_span 0 PNone Stub.process_start
       = (Returned self1, e1) /\
     length (ProductionReady.agent_traces (world e1))
       = length (ProductionReady.agent_traces (world Stub.process_start)) + 1 /\
     ProductionReady.end_span Stub.clock self1 0 (PStr (str "again")) e1 = (Returned self2, e2) /\
     length (ProductionReady.agent_traces (world e2))
       = length (ProductionReady.agent_traces (world Stub.process_start)) + 2)
  /\
  ProductionReady.end_span Stub.clock Stub.one_span 7 PNone Stub.process_start
    = (Raised IndexError, Stub.process_start).
Proof.
  split.
  - apply (proj1 (end_span_by_index Stub.clock Stub.one_span 0 PNone (PStr (str "again"))
                    Stub.process_start)).
    simpl. lia.
  - apply (proj2 (end_span_by_index Stub.clock Stub.one_span 7 PNone PNone
                    Stub.process_start)).
    simpl. lia.
Defined.

(** C9 as stated fails.  After one [start_span], which returns the
    handle 0, the handle -1 was never returned, yet [end_span] accepts it
    and ends the span; and ending handle 0 a second time succeeds too and
    logs a second line. *)
Lemma unknown_handle_accepted :
  let started := ProductionReady.start_span Stub.clock Stub.fresh_tracer (str "work") PNone
                   Stub.process_start in
  exists self e0,
    started = (Returned (self, 0%Z), e0) /\
    (exists self1 e1,
       ProductionReady.end_span Stub.clock self (-1) PNone e0 = (Returned self1, e1) /\
       length (ProductionReady.agent_traces (world e1)) = 1) /\
    (exists self1 e1 self2 e2,
       ProductionReady.end_span Stub.clock self 0 PNone e0 = (Returned self1, e1) /\
       ProductionReady.end_span Stub.clock self1 0 PNone e1 = (Returned self2, e2) /\
       length (ProductionReady.agent_traces (world e2)) = 2).
Proof.
  eexists _, _. split; [vm_compute; reflexivity|]. split.
  - eexists _, _. split; vm_compute; reflexivity.
  - eexists _, _, _, _. split; [vm_compute; reflexivity|]. split; vm_compute; reflexivity.
Qed.

(* --------------------------------------------------------------------- *)
(** *** Scatter and gather                                                *)
(* --------------------------------------------------------------------- *)

Section GatherFacts.
Context {W : Type}.

(** The completions come in the order of the schedule. *)
Lemma run_to_completion_order schedule : forall (tasks : list (M W text)) e completed e',
  run_to_completion schedule tasks e = (Returned completed, e') ->
  fst <$> completed = schedule.
Proof.
  induction schedule as [|i rest IH]; intros tasks e completed e' H; simpl in H.
  - injection H as <- _. reflexivity.
  - destruct (tasks !! i) as [task|]; [|discriminate].
    unfold bind in H. destruct (task e) as [[r|x] e1]; [|discriminate].
    destruct (run_to_completion rest tasks e1) as [[done|x] e2] eqn:Hr; [|discriminate].
    injection H as <- _. simpl. f_equal. eapply IH. exact Hr.
Qed.

Lemma store_untouched completed : forall (slots : list (option text)) i,
  i ∉ fst <$> completed ->
  foldl (fun slots '(i, r) => <[i := Some r]> slots) slots completed !! i = slots !! i.
Proof.
  induction completed as [|[j x] rest IH]; intros slots i Hi; simpl; [reflexivity|].
  simpl in Hi. apply not_elem_of_cons in Hi as [Hne Hi].
  rewrite IH by exact Hi. apply list_lookup_insert_ne. congruence.
Qed.

Lemma store_length completed : forall (slots : list (option text)),
  length (foldl (fun slots '(i, r) => <[i := Some r]> slots) slots completed) = length slots.
Proof.
  induction completed as [|[j x] rest IH]; intros slots; simpl; [reflexivity|].
  rewrite IH. apply length_insert.
Qed.

(** Each result sits in the slot of its launch position, wherever it is
    in the order of completion. *)
Lemma store_lookup completed : forall (slots : list (option text)) i r,
  NoDup (fst <$> completed) -> (i, r) ∈ completed -> i < length slots ->
  foldl (fun slots '(i, r) => <[i := Some r]> slots) slots completed !! i = Some (Some r).
Proof.
  induction completed as [|[j x] rest IH]; intros slots i r Hnd Hin Hlt.
  - by apply elem_of_nil in Hin.
  - simpl in Hnd. apply NoDup_cons in Hnd as [Hj Hnd].
    apply elem_of_cons in Hin as [Heq|Hin]; simpl.
    + injection Heq as -> ->.
      rewrite store_untouched by exact Hj. by apply list_lookup_insert_eq.
    + apply IH; auto. by rewrite length_insert.
Qed.

Lemma store_results_lookup n completed i r :
  NoDup (fst <$> completed) -> (i, r) ∈ completed -> i < n ->
  store_results n completed !! i = Some (Some r).
Proof.
  intros Hnd Hin Hlt. unfold store_results. apply store_lookup; auto.
  by rewrite length_replicate.
Qed.

Lemma gather_slots schedule (tasks : list (M W text)) e completed e' i r :
  schedule ≡ₚ seq 0 (length tasks) ->
  run_to_completion schedule tasks e = (Returned completed, e') ->
  (i, r) ∈ completed ->
  store_results (length tasks) completed !! i = Some (Some r).
Proof.
  intros Hp Hr Hin.
  pose proof (run_to_completion_order _ _ _ _ _ Hr) as Ho.
  apply store_results_lookup; auto.
  - rewrite Ho, Hp. apply NoDup_seq.
  - assert (i ∈ schedule) as Hi.
    { rewrite <- Ho. by apply (list_elem_of_fmap_2 fst) in Hin. }
    rewrite Hp in Hi. apply elem_of_seq in Hi. lia.
Qed.

End GatherFacts.

Section ScatterGather.
Context {W : Type}.
Variable provider : request -> W -> outcome text * W.
Variable api_key : option text.
Variable repr : pyval -> text.

Lemma result_at_slot (results : list (option text)) i r (e : env W) :
  results !! i = Some (Some r) -> result_at results i e = (Returned r, e).
Proof. intros H. unfold result_at. rewrite H. reflexivity. Qed.

Lemma parallelization_in_launch_order schedule (e : env W) completed e1 rA rB rC :
  schedule ≡ₚ [0; 1; 2] ->
  run_to_completion schedule
    [ AgenticPatterns.task1 provider api_key; AgenticPatterns.task2 provider api_key;
      AgenticPatterns.task3 provider api_key ] (announced e) = (Returned completed, e1) ->
  (0, rA) ∈ completed -> (1, rB) ∈ completed -> (2, rC) ∈ completed ->
  AgenticPatterns.pattern_parallelization provider api_key repr schedule e
  = synthesize provider api_key repr
      (str "Optimist: " ++ rA ++ nl ++ str "Pessimist: " ++ rB ++ nl ++ str "Realist: " ++ rC) e1.
Proof.
  intros Hp Hr HA HB HC.
  unfold AgenticPatterns.pattern_parallelization.
  unfold bind at 1. unfold print at 1. cbn [fst snd].
  unfold bind at 1. unfold AgenticPatterns.print_step at 1, print at 1. cbn [fst snd].
  change {| world := _; sent := _; printed := _ |} with (announced e).
  unfold bind at 1. unfold gather, bind at 1. rewrite Hr. unfold ret at 1.
  unfold bind at 1.
  rewrite (result_at_slot _ 0 rA) by (eapply gather_slots; eauto).
  unfold bind at 1.
  rewrite (result_at_slot _ 1 rB) by (eapply gather_slots; eauto).
  unfold bind at 1.
  rewrite (result_at_slot _ 2 rC) by (eapply gather_slots; eauto).
  reflexivity.
Qed.

Lemma consensus_in_launch_order schedule topic (e : env W) completed e1 a b c :
  schedule ≡ₚ [0; 1; 2] ->
  run_to_completion schedule
    (ParallelConsensus.agents provider
       (str "Provide a brief, 1-sentence interesting fact about: " ++ topic)) e
    = (Returned completed, e1) ->
  (0, a) ∈ completed -> (1, b) ∈ completed -> (2, c) ∈ completed ->
  ParallelConsensus.run_consensus provider schedule topic e
  = judged provider (a ++ nl ++ b ++ nl ++ c) e1.
Proof.
  intros Hp Hr HA HB HC.
  unfold ParallelConsensus.run_consensus.
  unfold bind at 1. unfold gather, bind at 1. rewrite Hr. unfold ret at 1.
  set (slots := store_results _ completed).
  assert (slots = [Some a; Some b; Some c]) as ->.
  { apply list_eq. intros [|[|[|i]]].
    - apply (gather_slots schedule _ e completed e1 0 a); auto.
    - apply (gather_slots schedule _ e completed e1 1 b); auto.
    - apply (gather_slots schedule _ e completed e1 2 c); auto.
    - simpl. apply lookup_ge_None. unfold slots, store_results.
      rewrite store_length, length_replicate. simpl. lia. }
  reflexivity.
Qed.

End ScatterGather.

(** C4. Whatever the order in which the three branches complete, the
    input of the synthesis call has the result of the first branch
    launched first, of the second second and of the third third: in
    [pattern_parallelization] it is the labelled text of the Optimist,
    the Pessimist and the Realist, in [run_consensus] the texts of Agent
    A, Agent B and Agent C joined by newlines. *)
Theorem gather_in_launch_order {W} (provider : request -> W -> outcome text * W)
    (api_key : option text) (repr : pyval -> text) (schedule : list nat) (topic : text) :
  schedule ≡ₚ [0; 1; 2] ->
  (forall (e : env W) completed e1 rA rB rC,
     run_to_completion schedule
       [ AgenticPatterns.task1 provider api_key; AgenticPatterns.task2 provider api_key;
         AgenticPatterns.task3 provider api_key ] (announced e) = (Returned completed, e1) ->
     (0, rA) ∈ completed -> (1, rB) ∈ completed -> (2, rC) ∈ completed ->
     AgenticPatterns.pattern_parallelization provider api_key repr schedule e
     = synthesize provider api_key repr
         (str "Optimist: " ++ rA ++ nl ++ str "Pessimist: " ++ rB ++ nl ++
          str "Realist: " ++ rC) e1)
  /\
  (forall (e : env W) completed e1 a b c,
     run_to_completion schedule
       (ParallelConsensus.agents provider
          (str "Provide a brief, 1-sentence interesting fact about: " ++ topic)) e
       = (Returned completed, e1) ->
     (0, a) ∈ completed -> (1, b) ∈ completed -> (2, c) ∈ completed ->
     ParallelConsensus.run_consensus provider schedule topic e
     = judged provider (a ++ nl ++ b ++ nl ++ c) e1).
Proof.
  intros Hp. split.
  - intros. by eapply parallelization_in_launch_order.
  - intros. by eapply consensus_in_launch_order.
Qed.

(** The third branch completes first and the first last; the provider
    numbers its answers in the order it serves them. *)
Lemma gather_in_launch_order_witness :
  AgenticPatterns.pattern_parallelization Stub.numbered Stub.key Stub.no_repr [2; 1; 0] Stub.start
  = synthesize Stub.numbered Stub.key Stub.no_repr
      (str "Optimist: answer 2
Pessimist: answer 1
Realist: answer 0")
      (snd (run_to_completion [2; 1; 0]
              [ AgenticPatterns.task1 Stub.numbered Stub.key;
                AgenticPatterns.task2 Stub.numbered Stub.key;
                AgenticPatterns.task3 Stub.numbered Stub.key ] (announced Stub.start)))
  /\
  ParallelConsensus.run_consensus Stub.numbered [2; 1; 0] (str "Python") Stub.start
  = judged Stub.numbered
      (str "Agent A: answer 2
Agent B: answer 1
Agent C: answer 0")
      (snd (run_to_completion [2; 1; 0]
              (ParallelConsensus.agents Stub.numbered
                 (str "Provide a brief, 1-sentence interesting fact about: " ++ str "Python"))
              Stub.start)).
Proof.
  assert ([2; 1; 0] ≡ₚ [0; 1; 2]) as Hp.
  { change [2; 1; 0] with (reverse [0; 1; 2]). apply reverse_Permutation. }
  split.
  - apply (proj1 (gather_in_launch_order Stub.numbered Stub.key Stub.no_repr [2; 1; 0]
                    (str "Python") Hp)
             Stub.start
             [ (2, str "answer 0"); (1, str "answer 1"); (0, str "answer 2") ] _
             (str "answer 2") (str "answer 1") (str "answer 0") eq_refl).
    + apply list_elem_of_further, list_elem_of_further, list_elem_of_here.
    + apply list_elem_of_further, list_elem_of_here.
    + apply list_elem_of_here.
  - apply (proj2 (gather_in_launch_order Stub.numbered Stub.key Stub.no_repr [2; 1; 0]
                    (str "Python") Hp)
             Stub.start
             [ (2, str "Agent C: answer 0"); (1, str "Agent B: answer 1");
               (0, str "Agent A: answer 2") ] _
             (str "Agent A: answer 2") (str "Agent B: answer 1") (str "Agent C: answer 0")
             eq_refl).
    + apply list_elem_of_further, list_elem_of_further, list_elem_of_here.
    + apply list_elem_of_further, list_elem_of_here.
    + apply list_elem_of_here.
Defined.

(* --------------------------------------------------------------------- *)
(** *** The matcher finds a match exactly when there is one               *)
(* --------------------------------------------------------------------- *)

Section MatcherFacts.
Import Re ReSpec.

Lemma run_lower a hi s : forall count, count <= run a hi count s.
Proof.
  induction s as [|c s IH]; intros count; simpl; [lia|].
  destruct (accepts a c && within hi count); [|lia].
  specialize (IH (S count)). lia.
Qed.

Lemma run_upper a hi s : forall count, run a hi count s <= count + length s.
Proof.
  induction s as [|c s IH]; intros count; simpl; [lia|].
  destruct (accepts a c && within hi count); [|lia].
  specialize (IH (S count)). lia.
Qed.

Lemma run_fits a hi s : forall count, fits hi count -> fits hi (run a hi count s).
Proof.
  induction s as [|c s IH]; intros count Hf; simpl; [exact Hf|].
  destruct (accepts a c && within hi count) eqn:E; [|exact Hf].
  apply IH. apply andb_true_iff in E as [_ E].
  destruct hi as [h|]; simpl in *; [|exact I]. apply Nat.ltb_lt in E. lia.
Qed.

Lemma run_accepts a hi s : forall count m,
  count + m <= run a hi count s -> Forall (fun c => accepts a c = true) (take m s).
Proof.
  induction s as [|c s IH]; intros count m H; simpl in *.
  - rewrite take_nil. constructor.
  - destruct m as [|m]; [constructor|]. simpl.
    destruct (accepts a c && within hi count) eqn:E; [|lia].
    apply andb_true_iff in E as [E _].
    constructor; [exact E|]. apply (IH (S count)). lia.
Qed.

Lemma run_max a hi s : forall count m,
  m <= length s -> Forall (fun c => accepts a c = true) (take m s) ->
  fits hi (count + m) -> count + m <= run a hi count s.
Proof.
  induction s as [|c s IH]; intros count m Hlen Hall Hfit; simpl in *.
  - lia.
  - destruct m as [|m]; [rewrite Nat.add_0_r; destruct (_ && _); [|lia];
                         pose proof (run_lower a hi s (S count)); lia|].
    simpl in Hall. apply Forall_cons in Hall as [Hc Hall].
    assert (within hi count = true) as Hw.
    { destruct hi as [h|]; simpl in *; [|reflexivity]. apply Nat.ltb_lt. lia. }
    rewrite Hc, Hw. simpl.
    assert (fits hi (S count + m)) as Hfit'.
    { destruct hi as [h|]; simpl in *; [lia|exact I]. }
    specialize (IH (S count) m ltac:(lia) Hall Hfit'). lia.
Qed.

Lemma backtrack_sound k lo : forall n ms,
  backtrack k lo n = Some ms ->
  exists m ns, ms = m :: ns /\ lo <= m <= n /\ k m = Some ns.
Proof.
  induction n as [|n IH]; intros ms H; simpl in H.
  - destruct (0 <? lo) eqn:E; [discriminate|]. apply Nat.ltb_ge in E.
    destruct (k 0) as [ns|] eqn:Hk; [|discriminate].
    injection H as <-. exists 0, ns. repeat split; auto; lia.
  - destruct (S n <? lo) eqn:E; [discriminate|]. apply Nat.ltb_ge in E.
    destruct (k (S n)) as [ns|] eqn:Hk.
    + injection H as <-. exists (S n), ns. repeat split; auto; lia.
    + destruct (IH ms H) as (m & ns & -> & Hm & Hk'). exists m, ns.
      repeat split; auto; lia.
Qed.

Lemma backtrack_complete k lo m : forall n,
  lo <= m -> m <= n -> is_Some (k m) -> is_Some (backtrack k lo n).
Proof.
  induction n as [|n IH]; intros Hlo Hn Hk; simpl.
  - assert (m = 0) as -> by lia.
    assert ((0 <? lo) = false) as -> by (apply Nat.ltb_ge; lia).
    destruct Hk as [ns ->]. eauto.
  - assert ((S n <? lo) = false) as -> by (apply Nat.ltb_ge; lia).
    destruct (k (S n)) as [ns|] eqn:E; [eauto|].
    apply IH; auto.
    destruct (decide (m = S n)) as [->|]; [|lia].
    rewrite E in Hk. by destruct Hk.
Qed.

(** Soundness: what [match_here] returns is a match. *)
Lemma match_here_sound ps : forall prev s ns,
  match_here ps prev s = Some ns -> matches ps prev s ns.
Proof.
  induction ps as [|[a lo hi|] ps IH]; intros prev s ns H; simpl in H.
  - injection H as <-. exact I.
  - apply backtrack_sound in H as (m & ns' & -> & [Hlo Hm] & Hk).
    simpl. split; [exact Hlo|].
    split; [|split; [|split]].
    + pose proof (run_fits a hi s 0) as Hf.
      assert (fits hi 0) as H0 by (destruct hi; simpl; [lia|exact I]).
      specialize (Hf H0). destruct hi as [h|]; simpl in *; [lia|exact I].
    + pose proof (run_upper a hi s 0). lia.
    + apply (run_accepts a hi s 0). simpl. exact Hm.
    + apply IH. exact Hk.
  - destruct (at_boundary prev (head s)) eqn:Hb; [|discriminate].
    destruct (match_here ps prev s) as [ns'|] eqn:Hm; [|discriminate].
    injection H as <-. simpl. split; [exact Hb|]. apply IH. exact Hm.
Qed.

(** Completeness: where there is a match, [match_here] finds one. *)
Lemma match_here_complete ps : forall prev s ns,
  matches ps prev s ns -> is_Some (match_here ps prev s).
Proof.
  induction ps as [|[a lo hi|] ps IH]; intros prev s ns H; simpl.
  - eauto.
  - destruct ns as [|n ns]; [destruct H|].
    destruct H as (Hlo & Hfit & Hlen & Hall & Hrest).
    apply (backtrack_complete _ lo n); auto.
    + apply (run_max a hi s 0 n); auto.
    + eapply IH. exact Hrest.
  - destruct ns as [|[|n] ns]; try destruct H.
    rewrite H. destruct (IH prev s ns H0) as [ns' ->]. simpl. eauto.
Qed.

Lemma match_here_None ps prev s : match_here ps prev s = None <-> ~ hit ps prev s.
Proof.
  split.
  - intros H [ns Hm]. apply match_here_complete in Hm as [ns' Hm]. congruence.
  - intros H. destruct (match_here ps prev s) as [ns|] eqn:E; [|reflexivity].
    exfalso. apply H. exists ns. by apply match_here_sound.
Qed.

End MatcherFacts.

(** The matcher on a few texts: the quantifier of the domain gives
    characters back until a dot and two letters follow; digits next to
    a phone number spoil the boundary; the action of the agent is the
    leftmost one and its input runs to the last closing bracket of the
    line. *)
Example sub_backtracks :
  Re.sub ProductionReady.email_pattern ProductionReady.REDACTED_EMAIL
    (str "write to a.b@mail.example.org. or to c@d")
  = str "write to [REDACTED_EMAIL]. or to c@d".
Proof. vm_compute. reflexivity. Qed.

Example phone_needs_boundaries :
  AutonomousClaims.redact (str "5551234567 x5551234567 55512345670 555.123-4567")
  = str "[REDACTED_PHONE] x5551234567 55512345670 [REDACTED_PHONE]".
Proof. vm_compute. reflexivity. Qed.

Example parse_action_leftmost :
  SmartInvestorLocal.parse_action (str "Action: !x[1] Action: get_news[AI [chips]] and more]
Action: get_stock_price[NVDA]")
  = Some (str "get_news", str "AI [chips]] and more").
Proof. vm_compute. reflexivity. Qed.

(* --------------------------------------------------------------------- *)
(** *** What a match looks like                                           *)
(* --------------------------------------------------------------------- *)

Section MatchFacts.
Import Re ReSpec.

Lemma take_plus {A} (l : list A) n m : take (n + m) l = take n l ++ take m (drop n l).
Proof.
  revert l. induction n as [|n IH]; intros l; simpl; [reflexivity|].
  destruct l as [|x l]; simpl.
  - by rewrite take_nil.
  - by rewrite IH.
Qed.

Lemma total_cons n ns : total (n :: ns) = n + total ns.
Proof. reflexivity. Qed.

(** A match lies within the text. *)
Lemma matches_length ps : forall prev s ns, matches ps prev s ns -> total ns <= length s.
Proof.
  induction ps as [|[a lo hi|] ps IH]; intros prev s ns H.
  - destruct ns; [simpl; lia|destruct H].
  - destruct ns as [|n ns]; [destruct H|].
    destruct H as (_ & _ & Hlen & _ & Hrest).
    apply IH in Hrest. rewrite length_drop in Hrest. rewrite total_cons. lia.
  - destruct ns as [|[|n] ns]; try destruct H.
    rewrite total_cons. simpl. eapply IH. exact H0.
Qed.

(** It is at least as long as the pattern requires. *)
Lemma matches_min_len ps : forall prev s ns, matches ps prev s ns -> min_len ps <= total ns.
Proof.
  induction ps as [|[a lo hi|] ps IH]; intros prev s ns H.
  - simpl. lia.
  - destruct ns as [|n ns]; [destruct H|].
    destruct H as (Hlo & _ & _ & _ & Hrest).
    apply IH in Hrest. rewrite total_cons. simpl. lia.
  - destruct ns as [|[|n] ns]; try destruct H.
    rewrite total_cons. simpl. eapply IH. exact H0.
Qed.

(** Its characters are in the alphabet of the pattern. *)
Lemma matches_alphabet ps : forall prev s ns,
  matches ps prev s ns -> Forall (fun c => alphabet ps c = true) (take (total ns) s).
Proof.
  induction ps as [|[a lo hi|] ps IH]; intros prev s ns H.
  - destruct ns; [constructor|destruct H].
  - destruct ns as [|n ns]; [destruct H|].
    destruct H as (_ & _ & _ & Hall & Hrest).
    rewrite total_cons, take_plus. apply Forall_app. split.
    + eapply Forall_impl; [exact Hall|]. intros c Hc. simpl. rewrite Hc. reflexivity.
    + apply IH in Hrest. eapply Forall_impl; [exact Hrest|].
      intros c Hc. simpl. rewrite Hc. apply orb_true_r.
  - destruct ns as [|[|n] ns]; try destruct H.
    rewrite total_cons. simpl.
    eapply Forall_impl; [eapply IH; exact H0|]. intros c Hc. exact Hc.
Qed.

(** A piece that must take a character leaves one of its characters in
    the match. *)
Lemma matches_required ps a lo hi : forall prev s ns,
  In (Rep a lo hi) ps -> 1 <= lo -> matches ps prev s ns ->
  exists c, c ∈ take (total ns) s /\ accepts a c = true.
Proof.
  induction ps as [|[a' lo' hi'|] ps IH]; intros prev s ns Hin Hlo H.
  - destruct Hin.
  - destruct ns as [|n ns]; [destruct H|].
    destruct H as (Hn & _ & Hlen & Hall & Hrest).
    rewrite total_cons, take_plus.
    destruct Hin as [Heq|Hin].
    + injection Heq as -> -> ->.
      destruct s as [|c s]; [simpl in Hlen; lia|].
      destruct n as [|n]; [lia|]. simpl in Hall. apply Forall_cons in Hall as [Hc _].
      exists c. split; [|exact Hc]. simpl. apply list_elem_of_here.
    + destruct (IH _ _ _ Hin Hlo Hrest) as (c & Hc & Ha).
      exists c. split; [|exact Ha]. apply elem_of_app. by right.
  - destruct ns as [|[|n] ns]; try destruct H.
    destruct Hin as [Heq|Hin]; [discriminate|].
    rewrite total_cons. simpl. eapply IH; eauto.
Qed.

(** A match depends on the text only through the characters it takes
    and, when the pattern has a boundary, through the sides of the
    characters around it. *)
Lemma matches_transfer ps : forall p1 s1 p2 s2 ns,
  matches ps p1 s1 ns ->
  take (total ns) s1 = take (total ns) s2 ->
  (has_boundary ps = true ->
     word_side p1 = word_side p2 /\
     word_side (s1 !! total ns) = word_side (s2 !! total ns)) ->
  matches ps p2 s2 ns.
Proof.
  induction ps as [|[a lo hi|] ps IH]; intros p1 s1 p2 s2 ns H Htake Hctx.
  - destruct ns; [exact I|destruct H].
  - destruct ns as [|n ns]; [destruct H|].
    pose proof (matches_length _ _ _ _ H) as Hlen1.
    destruct H as (Hlo & Hfit & Hlen & Hall & Hrest).
    rewrite total_cons in *.
    assert (n + total ns <= length s2) as Hlen2.
    { assert (length (take (n + total ns) s2) = n + total ns) as HL
        by (rewrite <- Htake; apply length_take_le; lia).
      rewrite length_take in HL. lia. }
    assert (take n s1 = take n s2) as Htn.
    { rewrite <- (Nat.min_l n (n + total ns)) by lia.
      rewrite <- !take_take, Htake. reflexivity. }
    simpl. split; [exact Hlo|]. split; [exact Hfit|]. split; [lia|].
    split; [by rewrite <- Htn|].
    apply (IH (before p1 s1 n) (drop n s1)); auto.
    + rewrite !take_drop_commute, Htake. reflexivity.
    + intros Hb. specialize (Hctx Hb) as [Hp Hn]. split.
      * destruct n as [|n]; simpl; [exact Hp|].
        rewrite <- (lookup_take_lt s1 (S n + total ns) n) by lia.
        rewrite <- (lookup_take_lt s2 (S n + total ns) n) by lia.
        by rewrite Htake.
      * rewrite !lookup_drop. exact Hn.
  - destruct ns as [|[|n] ns]; try destruct H.
    rewrite total_cons in *. simpl in Htake, Hctx.
    specialize (Hctx eq_refl) as [Hp Hn].
    assert (word_side (head s1) = word_side (head s2)) as Hh.
    { rewrite !head_lookup. destruct (total ns) as [|k] eqn:Ek; [exact Hn|].
      rewrite <- (lookup_take_lt s1 (S k) 0) by lia.
      rewrite <- (lookup_take_lt s2 (S k) 0) by lia.
      by rewrite Htake. }
    simpl. split.
    + unfold at_boundary in *. rewrite <- Hp, <- Hh. exact H.
    + apply (IH p1 s1); auto.
Qed.

End MatchFacts.

(* --------------------------------------------------------------------- *)
(** *** Substitution leaves no match behind                               *)
(* --------------------------------------------------------------------- *)

Section SubFacts.
Import Re ReSpec.

Lemma before_cons prev c s k : before prev (c :: s) (S k) = before (Some c) s k.
Proof. destruct k; reflexivity. Qed.

Lemma sub_from_skip ps repl s : forall k prev,
  k <= length s ->
  sub_from ps repl k prev s = sub_from ps repl 0 (before prev s k) (drop k s).
Proof.
  induction s as [|c s IH]; intros k prev Hk.
  - simpl in Hk. assert (k = 0) as -> by lia. reflexivity.
  - destruct k as [|k]; [reflexivity|].
    rewrite before_cons. simpl drop. simpl sub_from at 1.
    apply IH. simpl in Hk. lia.
Qed.

Lemma match_len_Some ps prev s n :
  match_len ps prev s = Some n ->
  exists ns, matches ps prev s ns /\ total ns = n.
Proof.
  unfold match_len. destruct (match_here ps prev s) as [ns|] eqn:E; [|discriminate].
  intros [= <-]. exists ns. split; [by apply match_here_sound|reflexivity].
Qed.

Lemma match_len_None ps prev s : match_len ps prev s = None -> match_here ps prev s = None.
Proof. unfold match_len. destruct (match_here ps prev s); [discriminate|reflexivity]. Qed.

(** [sub] rewrites the text as [rewritten] says, for a pattern that does
    not match the empty text. *)
Lemma sub_from_rewritten ps repl :
  1 <= min_len ps ->
  forall len s prev, length s <= len ->
    rewritten ps repl (fun p x => match_here ps p x = None) prev s (sub_from ps repl 0 prev s).
Proof.
  intros Hmin. induction len as [|len IH]; intros s prev Hlen.
  - destruct s; [|simpl in Hlen; lia]. simpl.
    destruct (match_len ps prev []) as [n|] eqn:E; [|constructor].
    apply match_len_Some in E as (ns & Hm & _).
    pose proof (matches_min_len _ _ _ _ Hm). pose proof (matches_length _ _ _ _ Hm).
    simpl in *. lia.
  - destruct s as [|c s].
    + simpl. destruct (match_len ps prev []) as [n|] eqn:E; [|constructor].
      apply match_len_Some in E as (ns & Hm & _).
      pose proof (matches_min_len _ _ _ _ Hm). pose proof (matches_length _ _ _ _ Hm).
      simpl in *. lia.
    + simpl in Hlen. simpl sub_from.
      destruct (match_len ps prev (c :: s)) as [[|n]|] eqn:E.
      * apply match_len_Some in E as (ns & Hm & Ht).
        pose proof (matches_min_len _ _ _ _ Hm). lia.
      * apply match_len_Some in E as (ns & Hm & Ht).
        pose proof (matches_length _ _ _ _ Hm) as Hl. rewrite Ht in Hl. simpl in Hl.
        rewrite sub_from_skip by lia.
        destruct (lookup_lt_is_Some_2 (c :: s) n ltac:(simpl; lia)) as [x Hx].
        assert (before (Some c) s n = Some x) as ->.
        { rewrite <- (before_cons prev). exact Hx. }
        change (drop n s) with (drop (S n) (c :: s)).
        pose proof (take_drop (S n) (c :: s)) as Hsplit.
        rewrite (take_S_r _ _ _ Hx) in Hsplit.
        rewrite <- Hsplit at 1.
        apply (rewritten_repl _ _ _ _ _ _ _ _ ns).
        -- rewrite Hsplit. exact Hm.
        -- rewrite Ht, length_app, length_take_le by (simpl; lia). simpl. lia.
        -- apply IH. rewrite length_drop. simpl. lia.
      * apply rewritten_keep; [by apply match_len_None|].
        apply IH. lia.
Qed.

Lemma rewritten_weaken qs repl (miss1 miss2 : option ascii -> text -> Prop) prev s out :
  (forall p x, miss1 p x -> miss2 p x) ->
  rewritten qs repl miss1 prev s out -> rewritten qs repl miss2 prev s out.
Proof.
  intros Hw H. induction H.
  - constructor.
  - constructor; auto.
  - econstructor; eauto.
Qed.



(** On a text with no match, [sub] changes nothing. *)
Lemma sub_from_clean ps repl s : forall prev,
  clean ps prev s -> sub_from ps repl 0 prev s = s.
Proof.
  induction s as [|c s IH]; intros prev H; simpl in H; destruct H as [Hh H].
  - simpl. unfold match_len. apply match_here_None in Hh. rewrite Hh. reflexivity.
  - simpl. unfold match_len. apply match_here_None in Hh. rewrite Hh. simpl.
    f_equal. by apply IH.
Qed.

End SubFacts.

Section OutputClean.
Import Re ReSpec.
Variables (ps qs : pattern) (repl : text).
Hypothesis Hmin : 1 <= min_len ps.
Hypothesis Hsealed : sealed ps repl.
Hypothesis Hctx : has_boundary ps = false \/ (bordered ps /\ bordered qs).

Lemma ctx_after_nil prev : ctx_after prev [] = prev.
Proof. reflexivity. Qed.

Lemma ctx_after_cons prev c w : ctx_after prev (c :: w) = ctx_after (Some c) w.
Proof.
  unfold ctx_after. destruct w as [|x w]; [reflexivity|].
  rewrite last_cons_cons. destruct (last (x :: w)) eqn:E; [reflexivity|].
  apply last_None in E. discriminate.
Qed.

(** A piece of the output made of characters of the alphabet is a piece
    of the input, and what follows it is the same character, or a match
    of [qs] that was replaced. *)
Lemma prefix_transfer miss prev s out :
  rewritten qs repl miss prev s out ->
  forall w tail, out = w ++ tail -> Forall (fun c => alphabet ps c = true) w ->
  exists tail', s = w ++ tail' /\
    (head tail = head tail' \/ exists ns, matches qs (ctx_after prev w) tail' ns).
Proof.
  induction 1 as [prev|prev c s out Hm Hr IH|prev wq c rest out ns Hm Ht Hr IH];
    intros w tail Hout Hall.
  - symmetry in Hout. apply app_eq_nil in Hout as [-> ->]. exists []. auto.
  - destruct w as [|c' w]; simpl in Hout.
    + subst tail. exists (c :: s). auto.
    + injection Hout as <- Hout. apply Forall_cons in Hall as [_ Hall].
      destruct (IH w tail Hout Hall) as (tail' & -> & Hnext).
      exists tail'. split; [reflexivity|]. rewrite ctx_after_cons. exact Hnext.
  - destruct w as [|c' w]; simpl in Hout.
    + subst tail. exists ((wq ++ [c]) ++ rest). split; [reflexivity|].
      right. exists ns. exact Hm.
    + exfalso. destruct Hsealed as ((o & Ho & Hao) & _).
      apply head_Some in Ho as [r' Hr']. rewrite Hr' in Hout. simpl in Hout.
      injection Hout as <- _. apply Forall_cons in Hall as [Hc _]. congruence.
Qed.

(** No match begins inside the replacement text. *)
Lemma blocked pre post y prev :
  repl = pre ++ post -> post <> [] -> ~ hit ps prev (post ++ y).
Proof.
  intros Hrepl Hne [ns Hm].
  destruct Hsealed as (_ & (z & Hz & Haz) & (a & lo & hi & Hin & Hlo & Hout)).
  pose proof (matches_alphabet _ _ _ _ Hm) as Hall.
  assert (last post = Some z) as Hzp.
  { rewrite Hrepl, last_app in Hz. destruct (last post) as [c|] eqn:E; [exact Hz|].
    apply last_None in E. contradiction. }
  apply last_Some in Hzp as [post' ->].
  assert (total ns <= length post') as Hn.
  { destruct (decide (total ns <= length post')) as [|Hgt]; [assumption|exfalso].
    assert (z ∈ take (total ns) ((post' ++ [z]) ++ y)) as Hzin.
    { apply elem_of_take. exists (length post'). split; [|lia].
      rewrite <- app_assoc. apply list_lookup_middle. reflexivity. }
    rewrite Forall_forall in Hall. specialize (Hall z Hzin). congruence. }
  destruct (matches_required _ _ _ _ _ _ _ Hin Hlo Hm) as (c & Hc & Hac).
  rewrite <- app_assoc, take_app_le in Hc by exact Hn.
  assert (c ∈ repl) as Hcr.
  { rewrite Hrepl. apply elem_of_app. right. apply elem_of_app. left.
    apply elem_of_take in Hc as (i & Hi & _). eapply list_elem_of_lookup_2. exact Hi. }
  rewrite Forall_forall in Hout. specialize (Hout c Hcr). congruence.
Qed.

Lemma clean_through post : forall prev out,
  (exists pre, repl = pre ++ post) ->
  clean ps (ctx_after prev post) out -> clean ps prev (post ++ out).
Proof.
  induction post as [|x post IH]; intros prev out [pre Hpre] Hc.
  - exact Hc.
  - simpl. split.
    + apply (blocked pre (x :: post) out prev Hpre). discriminate.
    + apply IH.
      * exists (pre ++ [x]). rewrite <- app_assoc. exact Hpre.
      * rewrite ctx_after_cons in Hc. exact Hc.
Qed.

(** The output of the substitution has no match of [ps], when the input
    had none where a character was kept. *)
Lemma rewritten_clean prev s out :
  rewritten qs repl (fun p x => ~ hit ps p x) prev s out ->
  forall prev_out, start_ok ps prev prev_out s -> clean ps prev_out out.
Proof.
  induction 1 as [prev|prev c s out Hmiss Hr IH|prev wq c rest out nsq Hq Ht Hr IH];
    intros prev_out Hstart.
  - simpl. split; [|exact I]. intros [ns Hm].
    pose proof (matches_min_len _ _ _ _ Hm). pose proof (matches_length _ _ _ _ Hm).
    simpl in *. lia.
  - simpl. split.
    + intros [ns Hm]. apply Hmiss. exists ns.
      pose proof (matches_min_len _ _ _ _ Hm) as Hn1.
      pose proof (matches_length _ _ _ _ Hm) as Hn2.
      pose proof (matches_alphabet _ _ _ _ Hm) as Hall.
      set (n := total ns) in *.
      destruct (prefix_transfer _ prev (c :: s) (c :: out)
                  (rewritten_keep _ _ _ _ _ _ _ Hmiss Hr)
                  (take n (c :: out)) (drop n (c :: out))
                  (eq_sym (take_drop n (c :: out))) Hall) as (tail' & Hs & Hnext).
      assert (length (take n (c :: out)) = n) as Hlen by (apply length_take_le; exact Hn2).
      assert (take n (c :: s) = take n (c :: out)) as Htake.
      { rewrite Hs. apply take_app_length'. by rewrite Hlen. }
      apply (matches_transfer ps prev_out (c :: out)); auto.
      intros Hb. fold n. destruct Hctx as [Hf|[HP HQ]]; [congruence|].
      destruct (HP _ _ _ Hm) as (Hp0 & Hh & Hl & Hx). fold n in Hl, Hx.
      split.
      * destruct Hstart as [Hf|[Heq|Hns]]; [congruence|by symmetry|].
        simpl in Hns, Hh. congruence.
      * assert ((c :: out) !! n = head (drop n (c :: out))) as E1.
        { rewrite head_lookup, lookup_drop. f_equal. lia. }
        assert ((c :: s) !! n = head tail') as E2.
        { rewrite Hs, head_lookup.
          rewrite lookup_app_r by (rewrite Hlen; lia). rewrite Hlen. f_equal. lia. }
        rewrite E1, E2. destruct Hnext as [->|[nsq Hq]]; [reflexivity|exfalso].
        destruct (HQ _ _ _ Hq) as (Hq0 & _).
        assert (ctx_after prev (take n (c :: out)) = before prev_out (c :: out) n) as Ec.
        { unfold ctx_after. rewrite last_lookup, Hlen.
          destruct n as [|k]; [lia|]. simpl pred.
          rewrite lookup_take_lt by lia. simpl.
          destruct (lookup_lt_is_Some_2 (c :: out) k ltac:(lia)) as [x Hx'].
          rewrite Hx'. reflexivity. }
        rewrite Ec in Hq0. congruence.
    + apply IH. right. left. reflexivity.
  - destruct Hsealed as (_ & (z & Hz & _) & _).
    apply clean_through; [by exists []|].
    unfold ctx_after. rewrite Hz. apply IH.
    destruct Hctx as [Hf|[_ HQ]]; [by left|right; right].
    destruct (HQ _ _ _ Hq) as (_ & _ & _ & Hx).
    rewrite Ht in Hx. rewrite lookup_app_r in Hx by lia.
    rewrite Nat.sub_diag in Hx. by rewrite head_lookup.
Qed.

End OutputClean.

Section SubClean.
Import Re ReSpec.

(** After [sub] with a pattern, the text has no match of that pattern
    left. *)
Lemma sub_clean_self ps repl s :
  1 <= min_len ps -> sealed ps repl ->
  has_boundary ps = false \/ bordered ps ->
  clean ps None (sub ps repl s).
Proof.
  intros Hmin Hs Hctx. unfold sub.
  apply (rewritten_clean ps ps repl Hmin Hs) with (prev := None) (s := s).
  - destruct Hctx; auto.
  - eapply rewritten_weaken; [|apply (sub_from_rewritten ps repl Hmin (length s)); lia].
    intros p x H. by apply match_here_None.
  - right. left. reflexivity.
Qed.


Lemma sub_fixed ps repl s : clean ps None s -> sub ps repl s = s.
Proof. apply sub_from_clean. Qed.

(** A text has no match exactly when [re.search] finds none. *)
Lemma search_from_None ps s : forall prev pos,
  search_from ps prev s pos = None <-> clean ps prev s.
Proof.
  induction s as [|c s IH]; intros prev pos; simpl.
  - rewrite <- match_here_None. destruct (match_here ps prev []); split; try tauto.
    + discriminate.
    + intros [H _]. discriminate.
  - rewrite <- match_here_None. destruct (match_here ps prev (c :: s)).
    + split; [discriminate|]. intros [H _]. discriminate.
    + rewrite IH. tauto.
Qed.

Lemma search_None ps s : search ps s = None <-> clean ps None s.
Proof. apply search_from_None. Qed.





End SubClean.

(* --------------------------------------------------------------------- *)
(** *** The guardrail of autonomousclaims.py                              *)
(* --------------------------------------------------------------------- *)

Section Guardrail.
Import Re ReSpec AutonomousClaims.









End Guardrail.


(* --------------------------------------------------------------------- *)
(** *** The guarded agent of Production-Ready.py                          *)
(* --------------------------------------------------------------------- *)

Section GuardedAgent.
Import ProductionReady.
Context {W : Type}.
Variable provider : request -> W -> outcome text * W.
Variable now : W -> text * W.
Variable api_key : option text.

Lemma production_email_sealed : ReSpec.sealed email_pattern REDACTED_EMAIL.
Proof.
  split; [eexists; split; [reflexivity|reflexivity]|].
  split; [eexists; split; [reflexivity|reflexivity]|].
  exists (Re.Set_ [Re.Lit "@"]), 1, (Some 1). split; [simpl; tauto|]. split; [lia|].
  vm_compute. repeat constructor.
Qed.

(** The decorator's substitution leaves no address. *)
Lemma guardrail_clean result :
  Re.search email_pattern (Re.sub email_pattern REDACTED_EMAIL result) = None.
Proof.
  apply search_None. apply sub_clean_self.
  - vm_compute. lia.
  - exact production_email_sealed.
  - by left.
Qed.

Lemma start_span_runs (self : Tracer.t) name input_data (e : env (process W)) :
  exists self' e',
    start_span now self name input_data e
      = (Returned (self', Z.of_nat (length (Tracer.spans self')) - 1)%Z, e') /\
    1 <= length (Tracer.spans self') /\
    CACHE_STORE (world e') = CACHE_STORE (world e).
Proof.
  unfold start_span, bind, isoformat_now.
  destruct (now (outside (world e))) as [stamp w'].
  exists (Tracer.Make (Tracer.trace_id self)
            (Tracer.spans self ++
             [ {| trace_id := Tracer.trace_id self; span_name := name;
                  start_time := stamp; input := input_data; status := RUNNING;
                  end_time := None; output := None |} ])).
  eexists. split; [reflexivity|]. split; [|reflexivity].
  simpl. rewrite length_app. simpl. lia.
Qed.

Lemma end_span_last (self : Tracer.t) output_data (e : env (process W)) :
  1 <= length (Tracer.spans self) ->
  exists self' e',
    end_span now self (Z.of_nat (length (Tracer.spans self)) - 1) output_data e
      = (Returned self', e') /\
    CACHE_STORE (world e') = CACHE_STORE (world e).
Proof.
  intros Hlen.
  destruct (end_span_in_range now self (Z.of_nat (length (Tracer.spans self)) - 1)
              output_data e ltac:(lia)) as (i & s & stamp & e' & _ & _ & Hend & _ & Hc).
  eexists _, e'. split; [exact Hend|exact Hc].
Qed.

Lemma ask_model_runs user_query (e : env (process W)) :
  exists response e',
    ask_model provider user_query e = (Returned response, e') /\
    CACHE_STORE (world e') = CACHE_STORE (world e).
Proof.
  unfold ask_model, create, on_outside.
  destruct (provider _ (outside (world e))) as [[response|x] w'];
    eexists _, _; split; reflexivity.
Qed.

(** The function under the decorator returns a string, the string that
    is in the cache under the query when it returns. *)
Lemma body_runs user_query (tracer : Tracer.t) (e : env (process W)) :
  exists raw tracer' e',
    secure_agent_executor_body provider now api_key user_query tracer e
      = (Returned (PStr raw, tracer'), e') /\
    CACHE_STORE (world e') !! user_query = Some raw.
Proof.
  unfold secure_agent_executor_body.
  destruct (start_span_runs tracer (str "secure_agent_execution") (PStr user_query) e)
    as (tracer1 & e1 & Hstart & Hlen & Hc1).
  unfold bind at 1. rewrite Hstart.
  unfold bind at 1. unfold check_cache at 1, get_state at 1.
  destruct (CACHE_STORE (world e1) !! user_query) as [[|c cached]|] eqn:Hcache.
  - (* an empty string in the cache counts as a miss *)
    unfold bind at 1.
    assert (exists response e2,
              (if negb (has_key api_key)
               then ret (str "Sure, I can help. Contact support at admin@company.com for details.")
               else ask_model provider user_query) e1 = (Returned response, e2) /\
              CACHE_STORE (world e2) = CACHE_STORE (world e1)) as (response & e2 & -> & Hc2).
    { destruct (negb (has_key api_key)); [eexists _, _; split; reflexivity|].
      apply ask_model_runs. }
    unfold bind at 1. unfold update_cache at 1, set_state at 1.
    set (e3 := {| world := _; sent := sent e2; printed := printed e2 |}).
    destruct (end_span_last tracer1
                (PDict [ (str "source", PStr (str "llm")); (str "response", PStr response) ])
                e3 Hlen) as (tracer2 & e4 & Hend & Hc4).
    unfold bind. rewrite Hend. eexists _, _, _. split; [reflexivity|].
    rewrite Hc4. unfold e3. simpl. apply lookup_insert_eq.
  - unfold bind at 1. unfold print at 1.
    set (e2 := {| world := world e1; sent := sent e1; printed := _ |}).
    destruct (end_span_last tracer1
                (PDict [ (str "source", PStr (str "cache"));
                         (str "response", PStr (c :: cached)) ])
                e2 Hlen) as (tracer2 & e3 & Hend & Hc3).
    unfold bind. rewrite Hend. eexists _, _, _. split; [reflexivity|].
    rewrite Hc3. exact Hcache.
  - unfold bind at 1.
    assert (exists response e2,
              (if negb (has_key api_key)
               then ret (str "Sure, I can help. Contact support at admin@company.com for details.")
               else ask_model provider user_query) e1 = (Returned response, e2) /\
              CACHE_STORE (world e2) = CACHE_STORE (world e1)) as (response & e2 & -> & Hc2).
    { destruct (negb (has_key api_key)); [eexists _, _; split; reflexivity|].
      apply ask_model_runs. }
    unfold bind at 1. unfold update_cache at 1, set_state at 1.
    set (e3 := {| world := _; sent := sent e2; printed := printed e2 |}).
    destruct (end_span_last tracer1
                (PDict [ (str "source", PStr (str "llm")); (str "response", PStr response) ])
                e3 Hlen) as (tracer2 & e4 & Hend & Hc4).
    unfold bind. rewrite Hend. eexists _, _, _. split; [reflexivity|].
    rewrite Hc4. unfold e3. simpl. apply lookup_insert_eq.
Qed.

End GuardedAgent.

(** C10. Whatever the query, the tracer, the cache and the provider,
    [secure_agent_executor] returns a string in which [re.search] finds
    no e-mail address: the decorator substitutes on the cached response
    as on a fresh one.  The cache holds, under the query, the response
    as it was before the substitution. *)
Theorem executor_output_redacted {W} (provider : request -> W -> outcome text * W)
    (now : W -> text * W) (api_key : option text)
    (user_query : text) (tracer : ProductionReady.Tracer.t)
    (e : env (ProductionReady.process W)) :
  exists raw tracer' e',
    ProductionReady.secure_agent_executor provider now api_key user_query tracer e
      = (Returned (PStr (Re.sub ProductionReady.email_pattern
                           ProductionReady.REDACTED_EMAIL raw), tracer'), e') /\
    Re.search ProductionReady.email_pattern
      (Re.sub ProductionReady.email_pattern ProductionReady.REDACTED_EMAIL raw) = None /\
    ProductionReady.CACHE_STORE (world e') !! user_query = Some raw.
Proof.
  destruct (body_runs provider now api_key user_query tracer e)
    as (raw & tracer' & e1 & Hbody & Hcache).
  unfold ProductionReady.secure_agent_executor, ProductionReady.guardrail_pii.
  unfold bind at 1. rewrite Hbody.
  exists raw, tracer'.
  destruct (bool_decide (Re.sub ProductionReady.email_pattern
                           ProductionReady.REDACTED_EMAIL raw <> raw)).
  - eexists. split; [reflexivity|]. split; [apply guardrail_clean|exact Hcache].
  - eexists. split; [reflexivity|]. split; [apply guardrail_clean|exact Hcache].
Qed.

(** Without an API key the canned response goes into the cache with its
    address, and comes back redacted on the first call and on the
    second, which is served from the cache. *)
Lemma cached_response_redacted :
  let query := str "How do I reset my password?" in
  let first := ProductionReady.secure_agent_executor (Stub.always (str "unused")) Stub.clock None
                 query Stub.fresh_tracer Stub.process_start in
  exists tracer1,
    fst first = Returned (PStr (str "Sure, I can help. Contact support at [REDACTED_EMAIL] for details."),
                          tracer1) /\
    ProductionReady.CACHE_STORE (world (snd first)) !! query
      = Some (str "Sure, I can help. Contact support at admin@company.com for details.") /\
    exists tracer2,
      fst (ProductionReady.secure_agent_executor (Stub.always (str "unused")) Stub.clock None
             query tracer1 (snd first))
      = Returned (PStr (str "Sure, I can help. Contact support at [REDACTED_EMAIL] for details."),
                  tracer2).
Proof.
  eexists. split; [vm_compute; reflexivity|]. split; [vm_compute; reflexivity|].
  eexists. vm_compute. reflexivity.
Qed.

(* ===================================================================== *)
(** * Further properties of the code                                      *)
(* ===================================================================== *)

(* --------------------------------------------------------------------- *)
(** *** Tracer: a span from start to end                                  *)
(* --------------------------------------------------------------------- *)

(** X1. The handle [start_span] returns is the position of the new span.
    Ending that handle completes this span and no other: the spans that
    were there keep their place and content, the new one carries the
    name and input it was started with and the output it was ended
    with, and the line written to the trace file is that span. *)
Theorem span_round_trip {W} (now : W -> text * W) (self : ProductionReady.Tracer.t)
    (name : text) (input_data output_data : pyval) (e : env (ProductionReady.process W)) :
  exists self1 e1 self2 e2 s,
    ProductionReady.start_span now self name input_data e
      = (Returned (self1, Z.of_nat (length (ProductionReady.Tracer.spans self))), e1) /\
    ProductionReady.end_span now self1
      (Z.of_nat (length (ProductionReady.Tracer.spans self))) output_data e1
      = (Returned self2, e2) /\
    ProductionReady.Tracer.spans self2 !! length (ProductionReady.Tracer.spans self) = Some s /\
    length (ProductionReady.Tracer.spans self2)
      = S (length (ProductionReady.Tracer.spans self)) /\
    (forall i, i < length (ProductionReady.Tracer.spans self) ->
       ProductionReady.Tracer.spans self2 !! i = ProductionReady.Tracer.spans self !! i) /\
    ProductionReady.trace_id s = ProductionReady.Tracer.trace_id self /\
    ProductionReady.span_name s = name /\
    ProductionReady.input s = input_data /\
    ProductionReady.status s = ProductionReady.COMPLETED /\
    ProductionReady.output s = Some output_data /\
    ProductionReady.agent_traces (world e2)
      = ProductionReady.agent_traces (world e) ++ [s].
Proof.
  set (n := length (ProductionReady.Tracer.spans self)).
  unfold ProductionReady.start_span, bind, ProductionReady.isoformat_now.
  destruct (now (ProductionReady.outside (world e))) as [stamp w1].
  set (s0 := {| ProductionReady.trace_id := ProductionReady.Tracer.trace_id self;
                ProductionReady.span_name := name;
                ProductionReady.start_time := stamp;
                ProductionReady.input := input_data;
                ProductionReady.status := ProductionReady.RUNNING;
                ProductionReady.end_time := None;
                ProductionReady.output := None |}).
  set (self1 := ProductionReady.Tracer.Make (ProductionReady.Tracer.trace_id self)
                  (ProductionReady.Tracer.spans self ++ [s0])).
  set (e1 := {| world := ProductionReady.Process w1 _ _; sent := sent e; printed := printed e |}).
  assert (length (ProductionReady.Tracer.spans self1) = S n) as Hlen1.
  { unfold self1. simpl. rewrite length_app. simpl. fold n. lia. }
  destruct (end_span_in_range now self1 (Z.of_nat n) output_data e1)
    as (i & s & stamp2 & e2 & Hi & Hs & Hend & Htr & _).
  { rewrite Hlen1. lia. }
  assert (i = n) as ->.
  { unfold ProductionReady.list_index in Hi. rewrite Hlen1 in Hi.
    assert ((0 <=? Z.of_nat n)%Z = true) as H0 by (apply Z.leb_le; lia).
    assert ((Z.of_nat n <? Z.of_nat (S n))%Z = true) as H1 by (apply Z.ltb_lt; lia).
    rewrite H0, H1 in Hi. simpl in Hi. injection Hi as <-. apply Nat2Z.id. }
  assert (s = s0) as ->.
  { unfold self1 in Hs. simpl in Hs.
    rewrite lookup_app_r in Hs by (fold n; lia). fold n in Hs.
    rewrite Nat.sub_diag in Hs. simpl in Hs. congruence. }
  exists self1, e1. eexists _, e2, (completed s0 stamp2 output_data).
  split.
  { assert ((Z.of_nat (length (ProductionReady.Tracer.spans self ++ [s0])) - 1)%Z
            = Z.of_nat n) as Hh by (rewrite length_app; simpl; fold n; lia).
    cbn [fst snd]. rewrite Hh. reflexivity. }
  split; [exact Hend|]. simpl.
  split; [apply list_lookup_insert_eq; rewrite length_app; simpl; fold n; lia|].
  split; [rewrite length_insert, length_app; simpl; fold n; lia|].
  split.
  { intros j Hj. rewrite list_lookup_insert_ne by lia. apply lookup_app_l. fold n. exact Hj. }
  repeat (split; [reflexivity|]). exact Htr.
Qed.

(* --------------------------------------------------------------------- *)
(** *** The guarded agent: cache, gateway and trace                       *)
(* --------------------------------------------------------------------- *)

Section AgentDetail.
Import ProductionReady.
Context {W : Type}.
Variable provider : request -> W -> outcome text * W.
Variable now : W -> text * W.
Variable api_key : option text.

Lemma start_span_detail (self : Tracer.t) name input_data (e : env (process W)) :
  exists stamp w1,
    now (outside (world e)) = (stamp, w1) /\
    start_span now self name input_data e
    = (Returned (Tracer.Make (Tracer.trace_id self)
                   (Tracer.spans self ++
                    [running (Tracer.trace_id self) name stamp input_data]),
                 Z.of_nat (length (Tracer.spans self))),
       {| world := Process w1 (CACHE_STORE (world e)) (agent_traces (world e));
          sent := sent e; printed := printed e |}).
Proof.
  unfold start_span, bind, isoformat_now.
  destruct (now (outside (world e))) as [stamp w1].
  exists stamp, w1. split; [reflexivity|]. cbn [fst snd].
  assert ((Z.of_nat (length (Tracer.spans self ++
             [running (Tracer.trace_id self) name stamp input_data])) - 1)%Z
          = Z.of_nat (length (Tracer.spans self))) as Hh
    by (rewrite length_app; simpl; lia).
  unfold running in *. rewrite Hh. reflexivity.
Qed.

Lemma list_index_nat len i : i < len -> list_index len (Z.of_nat i) = Some i.
Proof.
  intros H. unfold list_index.
  assert ((0 <=? Z.of_nat i)%Z = true) as -> by (apply Z.leb_le; lia).
  assert ((Z.of_nat i <? Z.of_nat len)%Z = true) as -> by (apply Z.ltb_lt; lia).
  simpl. by rewrite Nat2Z.id.
Qed.

Lemma insert_last {A} (l : list A) (x y : A) : <[length l := y]> (l ++ [x]) = l ++ [y].
Proof.
  rewrite <- (Nat.add_0_r (length l)). rewrite insert_app_r. reflexivity.
Qed.

Lemma end_span_appended tid spans s0 output_data (e : env (process W)) :
  exists stamp w1,
    now (outside (world e)) = (stamp, w1) /\
    end_span now (Tracer.Make tid (spans ++ [s0])) (Z.of_nat (length spans)) output_data e
    = (Returned (Tracer.Make tid (spans ++ [completed s0 stamp output_data])),
       {| world := Process w1 (CACHE_STORE (world e))
                     (agent_traces (world e) ++ [completed s0 stamp output_data]);
          sent := sent e;
          printed := printed e ++ [str "   [Trace] Logged span: " ++ span_name s0] |}).
Proof.
  unfold end_span. cbn [Tracer.spans Tracer.trace_id].
  rewrite list_index_nat by (rewrite length_app; simpl; lia).
  assert ((spans ++ [s0]) !! length spans = Some s0) as ->.
  { rewrite lookup_app_r by lia. by rewrite Nat.sub_diag. }
  unfold bind, isoformat_now.
  destruct (now (outside (world e))) as [stamp w1].
  exists stamp, w1. split; [reflexivity|].
  rewrite <- (insert_last spans s0 (completed s0 stamp output_data)).
  reflexivity.
Qed.

(** What the function under the decorator does when the cache has an
    answer. *)
Lemma body_hit user_query (tracer : Tracer.t) (e : env (process W)) c rest :
  CACHE_STORE (world e) !! user_query = Some (c :: rest) ->
  exists stamp w1 stamp2 w2,
    now (outside (world e)) = (stamp, w1) /\
    now w1 = (stamp2, w2) /\
    let s := completed (running (Tracer.trace_id tracer) (str "secure_agent_execution")
                          stamp (PStr user_query))
               stamp2 (span_output (str "cache") (c :: rest)) in
    secure_agent_executor_body provider now api_key user_query tracer e
    = (Returned (PStr (c :: rest),
                 Tracer.Make (Tracer.trace_id tracer) (Tracer.spans tracer ++ [s])),
       {| world := Process w2 (CACHE_STORE (world e)) (agent_traces (world e) ++ [s]);
          sent := sent e;
          printed := (printed e ++ [str "   [Cache] Hit! Returning cached response."])
                       ++ [str "   [Trace] Logged span: secure_agent_execution"] |}).
Proof.
  intros Hc. unfold secure_agent_executor_body.
  destruct (start_span_detail tracer (str "secure_agent_execution") (PStr user_query) e)
    as (stamp & w1 & Hn1 & Hstart).
  unfold bind at 1. rewrite Hstart.
  unfold bind at 1. unfold check_cache at 1, get_state at 1.
  cbn [world CACHE_STORE]. rewrite Hc.
  unfold bind at 1. unfold print at 1. cbn [world sent printed].
  destruct (end_span_appended (Tracer.trace_id tracer) (Tracer.spans tracer)
              (running (Tracer.trace_id tracer) (str "secure_agent_execution")
                 stamp (PStr user_query))
              (span_output (str "cache") (c :: rest))
              {| world := Process w1 (CACHE_STORE (world e)) (agent_traces (world e));
                 sent := sent e;
                 printed := printed e ++ [str "   [Cache] Hit! Returning cached response."] |})
    as (stamp2 & w2 & Hn2 & Hend).
  exists stamp, w1, stamp2, w2. split; [exact Hn1|]. split; [exact Hn2|].
  cbv zeta. unfold bind. unfold span_output in Hend. rewrite Hend. reflexivity.
Qed.

Lemma ask_model_detail user_query (e : env (process W)) :
  exists o w',
    provider (agent_request user_query) (outside (world e)) = (o, w') /\
    ask_model provider user_query e
    = (Returned (match o with
                 | Returned response => response
                 | Raised x => str "Error: " ++ exn_message x
                 end),
       {| world := Process w' (CACHE_STORE (world e)) (agent_traces (world e));
          sent := sent e ++ [agent_request user_query]; printed := printed e |}).
Proof.
  unfold ask_model, create, on_outside, agent_request.
  destruct (provider _ (outside (world e))) as [[response|x] w'];
    eexists _, _; split; reflexivity.
Qed.

(** What the function under the decorator does when the cache has
    nothing to serve, whatever way the response is obtained. *)
Lemma body_miss user_query (tracer : Tracer.t) (e : env (process W)) :
  cache_miss (CACHE_STORE (world e) !! user_query) ->
  exists stamp w1,
    now (outside (world e)) = (stamp, w1) /\
    forall response e2,
      (if negb (has_key api_key) then ret canned_response
       else ask_model provider user_query)
        {| world := Process w1 (CACHE_STORE (world e)) (agent_traces (world e));
           sent := sent e; printed := printed e |}
      = (Returned response, e2) ->
      exists stamp2 w2,
        now (outside (world e2)) = (stamp2, w2) /\
        let s := completed (running (Tracer.trace_id tracer) (str "secure_agent_execution")
                              stamp (PStr user_query))
                   stamp2 (span_output (str "llm") response) in
        secure_agent_executor_body provider now api_key user_query tracer e
        = (Returned (PStr response,
                     Tracer.Make (Tracer.trace_id tracer) (Tracer.spans tracer ++ [s])),
           {| world := Process w2 (<[user_query := response]> (CACHE_STORE (world e2)))
                         (agent_traces (world e2) ++ [s]);
              sent := sent e2;
              printed := printed e2 ++ [str "   [Trace] Logged span: secure_agent_execution"] |}).
Proof.
  intros Hmiss.
  destruct (start_span_detail tracer (str "secure_agent_execution") (PStr user_query) e)
    as (stamp & w1 & Hn1 & Hstart).
  exists stamp, w1. split; [exact Hn1|]. intros response e2 Hresp.
  destruct (end_span_appended (Tracer.trace_id tracer) (Tracer.spans tracer)
              (running (Tracer.trace_id tracer) (str "secure_agent_execution")
                 stamp (PStr user_query))
              (span_output (str "llm") response)
              {| world := Process (outside (world e2))
                            (<[user_query := response]> (CACHE_STORE (world e2)))
                            (agent_traces (world e2));
                 sent := sent e2; printed := printed e2 |})
    as (stamp2 & w2 & Hn2 & Hend).
  exists stamp2, w2. split; [exact Hn2|]. cbv zeta.
  unfold secure_agent_executor_body.
  unfold bind at 1. rewrite Hstart.
  unfold bind at 1. unfold check_cache at 1, get_state at 1.
  cbn [world CACHE_STORE].
  unfold span_output in Hend.
  destruct (CACHE_STORE (world e) !! user_query) as [[|c rest]|]; [|destruct Hmiss|].
  - unfold bind at 1. unfold canned_response in Hresp. rewrite Hresp.
    unfold bind at 1. unfold update_cache at 1, set_state at 1.
    unfold bind. rewrite Hend. reflexivity.
  - unfold bind at 1. unfold canned_response in Hresp. rewrite Hresp.
    unfold bind at 1. unfold update_cache at 1, set_state at 1.
    unfold bind. rewrite Hend. reflexivity.
Qed.

(** The decorator on a function that returned a string: the string goes
    through the substitution, and only the printed lines can change. *)
Lemma guardrail_after {S} (func : M (process W) (pyval * S)) (e : env (process W))
    raw (objects : S) e1 :
  func e = (Returned (PStr raw, objects), e1) ->
  exists e',
    guardrail_pii func e
      = (Returned (PStr (Re.sub email_pattern REDACTED_EMAIL raw), objects), e') /\
    world e' = world e1 /\ sent e' = sent e1.
Proof.
  intros H. unfold guardrail_pii. unfold bind at 1. rewrite H.
  destruct (bool_decide (Re.sub email_pattern REDACTED_EMAIL raw <> raw));
    eexists; (split; [reflexivity|split; reflexivity]).
Qed.

Lemma guardrail_settled result : 
  Re.sub email_pattern REDACTED_EMAIL (Re.sub email_pattern REDACTED_EMAIL result)
  = Re.sub email_pattern REDACTED_EMAIL result.
Proof. apply sub_fixed. apply search_None. apply guardrail_clean. Qed.

End AgentDetail.

(** X2. The decorator applied twice does what it does applied once, to
    the value returned, to the world and to the lines printed: the second
    pass finds nothing to substitute and raises no alert.  A value that
    is no string and an exception pass through both. *)
Theorem guardrail_pii_twice {W S} (func : M (ProductionReady.process W) (pyval * S))
    (e : env (ProductionReady.process W)) :
  ProductionReady.guardrail_pii (ProductionReady.guardrail_pii func) e
  = ProductionReady.guardrail_pii func e.
Proof.
  unfold ProductionReady.guardrail_pii at 1. unfold bind at 1.
  unfold ProductionReady.guardrail_pii, bind.
  destruct (func e) as [[[result objects]|x] e0]; [|reflexivity].
  destruct result; try reflexivity.
  destruct (bool_decide (Re.sub ProductionReady.email_pattern
                           ProductionReady.REDACTED_EMAIL s <> s)); cbn [print ret].
  - rewrite guardrail_settled. rewrite bool_decide_eq_false_2 by (intros H; by apply H).
    reflexivity.
  - rewrite guardrail_settled. rewrite bool_decide_eq_false_2 by (intros H; by apply H).
    reflexivity.
Qed.

(** X3. When the cache holds a non-empty answer for the query,
    [secure_agent_executor] sends nothing to the gateway and leaves the
    cache as it is.  It returns the cached answer after the
    substitution, and the one line it adds to the trace file has the
    source [cache] and the cached answer as it is stored. *)
Theorem cache_hit_skips_gateway {W} (provider : request -> W -> outcome text * W)
    (now : W -> text * W) (api_key : option text)
    (user_query : text) (tracer : ProductionReady.Tracer.t)
    (e : env (ProductionReady.process W)) (c : ascii) (rest : text) :
  ProductionReady.CACHE_STORE (world e) !! user_query = Some (c :: rest) ->
  exists tracer' e' s,
    ProductionReady.secure_agent_executor provider now api_key user_query tracer e
      = (Returned (PStr (Re.sub ProductionReady.email_pattern
                           ProductionReady.REDACTED_EMAIL (c :: rest)), tracer'), e') /\
    sent e' = sent e /\
    ProductionReady.CACHE_STORE (world e') = ProductionReady.CACHE_STORE (world e) /\
    ProductionReady.agent_traces (world e')
      = ProductionReady.agent_traces (world e) ++ [s] /\
    ProductionReady.output s = Some (span_output (str "cache") (c :: rest)).
Proof.
  intros Hc.
  destruct (body_hit provider now api_key user_query tracer e c rest Hc)
    as (stamp & w1 & stamp2 & w2 & _ & _ & Hbody).
  cbv zeta in Hbody.
  destruct (guardrail_after _ _ _ _ _ Hbody) as (e' & Hrun & Hw & Hs).
  eexists _, e', _. split; [exact Hrun|].
  rewrite Hs, Hw. cbn [world sent ProductionReady.CACHE_STORE ProductionReady.agent_traces].
  repeat (split; [reflexivity|]). reflexivity.
Qed.

Lemma cache_hit_skips_gateway_witness :
  ProductionReady.CACHE_STORE (world Samples.warm) !! Samples.warm_query
    = Some ("W"%char :: str "rite to help@company.com.") /\
  exists tracer' e' s,
    ProductionReady.secure_agent_executor (Stub.always (str "unused")) Stub.clock Stub.key
      Samples.warm_query Stub.fresh_tracer Samples.warm
      = (Returned (PStr (Re.sub ProductionReady.email_pattern
                           ProductionReady.REDACTED_EMAIL
                           ("W"%char :: str "rite to help@company.com.")), tracer'), e') /\
    sent e' = sent Samples.warm /\
    ProductionReady.CACHE_STORE (world e') = ProductionReady.CACHE_STORE (world Samples.warm) /\
    ProductionReady.agent_traces (world e')
      = ProductionReady.agent_traces (world Samples.warm) ++ [s] /\
    ProductionReady.output s
      = Some (span_output (str "cache") ("W"%char :: str "rite to help@company.com.")).
Proof.
  assert (ProductionReady.CACHE_STORE (world Samples.warm) !! Samples.warm_query
          = Some ("W"%char :: str "rite to help@company.com.")) as H
    by (vm_compute; reflexivity).
  split; [exact H|].
  exact (cache_hit_skips_gateway (Stub.always (str "unused")) Stub.clock Stub.key
           Samples.warm_query Stub.fresh_tracer Samples.warm _ _ H).
Defined.

(** X4. With an API key and nothing in the cache for the query, a
    failing gateway call does not fail the agent: it returns the text
    [Error: ] followed by the message of the exception, after the
    substitution, has sent one request, and has stored that text in the
    cache under the query.  A later call with the same query is served
    from the cache: it returns the same text and sends no request. *)
Theorem gateway_failure_cached {W} (provider : request -> W -> outcome text * W)
    (now : W -> text * W) (api_key : option text)
    (user_query : text) (tracer : ProductionReady.Tracer.t)
    (e : env (ProductionReady.process W)) (x : exn) :
  ProductionReady.has_key api_key = true ->
  cache_miss (ProductionReady.CACHE_STORE (world e) !! user_query) ->
  (forall w, fst (provider (agent_request user_query) w) = Raised x) ->
  let failure := str "Error: " ++ exn_message x in
  exists tracer' e',
    ProductionReady.secure_agent_executor provider now api_key user_query tracer e
      = (Returned (PStr (Re.sub ProductionReady.email_pattern
                           ProductionReady.REDACTED_EMAIL failure), tracer'), e') /\
    sent e' = sent e ++ [agent_request user_query] /\
    ProductionReady.CACHE_STORE (world e')
      = <[user_query := failure]> (ProductionReady.CACHE_STORE (world e)) /\
    forall later : ProductionReady.Tracer.t,
      exists tracer'' e'',
        ProductionReady.secure_agent_executor provider now api_key user_query later e'
          = (Returned (PStr (Re.sub ProductionReady.email_pattern
                               ProductionReady.REDACTED_EMAIL failure), tracer''), e'') /\
        sent e'' = sent e'.
Proof.
  intros Hkey Hmiss Hdown failure.
  destruct (body_miss provider now api_key user_query tracer e Hmiss)
    as (stamp & w1 & Hn1 & Hbody).
  rewrite Hkey in Hbody. cbn [negb] in Hbody.
  set (e1 := {| world := ProductionReady.Process w1 (ProductionReady.CACHE_STORE (world e))
                           (ProductionReady.agent_traces (world e));
                sent := sent e; printed := printed e |}) in Hbody.
  destruct (ask_model_detail provider user_query e1) as (o & w' & Hp & Hask).
  pose proof (Hdown (ProductionReady.outside (world e1))) as Hx.
  rewrite Hp in Hx. cbn [fst] in Hx. subst o.
  destruct (Hbody _ _ Hask) as (stamp2 & w2 & Hn2 & Hrun). cbv zeta in Hrun.
  destruct (guardrail_after _ _ _ _ _ Hrun) as (e' & Hexec & Hw & Hs).
  eexists _, e'. split; [exact Hexec|].
  split; [rewrite Hs; reflexivity|].
  split; [rewrite Hw; reflexivity|].
  intros later.
  assert (ProductionReady.CACHE_STORE (world e') !! user_query
          = Some ("E"%char :: str "rror: " ++ exn_message x)) as Hhit.
  { rewrite Hw. cbn [world ProductionReady.CACHE_STORE]. apply lookup_insert_eq. }
  destruct (body_hit provider now api_key user_query later e' _ _ Hhit)
    as (stamp3 & w3 & stamp4 & w4 & _ & _ & Hbody2).
  cbv zeta in Hbody2.
  destruct (guardrail_after _ _ _ _ _ Hbody2) as (e'' & Hexec2 & Hw2 & Hs2).
  eexists _, e''. split; [exact Hexec2|]. rewrite Hs2. reflexivity.
Qed.

Lemma gateway_failure_cached_witness :
  ProductionReady.has_key Stub.key = true /\
  cache_miss (ProductionReady.CACHE_STORE (world Stub.process_start) !! Samples.warm_query) /\
  (forall w, fst (Samples.down (agent_request Samples.warm_query) w)
             = Raised (GatewayError (str "connection timed out"))) /\
  let failure := str "Error: " ++ exn_message (GatewayError (str "connection timed out")) in
  exists tracer' e',
    ProductionReady.secure_agent_executor Samples.down Stub.clock Stub.key
      Samples.warm_query Stub.fresh_tracer Stub.process_start
      = (Returned (PStr (Re.sub ProductionReady.email_pattern
                           ProductionReady.REDACTED_EMAIL failure), tracer'), e') /\
    sent e' = sent Stub.process_start ++ [agent_request Samples.warm_query] /\
    ProductionReady.CACHE_STORE (world e')
      = <[Samples.warm_query := failure]> (ProductionReady.CACHE_STORE (world Stub.process_start)) /\
    forall later : ProductionReady.Tracer.t,
      exists tracer'' e'',
        ProductionReady.secure_agent_executor Samples.down Stub.clock Stub.key
          Samples.warm_query later e'
          = (Returned (PStr (Re.sub ProductionReady.email_pattern
                               ProductionReady.REDACTED_EMAIL failure), tracer''), e'') /\
        sent e'' = sent e'.
Proof.
  assert (ProductionReady.has_key Stub.key = true) as H1 by reflexivity.
  assert (cache_miss (ProductionReady.CACHE_STORE (world Stub.process_start)
                        !! Samples.warm_query)) as H2 by (vm_compute; exact I).
  assert (forall w, fst (Samples.down (agent_request Samples.warm_query) w)
                    = Raised (GatewayError (str "connection timed out"))) as H3
    by (intros w; reflexivity).
  split; [exact H1|]. split; [exact H2|]. split; [exact H3|].
  exact (gateway_failure_cached Samples.down Stub.clock Stub.key Samples.warm_query
           Stub.fresh_tracer Stub.process_start _ H1 H2 H3).
Defined.

Section AgentCalls.
Import ProductionReady.
Context {W : Type}.
Variable provider : request -> W -> outcome text * W.
Variable now : W -> text * W.
Variable api_key : option text.

(** The response on a miss: made up without a key, else asked for with
    one request. *)
Lemma respond_detail user_query (e : env (process W)) :
  exists response e2,
    (if negb (has_key api_key) then ret canned_response
     else ask_model provider user_query) e = (Returned response, e2) /\
    CACHE_STORE (world e2) = CACHE_STORE (world e) /\
    agent_traces (world e2) = agent_traces (world e) /\
    (has_key api_key = false -> response = canned_response /\ sent e2 = sent e) /\
    (has_key api_key = true -> sent e2 = sent e ++ [agent_request user_query]).
Proof.
  destruct (has_key api_key); cbn [negb].
  - destruct (ask_model_detail provider user_query e) as (o & w' & _ & ->).
    eexists _, _. split; [reflexivity|]. cbn [world sent CACHE_STORE agent_traces].
    repeat split; try reflexivity; discriminate.
  - eexists _, _. split; [reflexivity|].
    repeat split; try reflexivity; discriminate.
Qed.

End AgentCalls.

(** X5. Every call of [secure_agent_executor] adds exactly one span to
    the tracer and exactly one record to the trace file, the same one:
    it is named [secure_agent_execution], has the query as input, is
    COMPLETED, and its output holds the response as it was before the
    substitution, with the source [cache] or [llm].  The decorator
    redacts what is returned, not what is traced. *)
Theorem trace_keeps_raw_response {W} (provider : request -> W -> outcome text * W)
    (now : W -> text * W) (api_key : option text)
    (user_query : text) (tracer : ProductionReady.Tracer.t)
    (e : env (ProductionReady.process W)) :
  exists raw source s tracer' e',
    ProductionReady.secure_agent_executor provider now api_key user_query tracer e
      = (Returned (PStr (Re.sub ProductionReady.email_pattern
                           ProductionReady.REDACTED_EMAIL raw), tracer'), e') /\
    ProductionReady.Tracer.spans tracer' = ProductionReady.Tracer.spans tracer ++ [s] /\
    ProductionReady.agent_traces (world e')
      = ProductionReady.agent_traces (world e) ++ [s] /\
    ProductionReady.span_name s = str "secure_agent_execution" /\
    ProductionReady.input s = PStr user_query /\
    ProductionReady.status s = ProductionReady.COMPLETED /\
    ProductionReady.output s = Some (span_output source raw) /\
    (source = str "cache" \/ source = str "llm").
Proof.
  destruct (ProductionReady.CACHE_STORE (world e) !! user_query) as [[|c rest]|] eqn:Hc.
  - destruct (body_miss provider now api_key user_query tracer e) as (stamp & w1 & _ & Hbody);
      [rewrite Hc; exact I|].
    destruct (respond_detail provider api_key user_query
                {| world := ProductionReady.Process w1
                              (ProductionReady.CACHE_STORE (world e))
                              (ProductionReady.agent_traces (world e));
                   sent := sent e; printed := printed e |})
      as (response & e2 & Hresp & _ & Htr & _).
    destruct (Hbody _ _ Hresp) as (stamp2 & w2 & _ & Hrun). cbv zeta in Hrun.
    destruct (guardrail_after _ _ _ _ _ Hrun) as (e' & Hexec & Hw & _).
    exists response, (str "llm"). eexists _, _, e'. split; [exact Hexec|].
    rewrite Hw. cbn [world ProductionReady.agent_traces ProductionReady.Tracer.spans].
    rewrite Htr. cbn [world ProductionReady.agent_traces].
    repeat (split; [reflexivity|]). by right.
  - destruct (body_hit provider now api_key user_query tracer e c rest Hc)
      as (stamp & w1 & stamp2 & w2 & _ & _ & Hrun). cbv zeta in Hrun.
    destruct (guardrail_after _ _ _ _ _ Hrun) as (e' & Hexec & Hw & _).
    exists (c :: rest), (str "cache"). eexists _, _, e'. split; [exact Hexec|].
    rewrite Hw. cbn [world ProductionReady.agent_traces ProductionReady.Tracer.spans].
    repeat (split; [reflexivity|]). by left.
  - destruct (body_miss provider now api_key user_query tracer e) as (stamp & w1 & _ & Hbody);
      [rewrite Hc; exact I|].
    destruct (respond_detail provider api_key user_query
                {| world := ProductionReady.Process w1
                              (ProductionReady.CACHE_STORE (world e))
                              (ProductionReady.agent_traces (world e));
                   sent := sent e; printed := printed e |})
      as (response & e2 & Hresp & _ & Htr & _).
    destruct (Hbody _ _ Hresp) as (stamp2 & w2 & _ & Hrun). cbv zeta in Hrun.
    destruct (guardrail_after _ _ _ _ _ Hrun) as (e' & Hexec & Hw & _).
    exists response, (str "llm"). eexists _, _, e'. split; [exact Hexec|].
    rewrite Hw. cbn [world ProductionReady.agent_traces ProductionReady.Tracer.spans].
    rewrite Htr. cbn [world ProductionReady.agent_traces].
    repeat (split; [reflexivity|]). by right.
Qed.

(** X6. When the cache has nothing to serve for the query (no entry, or
    an empty one), [secure_agent_executor] stores the response under the
    bare query, as it was before the substitution, and touches no other
    entry.  Without an API key the response is the canned one and no
    request is sent; with a key exactly one request is sent, the query
    followed by the instruction to include an e-mail address. *)
Theorem cache_miss_fills_cache {W} (provider : request -> W -> outcome text * W)
    (now : W -> text * W) (api_key : option text)
    (user_query : text) (tracer : ProductionReady.Tracer.t)
    (e : env (ProductionReady.process W)) :
  cache_miss (ProductionReady.CACHE_STORE (world e) !! user_query) ->
  exists raw tracer' e',
    ProductionReady.secure_agent_executor provider now api_key user_query tracer e
      = (Returned (PStr (Re.sub ProductionReady.email_pattern
                           ProductionReady.REDACTED_EMAIL raw), tracer'), e') /\
    ProductionReady.CACHE_STORE (world e')
      = <[user_query := raw]> (ProductionReady.CACHE_STORE (world e)) /\
    (forall other, other <> user_query ->
       ProductionReady.CACHE_STORE (world e') !! other
       = ProductionReady.CACHE_STORE (world e) !! other) /\
    (ProductionReady.has_key api_key = false ->
       raw = canned_response /\ sent e' = sent e) /\
    (ProductionReady.has_key api_key = true ->
       sent e' = sent e ++ [agent_request user_query]).
Proof.
  intros Hmiss.
  destruct (body_miss provider now api_key user_query tracer e Hmiss)
    as (stamp & w1 & _ & Hbody).
  destruct (respond_detail provider api_key user_query
              {| world := ProductionReady.Process w1
                            (ProductionReady.CACHE_STORE (world e))
                            (ProductionReady.agent_traces (world e));
                 sent := sent e; printed := printed e |})
    as (response & e2 & Hresp & Hcache & _ & Hnokey & Hkey).
  destruct (Hbody _ _ Hresp) as (stamp2 & w2 & _ & Hrun). cbv zeta in Hrun.
  destruct (guardrail_after _ _ _ _ _ Hrun) as (e' & Hexec & Hw & Hs).
  exists response. eexists _, e'. split; [exact Hexec|].
  rewrite Hw, Hs. cbn [world sent ProductionReady.CACHE_STORE].
  rewrite Hcache. cbn [world ProductionReady.CACHE_STORE].
  split; [reflexivity|].
  split; [intros other Hne; by apply lookup_insert_ne|].
  split; [exact Hnokey|exact Hkey].
Qed.

Lemma cache_miss_fills_cache_witness :
  cache_miss (ProductionReady.CACHE_STORE (world Stub.process_start) !! Samples.warm_query) /\
  exists raw tracer' e',
    ProductionReady.secure_agent_executor (Stub.always (str "unused")) Stub.clock None
      Samples.warm_query Stub.fresh_tracer Stub.process_start
      = (Returned (PStr (Re.sub ProductionReady.email_pattern
                           ProductionReady.REDACTED_EMAIL raw), tracer'), e') /\
    ProductionReady.CACHE_STORE (world e')
      = <[Samples.warm_query := raw]> (ProductionReady.CACHE_STORE (world Stub.process_start)) /\
    (forall other, other <> Samples.warm_query ->
       ProductionReady.CACHE_STORE (world e') !! other
       = ProductionReady.CACHE_STORE (world Stub.process_start) !! other) /\
    (ProductionReady.has_key None = false ->
       raw = canned_response /\ sent e' = sent Stub.process_start) /\
    (ProductionReady.has_key None = true ->
       sent e' = sent Stub.process_start ++ [agent_request Samples.warm_query]).
Proof.
  assert (cache_miss (ProductionReady.CACHE_STORE (world Stub.process_start)
                        !! Samples.warm_query)) as H by (vm_compute; exact I).
  split; [exact H|].
  exact (cache_miss_fills_cache (Stub.always (str "unused")) Stub.clock None
           Samples.warm_query Stub.fresh_tracer Stub.process_start H).
Defined.

(* --------------------------------------------------------------------- *)
(** *** The research agent: the loop as a whole                           *)
(* --------------------------------------------------------------------- *)

Section AgentLoop.
Import SmartInvestorLocal.
Context {W : Type}.
Variable provider : request -> W -> outcome text * W.
Variable registry : gmap text tool.

(** One turn sends one request, the transcript so far.  It raises what
    the gateway raises, ends on an answer with [Final Answer:], and
    otherwise goes on with a longer transcript. *)
Lemma turn_spec transcript (e : env W) :
  sent (snd (turn provider registry transcript e)) = sent e ++ [turn_request transcript] /\
  match fst (turn provider registry transcript e) with
  | Raised x => exists w, fst (provider (turn_request transcript) w) = Raised x
  | Returned (Final agent_text) => PyStr.contains (str "Final Answer:") agent_text = true
  | Returned (Continue transcript') => transcript `prefix_of` transcript'
  end.
Proof.
  unfold turn, bind, create. fold (turn_request transcript).
  destruct (provider (turn_request transcript) (world e)) as [[agent_text|x] w'] eqn:Hp.
  - destruct (PyStr.contains (str "Final Answer:") agent_text) eqn:Hf.
    + split; [reflexivity|exact Hf].
    + destruct (parse_action agent_text) as [[tool_name tool_input]|].
      * split; [reflexivity|]. cbn [fst]. rewrite <- app_assoc. by eexists.
      * split; [reflexivity|]. by eexists.
  - split; [reflexivity|]. exists (world e). by rewrite Hp.
Qed.

Lemma turns_loop_spec turns : forall transcript (e : env W),
  exists asked,
    sent (snd (turns_loop provider registry turns transcript e)) = sent e ++ asked /\
    length asked <= turns /\
    Forall (fun rq => model rq = str "gpt-4" /\ transcript `prefix_of` messages rq) asked /\
    match fst (turns_loop provider registry turns transcript e) with
    | Returned (PNone, transcript') =>
        length asked = turns /\ transcript `prefix_of` transcript'
    | Returned (PStr agent_text, transcript') =>
        PyStr.contains (str "Final Answer:") agent_text = true /\
        transcript `prefix_of` transcript' /\
        last transcript' = Some (Message (str "assistant") (PStr agent_text))
    | Returned _ => False
    | Raised x => exists rq w, rq ∈ asked /\ fst (provider rq w) = Raised x
    end.
Proof.
  induction turns as [|turns IH]; intros transcript e.
  - exists []. simpl. rewrite app_nil_r. repeat split; auto.
  - destruct (turn_spec transcript e) as [Hsent Hturn].
    simpl. unfold bind.
    destruct (turn provider registry transcript e) as [[[agent_text|transcript']|x] e1] eqn:Ht;
      cbn [fst snd] in *.
    + exists [turn_request transcript]. split; [exact Hsent|]. split; [simpl; lia|].
      split; [constructor; [split; reflexivity|constructor]|].
      split; [exact Hturn|]. split; [by eexists|]. by rewrite last_snoc.
    + destruct (IH transcript' e1) as (asked & Hs & Hlen & Hall & Hres).
      exists (turn_request transcript :: asked).
      split; [rewrite Hs, Hsent, <- app_assoc; reflexivity|].
      split; [simpl; lia|].
      split.
      { constructor; [split; reflexivity|].
        eapply Forall_impl; [exact Hall|]. intros rq [Hm Hp]. split; [exact Hm|].
        by etransitivity. }
      destruct (fst (turns_loop provider registry turns transcript' e1))
        as [[[| | | |agent_text| |] final]|x]; try exact Hres.
      * destruct Hres as [Hn Hp]. split; [simpl; lia|]. by etransitivity.
      * destruct Hres as (Hf & Hp & Hl). split; [exact Hf|]. split; [|exact Hl].
        by etransitivity.
      * destruct Hres as (rq & w & Hin & Hr). exists rq, w. split; [|exact Hr].
        by apply list_elem_of_further.
    + exists [turn_request transcript]. split; [exact Hsent|]. split; [simpl; lia|].
      split; [constructor; [split; reflexivity|constructor]|].
      destruct Hturn as [w Hw]. exists (turn_request transcript), w.
      split; [apply list_elem_of_here|exact Hw].
Qed.

End AgentLoop.

(** X7. [run_agent] contacts the gateway at most five times, each time
    with model gpt-4 and a history that begins with the system prompt
    and the query.  It returns [None] only after five requests; a text
    it returns contains [Final Answer:] and is the last message of the
    history; and whatever it raises was raised by the gateway, no tool
    can make it fail. *)
Theorem run_agent_bounded {W} (provider : request -> W -> outcome text * W)
    (registry : gmap text SmartInvestorLocal.tool) (user_query : text) (e : env W) :
  let opening := [ Message (str "system") (PStr SmartInvestorLocal.SYSTEM_PROMPT);
                   Message (str "user") (PStr user_query) ] in
  let r := SmartInvestorLocal.run_agent_with provider registry user_query e in
  exists asked,
    sent (snd r) = sent e ++ asked /\
    length asked <= 5 /\
    Forall (fun rq => model rq = str "gpt-4" /\ opening `prefix_of` messages rq) asked /\
    match fst r with
    | Returned (PNone, transcript) => length asked = 5 /\ opening `prefix_of` transcript
    | Returned (PStr agent_text, transcript) =>
        PyStr.contains (str "Final Answer:") agent_text = true /\
        opening `prefix_of` transcript /\
        last transcript = Some (Message (str "assistant") (PStr agent_text))
    | Returned _ => False
    | Raised x => exists rq w, rq ∈ asked /\ fst (provider rq w) = Raised x
    end.
Proof.
  intros opening r.
  exact (turns_loop_spec provider registry 5 opening e).
Qed.

(* --------------------------------------------------------------------- *)
(** *** The research agent: reading an action                             *)
(* --------------------------------------------------------------------- *)

Section ActionFacts.
Import Re ReSpec SmartInvestorLocal.

Lemma action_pattern_pieces :
  action_pattern =
  [ char "A"; char "c"; char "t"; char "i"; char "o"; char "n"; char ":"; char " ";
    plus Word; char "["; star Any; char "]" ].
Proof. reflexivity. Qed.

Lemma action_not_here prev c s :
  c <> "A"%char -> match_here action_pattern prev (c :: s) = None.
Proof.
  intros Hc. rewrite action_pattern_pieces. unfold char at 1.
  cbn [match_here run accepts existsb in_item].
  rewrite bool_decide_eq_false_2 by exact Hc. reflexivity.
Qed.

Lemma search_skip pre : forall prev pos rest,
  "A"%char ∉ pre ->
  exists prev', search_from action_pattern prev (pre ++ rest) pos
                = search_from action_pattern prev' rest (pos + length pre).
Proof.
  induction pre as [|c pre IH]; intros prev pos rest H.
  - exists prev. simpl. by rewrite Nat.add_0_r.
  - assert (c <> "A"%char) as Hc by (intros ->; apply H; left).
    assert ("A"%char ∉ pre) as Hpre by (intros ?; apply H; by right).
    destruct (IH (Some c) (S pos) rest Hpre) as [prev' IH'].
    exists prev'. cbn [app search_from]. rewrite action_not_here by exact Hc.
    rewrite IH'. f_equal. simpl. lia.
Qed.

Lemma search_from_hit ps prev s pos ns :
  match_here ps prev s = Some ns -> search_from ps prev s pos = Some (pos, ns).
Proof. intros H. destruct s; simpl; rewrite H; reflexivity. Qed.

(** A literal character takes that character and nothing else. *)
Lemma matches_char c ps prev s ns :
  matches (char c :: ps) prev s ns ->
  exists s' ns', s = c :: s' /\ ns = 1 :: ns' /\ matches ps (Some c) s' ns'.
Proof.
  intros H. destruct ns as [|n ns]; [destruct H|].
  destruct H as (Hlo & Hhi & Hlen & Hall & Hrest). simpl in Hhi.
  assert (n = 1) as -> by lia.
  destruct s as [|a s]; [simpl in Hlen; lia|].
  simpl in Hall. apply Forall_cons in Hall as [Ha _].
  rewrite orb_false_r in Ha. apply bool_decide_eq_true in Ha as ->.
  exists s, ns. auto.
Qed.

Lemma matches_char_intro c ps prev s ns :
  matches ps (Some c) s ns -> matches (char c :: ps) prev (c :: s) (1 :: ns).
Proof.
  intros H. simpl. split; [lia|]. split; [lia|]. split; [lia|]. split; [|exact H].
  constructor; [|constructor]. rewrite orb_false_r. by apply bool_decide_eq_true.
Qed.

Lemma drop_head_lookup {A} (l : list A) n x l' : drop n l = x :: l' -> l !! n = Some x.
Proof.
  intros H. rewrite <- (Nat.add_0_r n), <- lookup_drop, H. reflexivity.
Qed.

(** The name ends where the bracket opens. *)
Lemma name_length name rest n s' :
  Forall (fun c => is_word c = true) name ->
  Forall (fun c => accepts Word c = true) (take n (name ++ "["%char :: rest)) ->
  drop n (name ++ "["%char :: rest) = "["%char :: s' ->
  n = length name /\ s' = rest.
Proof.
  intros Hname Hall Hdrop.
  pose proof (drop_head_lookup _ _ _ _ Hdrop) as Hat.
  destruct (Nat.lt_trichotomy n (length name)) as [Hlt|[->|Hgt]].
  - rewrite lookup_app_l in Hat by exact Hlt.
    rewrite Forall_lookup in Hname. apply Hname in Hat. discriminate.
  - split; [reflexivity|]. rewrite drop_app_length in Hdrop. congruence.
  - rewrite Forall_lookup in Hall.
    assert (take n (name ++ "["%char :: rest) !! length name = Some "["%char) as Hb.
    { rewrite lookup_take_lt by exact Hgt.
      rewrite lookup_app_r by lia. by rewrite Nat.sub_diag. }
    apply Hall in Hb. discriminate.
Qed.

(** The input ends at the only closing bracket. *)
Lemma input_length input tail n s' :
  "]"%char ∉ input -> "]"%char ∉ tail ->
  drop n (input ++ "]"%char :: tail) = "]"%char :: s' ->
  n = length input /\ s' = tail.
Proof.
  intros Hin Htail Hdrop.
  pose proof (drop_head_lookup _ _ _ _ Hdrop) as Hat.
  destruct (Nat.lt_trichotomy n (length input)) as [Hlt|[->|Hgt]].
  - rewrite lookup_app_l in Hat by exact Hlt.
    exfalso. apply Hin. by eapply list_elem_of_lookup_2.
  - split; [reflexivity|]. rewrite drop_app_length in Hdrop. congruence.
  - rewrite lookup_app_r in Hat by lia.
    destruct (n - length input) as [|k] eqn:Hk; [lia|]. simpl in Hat.
    exfalso. apply Htail. by eapply list_elem_of_lookup_2.
Qed.

Lemma action_match_unique prev name input tail ns :
  Forall (fun c => is_word c = true) name ->
  "]"%char ∉ input -> "]"%char ∉ tail ->
  matches action_pattern prev
    (str "Action: " ++ name ++ "["%char :: input ++ "]"%char :: tail) ns ->
  ns = [1; 1; 1; 1; 1; 1; 1; 1; length name; 1; length input; 1].
Proof.
  intros Hname Hin Htail H. rewrite action_pattern_pieces in H.
  change (str "Action: " ++ name ++ "["%char :: input ++ "]"%char :: tail)
    with ("A" :: "c" :: "t" :: "i" :: "o" :: "n" :: ":" :: " " ::
          name ++ "[" :: input ++ "]" :: tail)%char in H.
  do 8 (let Heq := fresh "Heq" in
        apply matches_char in H as (? & ? & Heq & -> & H); injection Heq as <-).
  match type of H with matches _ _ _ ?l => destruct l as [|n ns1]; [destruct H|] end.
  destruct H as (_ & _ & _ & Hall & H).
  apply matches_char in H as (s1 & ns2 & Heq & -> & H).
  destruct (name_length _ _ _ _ Hname Hall Heq) as [-> ->].
  destruct ns2 as [|m ns3]; [destruct H|].
  destruct H as (_ & _ & _ & _ & H).
  apply matches_char in H as (s2 & ns4 & Heq2 & -> & H).
  destruct (input_length _ _ _ _ Hin Htail Heq2) as [-> ->].
  destruct ns4; [reflexivity|destruct H].
Qed.

Lemma action_match_exists prev name input tail :
  name <> [] -> Forall (fun c => is_word c = true) name ->
  "010"%char ∉ input ->
  matches action_pattern prev
    (str "Action: " ++ name ++ "["%char :: input ++ "]"%char :: tail)
    [1; 1; 1; 1; 1; 1; 1; 1; length name; 1; length input; 1].
Proof.
  intros Hne Hname Hin. rewrite action_pattern_pieces.
  change (str "Action: " ++ name ++ "["%char :: input ++ "]"%char :: tail)
    with ("A" :: "c" :: "t" :: "i" :: "o" :: "n" :: ":" :: " " ::
          name ++ "[" :: input ++ "]" :: tail)%char.
  do 8 apply matches_char_intro.
  split; [destruct name; [done|simpl; lia]|].
  split; [exact I|].
  split; [rewrite length_app; lia|].
  split; [rewrite take_app_length; exact Hname|].
  rewrite drop_app_length. apply matches_char_intro.
  split; [lia|]. split; [exact I|].
  split; [rewrite length_app; lia|].
  split.
  { rewrite take_app_length. apply Forall_forall. intros c Hc. simpl.
    apply negb_true_iff, bool_decide_eq_false. intros ->. by apply Hin. }
  rewrite drop_app_length. apply matches_char_intro. exact I.
Qed.

End ActionFacts.

(** X8. [parse_action] reads back an action written as the system prompt
    asks: in a text made of anything without a capital A, then
    [Action: ], a name of word characters, the input between square
    brackets and a rest without a closing bracket, the two groups are
    the name and the input.  The input may hold anything but a closing
    bracket and a line break. *)
Theorem parse_action_round_trip (pre name input tail : text) :
  "A"%char ∉ pre ->
  name <> [] -> Forall (fun c => Re.is_word c = true) name ->
  "]"%char ∉ input -> "010"%char ∉ input ->
  "]"%char ∉ tail ->
  SmartInvestorLocal.parse_action
    (pre ++ str "Action: " ++ name ++ str "[" ++ input ++ str "]" ++ tail)
  = Some (name, input).
Proof.
  intros Hpre Hne Hname Hin Hnl Htail.
  change (pre ++ str "Action: " ++ name ++ str "[" ++ input ++ str "]" ++ tail)
    with (pre ++ str "Action: " ++ name ++ "["%char :: input ++ "]"%char :: tail).
  set (rest := str "Action: " ++ name ++ "["%char :: input ++ "]"%char :: tail).
  unfold SmartInvestorLocal.parse_action, Re.search.
  destruct (search_skip pre None 0 rest Hpre) as [prev' ->].
  destruct (match_here_complete _ _ _ _ (action_match_exists prev' name input tail Hne Hname Hnl))
    as [ns Hns].
  pose proof (action_match_unique _ _ _ _ _ Hname Hin Htail (match_here_sound _ _ _ _ Hns)) as ->.
  fold rest in Hns. rewrite (search_from_hit _ _ _ _ _ Hns).
  unfold Re.group. cbn [lookup list_lookup default take Re.total foldr].
  f_equal. f_equal.
  - rewrite Nat.add_0_l, drop_app_add'; [|reflexivity].
    unfold rest. change (str "Action: ") with ("A" :: "c" :: "t" :: "i" :: "o" :: "n" :: ":" :: " " :: [])%char.
    cbn [app drop Nat.add]. apply take_app_length.
  - rewrite Nat.add_0_l, drop_app_add'; [|reflexivity].
    unfold rest. change (str "Action: ") with ("A" :: "c" :: "t" :: "i" :: "o" :: "n" :: ":" :: " " :: [])%char.
    cbn [app drop Nat.add].
    replace (length name + 1) with (length name + 1 + 0) by lia.
    rewrite <- Nat.add_assoc. rewrite <- drop_drop, drop_app_length. cbn [Nat.add drop].
    apply take_app_length.
Qed.

(** The action of the example in the system prompt, after a thought and
    before the pause. *)
Lemma parse_action_round_trip_witness :
  let pre := str "Thought: I need to check the price.
" in
  let name := str "get_stock_price" in
  let input := str "AAPL" in
  let tail := str "
PAUSE" in
  ("A"%char ∉ pre) /\
  name <> [] /\ Forall (fun c => Re.is_word c = true) name /\
  ("]"%char ∉ input) /\ ("010"%char ∉ input) /\
  ("]"%char ∉ tail) /\
  SmartInvestorLocal.parse_action
    (pre ++ str "Action: " ++ name ++ str "[" ++ input ++ str "]" ++ tail)
  = Some (name, input).
Proof.
  intros pre name input tail.
  assert ("A"%char ∉ pre) as H1 by (apply (bool_decide_unpack _); vm_compute; exact I).
  assert (name <> []) as H2 by discriminate.
  assert (Forall (fun c => Re.is_word c = true) name) as H3
    by (apply (bool_decide_unpack _); vm_compute; exact I).
  assert ("]"%char ∉ input) as H4 by (apply (bool_decide_unpack _); vm_compute; exact I).
  assert ("010"%char ∉ input) as H5 by (apply (bool_decide_unpack _); vm_compute; exact I).
  assert ("]"%char ∉ tail) as H6 by (apply (bool_decide_unpack _); vm_compute; exact I).
  repeat (split; [assumption|]).
  exact (parse_action_round_trip pre name input tail H1 H2 H3 H4 H5 H6).
Defined.

(* --------------------------------------------------------------------- *)
(** *** The pattern runners: what goes to the gateway                     *)
(* --------------------------------------------------------------------- *)

Section PatternCalls.
Context {W : Type}.
Variable provider : request -> W -> outcome text * W.
Variable api_key : option text.
Variable repr : pyval -> text.

(** With a key, [call_llm] is one request; nothing is printed. *)
Lemma call_llm_online system user json_mode (e : env W) :
  AgenticPatterns.has_key api_key = true ->
  AgenticPatterns.call_llm provider api_key system user json_mode e
  = (fst (provider (llm_request system user json_mode) (world e)),
     {| world := snd (provider (llm_request system user json_mode) (world e));
        sent := sent e ++ [llm_request system user json_mode];
        printed := printed e |}).
Proof.
  intros H. unfold AgenticPatterns.call_llm. rewrite H. cbn [negb].
  unfold create. fold (llm_request system user json_mode).
  destruct (provider _ (world e)). reflexivity.
Qed.

(** Without one it is the simulated text, and nothing else happens. *)
Lemma call_llm_offline system user json_mode (e : env W) :
  AgenticPatterns.has_key api_key = false ->
  AgenticPatterns.call_llm provider api_key system user json_mode e = (Returned SIMULATED, e).
Proof. intros H. unfold AgenticPatterns.call_llm. rewrite H. reflexivity. Qed.

End PatternCalls.

(** X9. With an API key, [pattern_prompt_chaining] sends the three
    requests in order, each one carrying the answer to the one before as
    its user message, the last one in JSON mode.  A request that fails
    ends the chain: its exception is raised and no later request is
    sent. *)
Theorem prompt_chain_threads {W} (provider : request -> W -> outcome text * W)
    (api_key : option text) (repr : pyval -> text) (e : env W) :
  AgenticPatterns.has_key api_key = true ->
  let r := AgenticPatterns.pattern_prompt_chaining provider api_key repr e in
  exists o1 w1,
    provider chef_request (world e) = (o1, w1) /\
    match o1 with
    | Raised x => fst r = Raised x /\ sent (snd r) = sent e ++ [chef_request]
    | Returned idea =>
        exists o2 w2,
          provider (sous_chef_request idea) w1 = (o2, w2) /\
          match o2 with
          | Raised x =>
              fst r = Raised x /\
              sent (snd r) = sent e ++ [chef_request; sous_chef_request idea]
          | Returned ingredients =>
              exists o3 w3,
                provider (clerk_request ingredients) w2 = (o3, w3) /\
                sent (snd r)
                = sent e ++ [chef_request; sous_chef_request idea; clerk_request ingredients] /\
                world (snd r) = w3 /\
                fst r = match o3 with
                        | Raised x => Raised x
                        | Returned _ => Returned PNone
                        end
          end
    end.
Proof.
  intros Hkey r.
  assert (r = AgenticPatterns.pattern_prompt_chaining provider api_key repr e) as Hr
    by reflexivity.
  clearbody r. unfold AgenticPatterns.pattern_prompt_chaining in Hr.
  unfold bind at 1 in Hr. unfold print at 1 in Hr. cbn [fst snd] in Hr.
  unfold bind at 1 in Hr. rewrite (call_llm_online _ _ _ _ _ _ Hkey) in Hr.
  cbn [world sent printed] in Hr. fold chef_request in Hr.
  destruct (provider chef_request (world e)) as [[idea|x] w1]; cbn [fst snd] in Hr;
    eexists _, w1; (split; [reflexivity|]); [|subst r; split; reflexivity].
  cbv beta iota.
  unfold bind at 1 in Hr. unfold AgenticPatterns.print_step at 1, print at 1 in Hr.
  cbn [fst snd] in Hr.
  unfold bind at 1 in Hr. rewrite (call_llm_online _ _ _ _ _ _ Hkey) in Hr.
  cbn [world sent printed] in Hr. fold (sous_chef_request idea) in Hr.
  destruct (provider (sous_chef_request idea) w1) as [[ingredients|x] w2];
    cbn [fst snd] in Hr; eexists _, w2; (split; [reflexivity|]);
    [|subst r; split; [reflexivity|cbn [snd sent]; by rewrite <- app_assoc]].
  cbv beta iota.
  unfold bind at 1 in Hr. unfold AgenticPatterns.print_step at 1, print at 1 in Hr.
  cbn [fst snd] in Hr.
  unfold bind at 1 in Hr. rewrite (call_llm_online _ _ _ _ _ _ Hkey) in Hr.
  cbn [world sent printed] in Hr. fold (clerk_request ingredients) in Hr.
  destruct (provider (clerk_request ingredients) w2) as [[json|x] w3];
    cbn [fst snd] in Hr; eexists _, w3; (split; [reflexivity|]); subst r;
    (split; [cbn [snd sent]; by rewrite <- !app_assoc|]); split; reflexivity.
Qed.

Lemma prompt_chain_threads_witness :
  AgenticPatterns.has_key Stub.key = true /\
  let r := AgenticPatterns.pattern_prompt_chaining Stub.numbered Stub.key Stub.no_repr
             Stub.start in
  exists o1 w1,
    Stub.numbered chef_request (world Stub.start) = (o1, w1) /\
    match o1 with
    | Raised x => fst r = Raised x /\ sent (snd r) = sent Stub.start ++ [chef_request]
    | Returned idea =>
        exists o2 w2,
          Stub.numbered (sous_chef_request idea) w1 = (o2, w2) /\
          match o2 with
          | Raised x =>
              fst r = Raised x /\
              sent (snd r) = sent Stub.start ++ [chef_request; sous_chef_request idea]
          | Returned ingredients =>
              exists o3 w3,
                Stub.numbered (clerk_request ingredients) w2 = (o3, w3) /\
                sent (snd r)
                = sent Stub.start
                    ++ [chef_request; sous_chef_request idea; clerk_request ingredients] /\
                world (snd r) = w3 /\
                fst r = match o3 with
                        | Raised x => Raised x
                        | Returned _ => Returned PNone
                        end
          end
    end.
Proof.
  assert (AgenticPatterns.has_key Stub.key = true) as H by reflexivity.
  split; [exact H|].
  exact (prompt_chain_threads Stub.numbered Stub.key Stub.no_repr Stub.start H).
Defined.

(* --------------------------------------------------------------------- *)
(** *** The pattern runners without an API key                            *)
(* --------------------------------------------------------------------- *)

Section Offline.
Context {W : Type}.
Variable provider : request -> W -> outcome text * W.
Variable api_key : option text.
Variable json_loads : text -> option pyval.
Variable repr : pyval -> text.
Hypothesis Hkey : AgenticPatterns.has_key api_key = false.

(** Tasks that change nothing complete in any order with the same
    results. *)
Lemma run_to_completion_pure (tasks : list (M W text)) s schedule (e : env W) :
  (forall i task, tasks !! i = Some task -> task e = (Returned s, e)) ->
  Forall (fun i => i < length tasks) schedule ->
  run_to_completion schedule tasks e = (Returned (map (fun i => (i, s)) schedule), e).
Proof.
  intros Htasks. induction schedule as [|i rest IH]; intros Hall; [reflexivity|].
  apply Forall_cons in Hall as [Hi Hrest].
  destruct (lookup_lt_is_Some_2 tasks i Hi) as [task Ht].
  simpl. rewrite Ht. unfold bind. rewrite (Htasks i task Ht), (IH Hrest). reflexivity.
Qed.

Lemma chaining_offline (e : env W) :
  AgenticPatterns.pattern_prompt_chaining provider api_key repr e
  = (Returned PNone,
     {| world := world e; sent := sent e;
        printed := printed e ++
          [ nl ++ str "--- PATTERN 1: PROMPT CHAINING ---";
            step_line (str "Chain") (str "Step 1 (Idea)") SIMULATED;
            step_line (str "Chain") (str "Step 2 (Ingredients)") SIMULATED;
            step_line (str "Chain") (str "Step 3 (JSON)") SIMULATED ] |}).
Proof.
  unfold AgenticPatterns.pattern_prompt_chaining, bind, AgenticPatterns.call_llm.
  rewrite Hkey. cbn [negb ret print AgenticPatterns.print_step fst snd world sent printed].
  f_equal. f_equal. rewrite <- !app_assoc. reflexivity.
Qed.

Lemma route_offline query (e : env W) :
  AgenticPatterns.route provider api_key repr query e
  = (Returned tt,
     {| world := world e; sent := sent e;
        printed := printed e ++ [step_line (str "Router") (str "Route: GENERAL") SIMULATED] |}).
Proof.
  unfold AgenticPatterns.route, bind, AgenticPatterns.call_llm.
  rewrite Hkey. cbn [negb ret fst snd].
  assert (PyStr.upper (PyStr.strip (str "Simulated Output (No API Key)"))
          = str "SIMULATED OUTPUT (NO API KEY)") as -> by (vm_compute; reflexivity).
  assert (PyStr.contains (str "BILLING") (str "SIMULATED OUTPUT (NO API KEY)") = false) as ->
    by (vm_compute; reflexivity).
  assert (PyStr.contains (str "TECHNICAL") (str "SIMULATED OUTPUT (NO API KEY)") = false) as ->
    by (vm_compute; reflexivity).
  reflexivity.
Qed.

Lemma routing_offline (e : env W) :
  AgenticPatterns.pattern_routing provider api_key repr e
  = (Returned PNone,
     {| world := world e; sent := sent e;
        printed := printed e ++
          [ nl ++ str "--- PATTERN 2: ROUTING ---";
            step_line (str "Router") (str "Route: GENERAL") SIMULATED;
            step_line (str "Router") (str "Route: GENERAL") SIMULATED;
            step_line (str "Router") (str "Route: GENERAL") SIMULATED ] |}).
Proof.
  unfold AgenticPatterns.pattern_routing, AgenticPatterns.inputs.
  cbn [AgenticPatterns.for_each]. unfold bind. unfold print at 1. cbn [fst snd].
  rewrite !route_offline. cbn [ret fst snd world sent printed].
  f_equal. f_equal. rewrite <- !app_assoc. reflexivity.
Qed.

Lemma parallelization_offline schedule (e : env W) :
  schedule ≡ₚ [0; 1; 2] ->
  AgenticPatterns.pattern_parallelization provider api_key repr schedule e
  = (Returned PNone,
     {| world := world e; sent := sent e;
        printed := printed e ++
          [ nl ++ str "--- PATTERN 3: PARALLELIZATION (SCATTER-GATHER) ---";
            step_line (str "Parallel") (str "Scatter")
              (str "Generating 3 perspectives on '" ++ AgenticPatterns.topic ++ str "'...");
            step_line (str "Parallel") (str "Gather (Synthesis)") SIMULATED ] |}).
Proof.
  intros Hp.
  assert (run_to_completion schedule
            [ AgenticPatterns.task1 provider api_key; AgenticPatterns.task2 provider api_key;
              AgenticPatterns.task3 provider api_key ] (announced e)
          = (Returned (map (fun i => (i, SIMULATED)) schedule), announced e)) as Hrun.
  { apply run_to_completion_pure.
    - intros i task Ht.
      destruct i as [|[|[|i]]]; simpl in Ht; try discriminate; injection Ht as <-;
        unfold AgenticPatterns.task1, AgenticPatterns.task2, AgenticPatterns.task3,
               AgenticPatterns.async_call_llm; by apply call_llm_offline.
    - apply Forall_forall. intros i Hi. rewrite Hp in Hi. simpl.
      repeat (apply elem_of_cons in Hi as [->|Hi]; [lia|]). by apply elem_of_nil in Hi. }
  assert (forall i, i ∈ [0; 1; 2] -> (i, SIMULATED) ∈ map (fun i => (i, SIMULATED)) schedule)
    as Hin.
  { intros i Hi. rewrite <- Hp in Hi. by apply (list_elem_of_fmap_2 (fun i => (i, SIMULATED))). }
  rewrite (parallelization_in_launch_order provider api_key repr schedule e _ _
             SIMULATED SIMULATED SIMULATED Hp Hrun)
    by (apply Hin; set_solver).
  unfold synthesize, bind. rewrite call_llm_offline by exact Hkey.
  unfold announced. cbn [ret AgenticPatterns.print_step print fst snd world sent printed].
  f_equal. f_equal. rewrite <- !app_assoc. reflexivity.
Qed.

End Offline.

(** X10. Without an API key the prompt chain, the router and the
    scatter-gather send nothing to the gateway and leave the world as it
    is; each returns [None] after printing its steps with the simulated
    output.  The router sends all three queries to the GENERAL handler,
    and the scatter-gather does the same under every schedule. *)
Theorem offline_patterns_send_nothing {W} (provider : request -> W -> outcome text * W)
    (api_key : option text) (repr : pyval -> text) (schedule : list nat) (e : env W) :
  AgenticPatterns.has_key api_key = false ->
  schedule ≡ₚ [0; 1; 2] ->
  let general := step_line (str "Router") (str "Route: GENERAL") SIMULATED in
  AgenticPatterns.pattern_prompt_chaining provider api_key repr e
  = (Returned PNone,
     {| world := world e; sent := sent e;
        printed := printed e ++
          [ nl ++ str "--- PATTERN 1: PROMPT CHAINING ---";
            step_line (str "Chain") (str "Step 1 (Idea)") SIMULATED;
            step_line (str "Chain") (str "Step 2 (Ingredients)") SIMULATED;
            step_line (str "Chain") (str "Step 3 (JSON)") SIMULATED ] |})
  /\
  AgenticPatterns.pattern_routing provider api_key repr e
  = (Returned PNone,
     {| world := world e; sent := sent e;
        printed := printed e ++
          [ nl ++ str "--- PATTERN 2: ROUTING ---"; general; general; general ] |})
  /\
  AgenticPatterns.pattern_parallelization provider api_key repr schedule e
  = (Returned PNone,
     {| world := world e; sent := sent e;
        printed := printed e ++
          [ nl ++ str "--- PATTERN 3: PARALLELIZATION (SCATTER-GATHER) ---";
            step_line (str "Parallel") (str "Scatter")
              (str "Generating 3 perspectives on '" ++ AgenticPatterns.topic ++ str "'...");
            step_line (str "Parallel") (str "Gather (Synthesis)") SIMULATED ] |}).
Proof.
  intros Hkey Hp general.
  split; [by apply chaining_offline|].
  split; [by apply routing_offline|].
  by apply parallelization_offline.
Qed.

Lemma offline_patterns_send_nothing_witness :
  AgenticPatterns.has_key None = false /\
  [2; 0; 1] ≡ₚ [0; 1; 2] /\
  let general := step_line (str "Router") (str "Route: GENERAL") SIMULATED in
  AgenticPatterns.pattern_prompt_chaining (Stub.always (str "unused")) None Stub.no_repr
    Stub.start
  = (Returned PNone,
     {| world := world Stub.start; sent := sent Stub.start;
        printed := printed Stub.start ++
          [ nl ++ str "--- PATTERN 1: PROMPT CHAINING ---";
            step_line (str "Chain") (str "Step 1 (Idea)") SIMULATED;
            step_line (str "Chain") (str "Step 2 (Ingredients)") SIMULATED;
            step_line (str "Chain") (str "Step 3 (JSON)") SIMULATED ] |})
  /\
  AgenticPatterns.pattern_routing (Stub.always (str "unused")) None Stub.no_repr Stub.start
  = (Returned PNone,
     {| world := world Stub.start; sent := sent Stub.start;
        printed := printed Stub.start ++
          [ nl ++ str "--- PATTERN 2: ROUTING ---"; general; general; general ] |})
  /\
  AgenticPatterns.pattern_parallelization (Stub.always (str "unused")) None Stub.no_repr
    [2; 0; 1] Stub.start
  = (Returned PNone,
     {| world := world Stub.start; sent := sent Stub.start;
        printed := printed Stub.start ++
          [ nl ++ str "--- PATTERN 3: PARALLELIZATION (SCATTER-GATHER) ---";
            step_line (str "Parallel") (str "Scatter")
              (str "Generating 3 perspectives on '" ++ AgenticPatterns.topic ++ str "'...");
            step_line (str "Parallel") (str "Gather (Synthesis)") SIMULATED ] |}).
Proof.
  assert (AgenticPatterns.has_key None = false) as H1 by reflexivity.
  assert ([2; 0; 1] ≡ₚ [0; 1; 2]) as H2.
  { change ([2; 0; 1] ≡ₚ [0; 1] ++ [2]). apply Permutation_cons_append. }
  split; [exact H1|]. split; [exact H2|].
  exact (offline_patterns_send_nothing (Stub.always (str "unused")) None Stub.no_repr
           [2; 0; 1] Stub.start H1 H2).
Defined.

Section OfflineJson.
Context {W : Type}.
Variable provider : request -> W -> outcome text * W.
Variable api_key : option text.
Variable json_loads : text -> option pyval.
Variable repr : pyval -> text.
Hypothesis Hkey : AgenticPatterns.has_key api_key = false.
Hypothesis Hjson : json_loads SIMULATED = None.

Lemma bind_returned {A B} (m : M W A) (k : A -> M W B) (e : env W) a e' :
  m e = (Returned a, e') -> bind m k e = k a e'.
Proof. intros H. unfold bind. rewrite H. reflexivity. Qed.

Lemma orchestrator_offline (e : env W) :
  AgenticPatterns.pattern_orchestrator provider api_key json_loads repr e
  = (Returned PNone,
     {| world := world e; sent := sent e;
        printed := printed e ++
          [ nl ++ str "--- PATTERN 4: ORCHESTRATOR-WORKERS ---";
            step_line (str "Orchestrator") (str "Plan") (repr AgenticPatterns.fallback_tasks);
            step_line (str "Orchestrator") (str "Worker 1") SIMULATED;
            step_line (str "Orchestrator") (str "Worker 2") SIMULATED;
            step_line (str "Orchestrator") (str "Final Output")
              (SIMULATED ++ nl ++ nl ++ SIMULATED ++ str "...") ] |}).
Proof.
  unfold AgenticPatterns.pattern_orchestrator.
  erewrite bind_returned by reflexivity.
  erewrite bind_returned by (apply call_llm_offline; exact Hkey).
  erewrite bind_returned by (apply plan_tasks_undecodable; exact Hjson).
  erewrite bind_returned by reflexivity.
  erewrite bind_returned by reflexivity.
  cbn [AgenticPatterns.workers].
  erewrite (bind_returned (bind _ _)).
  2: { erewrite bind_returned by (apply call_llm_offline; exact Hkey).
       erewrite bind_returned by reflexivity.
       erewrite bind_returned by (apply call_llm_offline; exact Hkey).
       erewrite bind_returned by reflexivity.
       reflexivity. }
  erewrite bind_returned by reflexivity.
  cbn [ret world sent printed]. f_equal. f_equal. rewrite <- !app_assoc. reflexivity.
Qed.

Lemma evaluator_offline fuel (e : env W) :
  exists st e',
    AgenticPatterns.run_loop provider api_key json_loads repr (S fuel) e
      = (Returned (Some st), e') /\
    approved st /\ AgenticPatterns.attempt st = 1 /\
    AgenticPatterns.draft st = Some SIMULATED /\
    AgenticPatterns.feedback st = Some (PStr (str "JSON Error")) /\
    sent e' = sent e /\ world e' = world e.
Proof.
  rewrite run_loop_unfold.
  set (e0 := {| world := world e; sent := sent e; printed := _ |}).
  set (e1 := {| world := world e; sent := sent e;
                printed := printed e0 ++
                  [step_line (str "Loop") (str "Draft " ++ str (pretty (0 + 1))) SIMULATED] |}).
  assert (AgenticPatterns.generate provider api_key repr AgenticPatterns.initial e0
          = (Returned SIMULATED, e1)) as Hg.
  { unfold AgenticPatterns.generate, bind. rewrite call_llm_offline by exact Hkey.
    reflexivity. }
  assert (AgenticPatterns.evaluate provider api_key SIMULATED e1 = (Returned SIMULATED, e1))
    as He by (by apply call_llm_offline).
  destruct (iteration_run provider api_key json_loads repr _ _ _ _ _ _ Hg He)
    as (s & fb & e3 & Hr & Hi & Hw & Hs & _).
  rewrite read_verdict_unreadable in Hr by (unfold unreadable; by rewrite Hjson).
  injection Hr as <- <-.
  assert (AgenticPatterns.continues AgenticPatterns.initial = true) as Hc
    by (apply continues_true; split; [reflexivity|simpl; lia]).
  rewrite (while_loop_step _ _ _ _ _ _ _ _ e3 Hc Hi).
  rewrite while_loop_stop
    by (apply continues_false; left; cbn [AgenticPatterns.status]; discriminate).
  eexists _, e3. split; [reflexivity|].
  split; [reflexivity|]. split; [reflexivity|]. split; [reflexivity|].
  split; [reflexivity|]. split; [rewrite Hs|rewrite Hw]; reflexivity.
Qed.

End OfflineJson.

(** X11. Without an API key the simulated output is what the
    orchestrator and the evaluator read as JSON.  When [json.loads]
    rejects it, the orchestrator falls back to its two built-in tasks,
    runs one worker for each and returns [None]; the evaluator-optimizer
    loop makes one draft, reads the verdict as a JSON error and leaves
    approved after this one attempt.  Neither sends a request. *)
Theorem offline_json_fallbacks {W} (provider : request -> W -> outcome text * W)
    (api_key : option text) (json_loads : text -> option pyval) (repr : pyval -> text)
    (fuel : nat) (e : env W) :
  AgenticPatterns.has_key api_key = false ->
  json_loads SIMULATED = None ->
  AgenticPatterns.pattern_orchestrator provider api_key json_loads repr e
  = (Returned PNone,
     {| world := world e; sent := sent e;
        printed := printed e ++
          [ nl ++ str "--- PATTERN 4: ORCHESTRATOR-WORKERS ---";
            step_line (str "Orchestrator") (str "Plan") (repr AgenticPatterns.fallback_tasks);
            step_line (str "Orchestrator") (str "Worker 1") SIMULATED;
            step_line (str "Orchestrator") (str "Worker 2") SIMULATED;
            step_line (str "Orchestrator") (str "Final Output")
              (SIMULATED ++ nl ++ nl ++ SIMULATED ++ str "...") ] |})
  /\
  exists st e',
    AgenticPatterns.run_loop provider api_key json_loads repr (S fuel) e
      = (Returned (Some st), e') /\
    approved st /\ AgenticPatterns.attempt st = 1 /\
    AgenticPatterns.draft st = Some SIMULATED /\
    AgenticPatterns.feedback st = Some (PStr (str "JSON Error")) /\
    sent e' = sent e /\ world e' = world e.
Proof.
  intros Hkey Hjson. split.
  - by apply orchestrator_offline.
  - by apply evaluator_offline.
Qed.

Lemma offline_json_fallbacks_witness :
  AgenticPatterns.has_key None = false /\
  Stub.loads SIMULATED = None /\
  AgenticPatterns.pattern_orchestrator (Stub.always (str "unused")) None Stub.loads
    Stub.no_repr Stub.start
  = (Returned PNone,
     {| world := world Stub.start; sent := sent Stub.start;
        printed := printed Stub.start ++
          [ nl ++ str "--- PATTERN 4: ORCHESTRATOR-WORKERS ---";
            step_line (str "Orchestrator") (str "Plan")
              (Stub.no_repr AgenticPatterns.fallback_tasks);
            step_line (str "Orchestrator") (str "Worker 1") SIMULATED;
            step_line (str "Orchestrator") (str "Worker 2") SIMULATED;
            step_line (str "Orchestrator") (str "Final Output")
              (SIMULATED ++ nl ++ nl ++ SIMULATED ++ str "...") ] |})
  /\
  exists st e',
    AgenticPatterns.run_loop (Stub.always (str "unused")) None Stub.loads Stub.no_repr 1
      Stub.start
      = (Returned (Some st), e') /\
    approved st /\ AgenticPatterns.attempt st = 1 /\
    AgenticPatterns.draft st = Some SIMULATED /\
    AgenticPatterns.feedback st = Some (PStr (str "JSON Error")) /\
    sent e' = sent Stub.start /\ world e' = world Stub.start.
Proof.
  assert (AgenticPatterns.has_key None = false) as H1 by reflexivity.
  assert (Stub.loads SIMULATED = None) as H2 by (vm_compute; reflexivity).
  split; [exact H1|]. split; [exact H2|].
  exact (offline_json_fallbacks (Stub.always (str "unused")) None Stub.loads Stub.no_repr
           0 Stub.start H1 H2).
Defined.

(* --------------------------------------------------------------------- *)
(** *** The orchestrator: plan, workers and what can go wrong             *)
(* --------------------------------------------------------------------- *)

Section OrchestratorFacts.
Context {W : Type}.
Variable provider : request -> W -> outcome text * W.
Variable api_key : option text.
Variable json_loads : text -> option pyval.
Variable repr : pyval -> text.

(** [call_llm] raises only what the gateway raised. *)
Lemma call_llm_raises system user json_mode (e e' : env W) x :
  AgenticPatterns.call_llm provider api_key system user json_mode e = (Raised x, e') ->
  exists rq w, fst (provider rq w) = Raised x.
Proof.
  unfold AgenticPatterns.call_llm, create.
  destruct (negb (AgenticPatterns.has_key api_key)); [discriminate|].
  destruct (provider _ (world e)) as [o w'] eqn:Hp. intros H. injection H as -> _.
  eexists _, (world e). by rewrite Hp.
Qed.

(** The [try] block around the plan lets nothing out. *)
Lemma plan_tasks_total plan_response (e : env W) :
  exists tasks, AgenticPatterns.plan_tasks json_loads plan_response e = (Returned tasks, e).
Proof.
  unfold AgenticPatterns.plan_tasks, try_except, bind, AgenticPatterns.loads.
  destruct (json_loads plan_response) as [v|] eqn:Hl; [|eexists; reflexivity].
  cbn [ret]. destruct v as [| | | | | |items]; try (eexists; reflexivity).
  cbn [AgenticPatterns.get ret].
  destruct (Py.truthy (Py.dict_get items (str "tasks") (PList []))); cbn [negb ret].
  - eexists; reflexivity.
  - cbn [ret AgenticPatterns.values].
    destruct (Py.dict_values items); eexists; reflexivity.
Qed.

(** The worker loop asks once for each task, in order, with the task
    itself as the user message. *)
Lemma workers_spec tasks : forall i results (e : env W),
  AgenticPatterns.has_key api_key = true ->
  match AgenticPatterns.workers provider api_key repr i tasks results e with
  | (Returned out, e') =>
      exists answers,
        out = results ++ answers /\ length answers = length tasks /\
        sent e' = sent e ++ map worker_request tasks
  | (Raised x, e') =>
      exists k task w,
        tasks !! k = Some task /\
        sent e' = sent e ++ map worker_request (take (S k) tasks) /\
        fst (provider (worker_request task) w) = Raised x
  end.
Proof.
  induction tasks as [|task rest IH]; intros i results e Hkey.
  - simpl. exists []. rewrite !app_nil_r. auto.
  - cbn [AgenticPatterns.workers]. unfold bind at 1.
    rewrite (call_llm_online _ _ _ _ _ _ Hkey). fold (worker_request task).
    destruct (provider (worker_request task) (world e)) as [[answer|x] w'] eqn:Hp;
      cbn [fst snd].
    + unfold bind at 1. unfold AgenticPatterns.print_step at 1, print at 1. cbn [fst snd].
      match goal with
      | |- context [AgenticPatterns.workers _ _ _ ?j rest ?rs ?e1] =>
          specialize (IH j rs e1 Hkey);
          destruct (AgenticPatterns.workers provider api_key repr j rest rs e1)
            as [[out|x] e2]
      end.
      * destruct IH as (answers & -> & Hlen & Hs). exists (answer :: answers).
        split; [by rewrite <- app_assoc|]. split; [simpl; lia|].
        rewrite Hs. cbn [sent map]. by rewrite <- app_assoc.
      * destruct IH as (k & t & w & Hk & Hs & Hx). exists (S k), t, w.
        split; [exact Hk|]. split; [|exact Hx].
        rewrite Hs. cbn [sent]. rewrite <- app_assoc. reflexivity.
    + exists 0, task, (world e). split; [reflexivity|]. split; [reflexivity|].
      by rewrite Hp.
Qed.

Lemma workers_raises tasks : forall i results (e e' : env W) x,
  AgenticPatterns.workers provider api_key repr i tasks results e = (Raised x, e') ->
  exists rq w, fst (provider rq w) = Raised x.
Proof.
  induction tasks as [|task rest IH]; intros i results e e' x H.
  - discriminate.
  - cbn [AgenticPatterns.workers] in H. unfold bind at 1 in H.
    destruct (AgenticPatterns.call_llm provider api_key _ task false e)
      as [[answer|y] e1] eqn:Hc.
    + unfold bind at 1 in H. unfold AgenticPatterns.print_step at 1, print at 1 in H.
      cbn [fst snd] in H. eapply IH. exact H.
    + injection H as -> _. eapply call_llm_raises. exact Hc.
Qed.

End OrchestratorFacts.

(** X12. With an API key, the worker loop of the orchestrator sends one
    request for each task, in the order of the plan, with the task
    itself as the user message, and returns the answers appended to the
    results in that order.  When a request fails the loop stops there:
    the requests sent are those up to the failing one, and the
    exception is the one the gateway raised for it. *)
Theorem workers_one_request_each {W} (provider : request -> W -> outcome text * W)
    (api_key : option text) (repr : pyval -> text)
    (i : nat) (tasks : list pyval) (results : list text) (e : env W) :
  AgenticPatterns.has_key api_key = true ->
  match AgenticPatterns.workers provider api_key repr i tasks results e with
  | (Returned out, e') =>
      exists answers,
        out = results ++ answers /\ length answers = length tasks /\
        sent e' = sent e ++ map worker_request tasks
  | (Raised x, e') =>
      exists k task w,
        tasks !! k = Some task /\
        sent e' = sent e ++ map worker_request (take (S k) tasks) /\
        fst (provider (worker_request task) w) = Raised x
  end.
Proof. intros Hkey. by apply workers_spec. Qed.

Lemma workers_one_request_each_witness :
  AgenticPatterns.has_key Stub.key = true /\
  match AgenticPatterns.workers Stub.numbered Stub.key Stub.no_repr 0
          [PStr (str "Write history of coffee"); PStr (str "Write health benefits of coffee")]
          [] Stub.start with
  | (Returned out, e') =>
      exists answers,
        out = [] ++ answers /\
        length answers
        = length [PStr (str "Write history of coffee");
                  PStr (str "Write health benefits of coffee")] /\
        sent e' = sent Stub.start
                  ++ map worker_request [PStr (str "Write history of coffee");
                                         PStr (str "Write health benefits of coffee")]
  | (Raised x, e') =>
      exists k task w,
        [PStr (str "Write history of coffee"); PStr (str "Write health benefits of coffee")]
          !! k = Some task /\
        sent e' = sent Stub.start
                  ++ map worker_request
                       (take (S k) [PStr (str "Write history of coffee");
                                    PStr (str "Write health benefits of coffee")]) /\
        fst (Stub.numbered (worker_request task) w) = Raised x
  end.
Proof.
  assert (AgenticPatterns.has_key Stub.key = true) as H by reflexivity.
  split; [exact H|].
  exact (workers_one_request_each Stub.numbered Stub.key Stub.no_repr 0
           [PStr (str "Write history of coffee"); PStr (str "Write health benefits of coffee")]
           [] Stub.start H).
Defined.

(** X13. [pattern_orchestrator] returns [None] or raises.  What it
    raises is an exception of the gateway, or [TypeError] when the plan
    it took is a value that cannot be iterated.  Reading the plan never
    fails: the [try] block lets nothing out and changes nothing. *)
Theorem orchestrator_failures {W} (provider : request -> W -> outcome text * W)
    (api_key : option text) (json_loads : text -> option pyval) (repr : pyval -> text)
    (e : env W) :
  (forall plan_response (e0 : env W),
     exists tasks,
       AgenticPatterns.plan_tasks json_loads plan_response e0 = (Returned tasks, e0)) /\
  match fst (AgenticPatterns.pattern_orchestrator provider api_key json_loads repr e) with
  | Returned v => v = PNone
  | Raised x => x = TypeError \/ exists rq w, fst (provider rq w) = Raised x
  end.
Proof.
  split; [intros; apply plan_tasks_total|].
  unfold AgenticPatterns.pattern_orchestrator.
  unfold bind at 1. unfold print at 1. cbn [fst snd].
  unfold bind at 1.
  destruct (AgenticPatterns.call_llm provider api_key _ _ true _) as [[plan_response|x] e1]
    eqn:Hc; [|right; eapply call_llm_raises; exact Hc].
  unfold bind at 1.
  destruct (plan_tasks_total json_loads plan_response e1) as [tasks ->].
  unfold bind at 1. unfold AgenticPatterns.print_step at 1, print at 1. cbn [fst snd].
  unfold bind at 1.
  destruct (AgenticPatterns.iterate tasks _) as [[items|x] e2] eqn:Hi.
  - unfold bind at 1.
    destruct (AgenticPatterns.workers provider api_key repr 0 items [] e2)
      as [[results|x] e3] eqn:Hw.
    + reflexivity.
    + right. eapply workers_raises. exact Hw.
  - left. destruct tasks; unfold AgenticPatterns.iterate, raise, ret in Hi; congruence.
Qed.

(* --------------------------------------------------------------------- *)
(** *** The evaluator-optimizer loop: verdicts and requests               *)
(* --------------------------------------------------------------------- *)

Section LoopRequests.
Context {W : Type}.
Variable provider : request -> W -> outcome text * W.
Variable api_key : option text.
Variable json_loads : text -> option pyval.
Variable repr : pyval -> text.
Hypothesis Hkey : AgenticPatterns.has_key api_key = true.

(** One pass asks for a draft and then for its evaluation. *)
Lemma iteration_sent st (e : env W) :
  match AgenticPatterns.iteration provider api_key json_loads repr st e with
  | (Returned st', e') =>
      AgenticPatterns.attempt st' = AgenticPatterns.attempt st + 1 /\
      exists g v, sent e' = sent e ++ [g; v] /\ json_object g = false /\ json_object v = true
  | (Raised x, e') =>
      exists asked, sent e' = sent e ++ asked /\ length asked <= 2
  end.
Proof.
  unfold AgenticPatterns.iteration.
  unfold bind at 1. unfold AgenticPatterns.generate. unfold bind at 1.
  rewrite (call_llm_online _ _ _ _ _ _ Hkey).
  destruct (provider _ (world e)) as [[d|x] w1]; cbn [fst snd];
    [|eexists; split; [reflexivity|simpl; lia]].
  unfold bind at 1. unfold AgenticPatterns.print_step at 1, print at 1. cbn [fst snd ret].
  unfold bind at 1. unfold AgenticPatterns.evaluate.
  rewrite (call_llm_online _ _ _ _ _ _ Hkey). cbn [world sent printed].
  destruct (provider _ w1) as [[r|x] w2]; cbn [fst snd];
    [|eexists; split; [rewrite <- app_assoc; reflexivity|simpl; lia]].
  unfold bind at 1.
  match goal with
  | |- context [AgenticPatterns.read_verdict _ r ?e2] =>
      destruct (read_verdict_total json_loads r e2) as (s & fb & -> & _)
  end.
  unfold bind, AgenticPatterns.print_step, print, ret. cbn [fst snd world sent printed].
  split; [reflexivity|]. eexists _, _. split; [by rewrite <- app_assoc|].
  split; reflexivity.
Qed.

Lemma while_loop_sent fuel : forall st (e : env W),
  3 <= AgenticPatterns.attempt st + fuel ->
  match AgenticPatterns.while_loop provider api_key json_loads repr fuel st e with
  | (Returned (Some st'), e') =>
      AgenticPatterns.attempt st <= AgenticPatterns.attempt st' /\
      exists asked,
        sent e' = sent e ++ asked /\
        json_object <$> asked
        = mjoin (replicate (AgenticPatterns.attempt st' - AgenticPatterns.attempt st)
                   [false; true])
  | (Returned None, _) => False
  | (Raised _, e') =>
      exists asked, sent e' = sent e ++ asked /\
                    length asked + 2 * AgenticPatterns.attempt st <= 6
  end.
Proof.
  induction fuel as [|fuel IH]; intros st e Hfuel.
  - destruct (AgenticPatterns.continues st) eqn:Hc.
    + apply continues_true in Hc. lia.
    + rewrite while_loop_stop by exact Hc. split; [lia|].
      exists []. rewrite app_nil_r, Nat.sub_diag. split; reflexivity.
  - destruct (AgenticPatterns.continues st) eqn:Hc.
    + pose proof (iteration_sent st e) as Hi.
      destruct (AgenticPatterns.iteration provider api_key json_loads repr st e)
        as [[st1|x] e1] eqn:Ei.
      * rewrite (while_loop_step _ _ _ _ _ _ _ _ _ Hc Ei).
        destruct Hi as (Ha & g & v & Hs & Hg & Hv).
        specialize (IH st1 e1 ltac:(lia)).
        destruct (AgenticPatterns.while_loop provider api_key json_loads repr fuel st1 e1)
          as [[[st2|]|y] e2]; [|exact IH|].
        -- destruct IH as (Hle & asked & Hs2 & Hj). split; [lia|].
           exists (g :: v :: asked). split; [rewrite Hs2, Hs, <- app_assoc; reflexivity|].
           replace (AgenticPatterns.attempt st2 - AgenticPatterns.attempt st)
             with (S (AgenticPatterns.attempt st2 - AgenticPatterns.attempt st1)) by lia.
           cbn [replicate mjoin list_join app fmap list_fmap]. rewrite Hg, Hv.
           f_equal. f_equal. exact Hj.
        -- destruct IH as (asked & Hs2 & Hlen).
           exists (g :: v :: asked). split; [rewrite Hs2, Hs, <- app_assoc; reflexivity|].
           simpl. lia.
      * rewrite (while_loop_raise _ _ _ _ _ _ _ _ _ Hc Ei).
        destruct Hi as (asked & Hs & Hlen). exists asked. split; [exact Hs|].
        apply continues_true in Hc. lia.
    + rewrite while_loop_stop by exact Hc. split; [lia|].
      exists []. rewrite app_nil_r, Nat.sub_diag. split; reflexivity.
Qed.

End LoopRequests.

(** X14. With an API key the evaluator-optimizer loop sends two requests
    for each attempt, the request for the draft and then, in JSON mode,
    the request for its evaluation: a loop that ends after [n] attempts
    has sent [2 * n] requests, six at most, and a loop that a failing
    request breaks off has sent no more than six. *)
Theorem evaluator_loop_requests {W} (provider : request -> W -> outcome text * W)
    (api_key : option text) (json_loads : text -> option pyval) (repr : pyval -> text)
    (extra : nat) (e : env W) :
  AgenticPatterns.has_key api_key = true ->
  match AgenticPatterns.run_loop provider api_key json_loads repr (3 + extra) e with
  | (Returned (Some st), e') =>
      exists asked,
        sent e' = sent e ++ asked /\
        json_object <$> asked = mjoin (replicate (AgenticPatterns.attempt st) [false; true]) /\
        length asked = 2 * AgenticPatterns.attempt st /\
        AgenticPatterns.attempt st <= 3
  | (Returned None, _) => False
  | (Raised _, e') => exists asked, sent e' = sent e ++ asked /\ length asked <= 6
  end.
Proof.
  intros Hkey. rewrite run_loop_unfold.
  set (e0 := {| world := world e; sent := sent e; printed := _ |}).
  pose proof (while_loop_sent provider api_key json_loads repr Hkey (3 + extra)
                AgenticPatterns.initial e0 ltac:(simpl; lia)) as H.
  pose proof (while_loop_bounded provider api_key json_loads repr (3 + extra)
                AgenticPatterns.initial e0 ltac:(simpl; lia)) as Hb.
  destruct (AgenticPatterns.while_loop provider api_key json_loads repr (3 + extra)
              AgenticPatterns.initial e0) as [[[st|]|x] e']; [|exact H|].
  - destruct H as (_ & asked & Hs & Hj). destruct Hb as (_ & _ & Hle & _).
    cbn [AgenticPatterns.attempt AgenticPatterns.initial] in Hj, Hle.
    rewrite Nat.sub_0_r in Hj.
    exists asked. split; [exact Hs|]. split; [exact Hj|]. split; [|lia].
    apply (f_equal length) in Hj. rewrite length_fmap in Hj. rewrite Hj.
    clear. induction (AgenticPatterns.attempt st) as [|n IH]; [reflexivity|].
    simpl in *. lia.
  - destruct H as (asked & Hs & Hlen). exists asked. split; [exact Hs|]. lia.
Qed.

Lemma evaluator_loop_requests_witness :
  AgenticPatterns.has_key Stub.key = true /\
  match AgenticPatterns.run_loop (Stub.fail_then_pass 2) Stub.key Stub.loads Stub.no_repr
          (3 + 0) Stub.start with
  | (Returned (Some st), e') =>
      exists asked,
        sent e' = sent Stub.start ++ asked /\
        json_object <$> asked = mjoin (replicate (AgenticPatterns.attempt st) [false; true]) /\
        length asked = 2 * AgenticPatterns.attempt st /\
        AgenticPatterns.attempt st <= 3
  | (Returned None, _) => False
  | (Raised _, e') => exists asked, sent e' = sent Stub.start ++ asked /\ length asked <= 6
  end.
Proof.
  assert (AgenticPatterns.has_key Stub.key = true) as H by reflexivity.
  split; [exact H|].
  exact (evaluator_loop_requests (Stub.fail_then_pass 2) Stub.key Stub.loads Stub.no_repr
           0 Stub.start H).
Defined.

(** X15. Reading the evaluator's answer never fails and changes nothing.
    The status it gives is APPROVED exactly when the answer is
    unreadable (no JSON, or JSON that is not an object) or is an object
    whose status is the string PASS; every other object, also one
    without a status, gives REJECTED.  The feedback of a readable answer
    is its feedback entry, [None] when it has none. *)
Theorem verdict_approves_iff {W} (json_loads : text -> option pyval)
    (eval_response : text) (e : env W) :
  exists s fb,
    AgenticPatterns.read_verdict json_loads eval_response e = (Returned (s, fb), e) /\
    (s = AgenticPatterns.APPROVED \/ s = AgenticPatterns.REJECTED) /\
    (s = AgenticPatterns.APPROVED <->
       unreadable json_loads eval_response \/ says json_loads eval_response (str "PASS")) /\
    (forall items, json_loads eval_response = Some (PDict items) ->
       fb = Py.dict_get items (str "feedback") PNone).
Proof.
  unfold AgenticPatterns.read_verdict, try_except, bind, AgenticPatterns.loads,
    unreadable, says.
  destruct (json_loads eval_response) as [v|] eqn:Hl.
  - destruct v as [| | | | | |items];
      try (eexists _, _; split; [reflexivity|]; split; [by left|];
           split; [split; [intros _; by left|reflexivity]|intros ? [=]]).
    cbn [ret AgenticPatterns.get].
    destruct (Py.eq_str (Py.dict_get items (str "status") PNone) (str "PASS")) eqn:Hs.
    + eexists _, _. split; [reflexivity|]. split; [by left|].
      split; [|intros ? [= <-]; reflexivity].
      split; [intros _; right|reflexivity].
      exists items. split; [reflexivity|].
      unfold Py.eq_str in Hs. destruct (Py.dict_get items (str "status") PNone); try discriminate.
      apply bool_decide_eq_true in Hs. by rewrite Hs.
    + eexists _, _. split; [reflexivity|]. split; [by right|].
      split; [|intros ? [= <-]; reflexivity].
      split; [discriminate|]. intros [[]|(items' & [= <-] & Hp)].
      rewrite Hp in Hs. unfold Py.eq_str in Hs.
      by rewrite bool_decide_eq_true_2 in Hs.
  - eexists _, _. split; [reflexivity|]. split; [by left|].
    split; [split; [intros _; by left|reflexivity]|intros ? [=]].
Qed.

(* --------------------------------------------------------------------- *)
(** *** The PII filters: what they leave alone, and the guarded variant   *)
(* --------------------------------------------------------------------- *)

Section RedactFacts.
Import Re ReSpec.




End RedactFacts.




Section StructuredContent.
Import AutonomousClaims.








End StructuredContent.


(* --------------------------------------------------------------------- *)
(** *** The native-tools agent: tool calls and their results              *)
(* --------------------------------------------------------------------- *)

Section NativeFacts.
Import NativeTools.
Context {W : Type}.
Variable provider : native_request -> W -> outcome reply * W.
Variable json_loads : text -> option pyval.
Variable json_dumps : pyval -> text.

Lemma call_with_raises f args x : call_with f args = Raised x -> x = TypeError.
Proof.
  unfold call_with. destruct args as [| | | | | |[|[k v] [|]]]; try congruence.
  destruct (decide (k = str "ticker")); congruence.
Qed.

Lemma execute_spec calls : forall transcript,
  match execute json_loads json_dumps calls transcript with
  | Returned transcript' =>
      exists responses,
        length responses = length calls /\
        transcript' = transcript ++ zip_with tool_result calls responses
  | Raised x =>
      exists k call,
        calls !! k = Some call /\
        ((x = JSONDecodeError /\ json_loads (arguments call) = None) \/
         (x = KeyError /\ is_Some (json_loads (arguments call)) /\
          available_functions json_dumps !! name call = None) \/
         (x = TypeError /\ is_Some (json_loads (arguments call)) /\
          is_Some (available_functions json_dumps !! name call)))
  end.
Proof.
  induction calls as [|call rest IH]; intros transcript.
  - exists []. simpl. by rewrite app_nil_r.
  - cbn [execute].
    destruct (json_loads (arguments call)) as [args|] eqn:Hl;
      [|exists 0, call; split; [reflexivity|left; by rewrite Hl]].
    destruct (available_functions json_dumps !! name call) as [f|] eqn:Hf;
      [|exists 0, call; split; [reflexivity|right; left; rewrite Hl, Hf; eauto]].
    destruct (call_with f args) as [response|x] eqn:Hc.
    + specialize (IH (transcript ++ [ToolResult (id call) (name call) response])).
      destruct (execute json_loads json_dumps rest _) as [transcript'|x].
      * destruct IH as (responses & Hlen & ->). exists (response :: responses).
        split; [simpl; lia|]. rewrite <- app_assoc. reflexivity.
      * destruct IH as (k & c & Hk & Hx). exists (S k), c. split; [exact Hk|exact Hx].
    + apply call_with_raises in Hc as ->. exists 0, call. split; [reflexivity|].
      right; right. rewrite Hl, Hf. eauto.
Qed.

Lemma native_loop_spec turns : forall transcript w,
  match fst (turns_loop provider json_loads json_dumps turns transcript w) with
  | Returned transcript' =>
      exists rounds blocks,
        rounds <= turns /\ transcript' = transcript ++ blocks /\ answered rounds blocks
  | Raised x =>
      (x = JSONDecodeError \/ x = KeyError \/ x = TypeError) \/
      exists rq w', fst (provider rq w') = Raised x
  end.
Proof.
  induction turns as [|turns IH]; intros transcript w.
  - exists 0, []. rewrite app_nil_r. split; [lia|]. split; [reflexivity|constructor].
  - cbn [turns_loop].
    destruct (provider _ w) as [[msg|x] w'] eqn:Hp; cbn [fst];
      [|right; eexists _, w; by rewrite Hp].
    destruct (tool_calls msg) as [|call calls] eqn:Hcalls.
    + exists 0, []. rewrite app_nil_r. split; [lia|]. split; [reflexivity|constructor].
    + pose proof (execute_spec (call :: calls) (transcript ++ [Assistant msg])) as He.
      destruct (execute json_loads json_dumps (call :: calls) _) as [transcript1|x].
      * destruct He as (responses & Hlen & ->).
        specialize (IH ((transcript ++ [Assistant msg])
                          ++ zip_with tool_result (call :: calls) responses) w').
        destruct (fst (turns_loop provider json_loads json_dumps turns _ w'))
          as [transcript2|x]; [|exact IH].
        destruct IH as (rounds & blocks & Hr & -> & Ha).
        exists (S rounds),
          (Assistant msg :: zip_with tool_result (tool_calls msg) responses ++ blocks).
        split; [lia|]. split.
        -- rewrite Hcalls, <- !app_assoc. reflexivity.
        -- constructor; [by rewrite Hcalls|by rewrite Hcalls|exact Ha].
      * left. destruct He as (k & c & _ & [[-> _]|[[-> _]|[-> _]]]); auto.
Qed.

End NativeFacts.

(** X19. The tool loop of the native-tools agent appends one result for
    each call, in the order of the calls, each under the id and the name
    of its call.  It stops at the first call it cannot run and lets the
    exception out: JSONDecodeError for arguments that are no JSON,
    KeyError for a function name that is not registered, TypeError for
    arguments that do not fit the function.  Unlike the agent of
    smart_investor_local.py it has no recovery for an unknown tool. *)
Theorem tool_results_follow_calls (json_loads : text -> option pyval)
    (json_dumps : pyval -> text)
    (calls : list NativeTools.tool_call) (transcript : list NativeTools.entry) :
  match NativeTools.execute json_loads json_dumps calls transcript with
  | Returned transcript' =>
      exists responses,
        length responses = length calls /\
        transcript' = transcript ++ zip_with tool_result calls responses
  | Raised x =>
      exists k call,
        calls !! k = Some call /\
        ((x = JSONDecodeError /\ json_loads (NativeTools.arguments call) = None) \/
         (x = KeyError /\ is_Some (json_loads (NativeTools.arguments call)) /\
          NativeTools.available_functions json_dumps !! NativeTools.name call = None) \/
         (x = TypeError /\ is_Some (json_loads (NativeTools.arguments call)) /\
          is_Some (NativeTools.available_functions json_dumps !! NativeTools.name call)))
  end.
Proof. apply execute_spec. Qed.

(** X20. The history [run_native_agent] ends with begins with the system
    message and the query and goes on in rounds, five at most: a reply
    of the model that asks for tools, then one result for each of its
    calls, in order and under their ids.  No call is left unanswered and
    no result stands without its call.  What the agent raises is an
    exception of the gateway or one of the three of the tool loop. *)
Theorem native_history_answered {W}
    (provider : NativeTools.native_request -> W -> outcome NativeTools.reply * W)
    (json_loads : text -> option pyval) (json_dumps : pyval -> text)
    (query : text) (w : W) :
  match fst (NativeTools.run_native_agent provider json_loads json_dumps query w) with
  | Returned transcript =>
      exists rounds blocks,
        rounds <= 5 /\ transcript = native_opening query ++ blocks /\ answered rounds blocks
  | Raised x =>
      (x = JSONDecodeError \/ x = KeyError \/ x = TypeError) \/
      exists rq w', fst (provider rq w') = Raised x
  end.
Proof. apply (native_loop_spec provider json_loads json_dumps 5 (native_opening query) w). Qed.

(* --------------------------------------------------------------------- *)
(** *** The stateful graph                                                *)
(* --------------------------------------------------------------------- *)

(** X21. The compiled graph of langraph_statefulagent.py runs its three
    nodes once each, planner, executor, reviewer, and ends, whatever the
    model answers: the plan is the built-in one and the answer of the
    model is dropped.  The final state has the input messages followed
    by the execution log for three steps, and the fixed final answer;
    one request was sent.  It fails only when there is no input message
    (IndexError), when the content of the last one is no string
    (TypeError), or when the gateway fails. *)
Theorem graph_runs_three_nodes {W} (provider : request -> W -> outcome text * W)
    (inputs : list message) (extra : nat) (e : env W) :
  let r := StatefulAgent.app provider (3 + extra) inputs e in
  match fst r with
  | Returned (Some (state, ran)) =>
      ran = [StatefulAgent.planner; StatefulAgent.executor; StatefulAgent.reviewer] /\
      StatefulAgent.messages state
        = inputs ++ [Message (str "assistant") (PStr (str "Executed 3 steps successfully."))] /\
      StatefulAgent.current_step state = Some (str "finished") /\
      StatefulAgent.plan state
        = Some [str "Step 1: Research"; str "Step 2: Draft"; str "Step 3: Review"] /\
      StatefulAgent.final_answer state = Some (str "Task Completed and Verified.") /\
      exists last_message task,
        last inputs = Some last_message /\ content last_message = PStr task /\
        sent (snd r) = sent e ++ [planner_request task]
  | Returned None => False
  | Raised x =>
      (inputs = [] /\ x = IndexError) \/
      (exists last_message, last inputs = Some last_message /\ x = TypeError /\
         match content last_message with PStr _ => False | _ => True end) \/
      (exists rq w, fst (provider rq w) = Raised x)
  end.
Proof.
  intros r.
  assert (r = StatefulAgent.run_from provider (S (S (S extra))) StatefulAgent.planner
                {| StatefulAgent.messages := inputs; StatefulAgent.current_step := None;
                   StatefulAgent.plan := None; StatefulAgent.final_answer := None |} [] e)
    as Hr by reflexivity.
  clearbody r. cbn [StatefulAgent.run_from StatefulAgent.run_node] in Hr.
  unfold bind at 1 in Hr. unfold StatefulAgent.planner_node in Hr.
  cbn [StatefulAgent.messages] in Hr.
  destruct (last inputs) as [last_message|] eqn:Hlast.
  - destruct (content last_message) as [| | | |task| |] eqn:Hcontent;
      try (subst r; right; left; exists last_message; rewrite Hcontent; by repeat split).
    unfold bind at 1 in Hr. unfold StatefulAgent.invoke, create in Hr.
    fold (planner_request task) in Hr.
    destruct (provider (planner_request task) (world e)) as [[plan_response|x] w'] eqn:Hp.
    + assert (exists state,
                r = (Returned (Some (state, [StatefulAgent.planner; StatefulAgent.executor;
                                             StatefulAgent.reviewer])),
                     {| world := w'; sent := sent e ++ [planner_request task];
                        printed := printed e |}) /\
                StatefulAgent.messages state
                  = ((inputs ++ []) ++
                     [Message (str "assistant") (PStr (str "Executed 3 steps successfully."))])
                    ++ [] /\
                StatefulAgent.current_step state = Some (str "finished") /\
                StatefulAgent.plan state
                  = Some [str "Step 1: Research"; str "Step 2: Draft"; str "Step 3: Review"] /\
                StatefulAgent.final_answer state = Some (str "Task Completed and Verified."))
        as (state & -> & Hm & Hc & Hpl & Hf).
      { eexists. split; [rewrite Hr; vm_compute; reflexivity|].
        repeat split; vm_compute; reflexivity. }
      cbn [fst snd sent]. rewrite !app_nil_r in Hm.
      repeat (split; [assumption || reflexivity|]).
      exists last_message, task. repeat split; assumption || reflexivity.
    + subst r. right; right. exists (planner_request task), (world e). by rewrite Hp.
  - subst r. left. apply last_None in Hlast. by split.
Qed.

(* --------------------------------------------------------------------- *)
(** *** The termination test of the AutoGen proxy                         *)
(* --------------------------------------------------------------------- *)

Section Termination.
Import PyStr AutoGen.






End Termination.


(* --------------------------------------------------------------------- *)
(** *** The consensus: three agents and a judge                           *)
(* --------------------------------------------------------------------- *)

Section Consensus.
Context {W : Type}.
Variable provider : request -> W -> outcome text * W.

Lemma agents_complete topic schedule : forall (e : env W),
  Forall (fun i => i < 3) schedule ->
  match run_to_completion schedule
          (ParallelConsensus.agents provider
             (str "Provide a brief, 1-sentence interesting fact about: " ++ topic)) e with
  | (Returned completed, e') =>
      sent e' = sent e ++ replicate (length schedule) (consensus_request topic) /\
      Forall (fun ir => exists content,
                snd ir = agent_label (fst ir) ++ str ": " ++ content) completed
  | (Raised x, e') => exists rq w, fst (provider rq w) = Raised x
  end.
Proof.
  induction schedule as [|i rest IH]; intros e Hall.
  - simpl. rewrite app_nil_r. split; [reflexivity|constructor].
  - apply Forall_cons in Hall as [Hi Hrest].
    cbn [run_to_completion].
    assert (exists name,
              ParallelConsensus.agents provider
                (str "Provide a brief, 1-sentence interesting fact about: " ++ topic) !! i
              = Some (ParallelConsensus.ask_agent provider name
                        (str "Provide a brief, 1-sentence interesting fact about: " ++ topic))
              /\ name = agent_label i) as (name & -> & Hname).
    { destruct i as [|[|[|i]]]; try lia; eexists; split; reflexivity. }
    unfold bind at 1. unfold ParallelConsensus.ask_agent at 1. unfold bind at 1.
    unfold create. fold (consensus_request topic).
    destruct (provider (consensus_request topic) (world e)) as [[content|x] w'] eqn:Hp;
      cbn [ret fst snd]; [|exists (consensus_request topic), (world e); by rewrite Hp].
    unfold bind at 1.
    match goal with
    | |- context [run_to_completion rest _ ?e1] =>
        specialize (IH e1 Hrest);
        destruct (run_to_completion rest
                    (ParallelConsensus.agents provider
                       (str "Provide a brief, 1-sentence interesting fact about: " ++ topic))
                    e1) as [[done|x] e2]
    end; [|exact IH].
    destruct IH as [Hs Hdone]. cbn [ret]. split.
    + rewrite Hs. cbn [sent length replicate]. rewrite <- app_assoc. reflexivity.
    + constructor; [|exact Hdone]. exists content. cbn [fst snd]. by rewrite Hname.
Qed.

End Consensus.

(** X23. Under every schedule [run_consensus] sends the same four
    requests when none fails: the three agents send one and the same
    request, so the order in which they complete does not show, and the
    judge is asked last, with three lines that begin with Agent A,
    Agent B and Agent C in this order.  When a request fails, the
    exception of the gateway is what [run_consensus] raises. *)
Theorem consensus_four_requests {W} (provider : request -> W -> outcome text * W)
    (schedule : list nat) (topic : text) (e : env W) :
  schedule ≡ₚ [0; 1; 2] ->
  match ParallelConsensus.run_consensus provider schedule topic e with
  | (Returned v, e') =>
      v = PNone /\
      exists a b c,
        sent e' = sent e ++
          [ consensus_request topic; consensus_request topic; consensus_request topic;
            judge_request (str "Agent A: " ++ a ++ nl ++ str "Agent B: " ++ b ++ nl ++
                           str "Agent C: " ++ c) ]
  | (Raised x, e') => exists rq w, fst (provider rq w) = Raised x
  end.
Proof.
  intros Hp.
  assert (Forall (fun i => i < 3) schedule) as Hall.
  { apply Forall_forall. intros i Hi. rewrite Hp in Hi.
    repeat (apply elem_of_cons in Hi as [->|Hi]; [lia|]). by apply elem_of_nil in Hi. }
  pose proof (agents_complete provider topic schedule e Hall) as Hrun.
  destruct (run_to_completion schedule _ e) as [[completed|x] e1] eqn:Hr.
  - destruct Hrun as [Hs Hdone].
    pose proof (run_to_completion_order _ _ _ _ _ Hr) as Horder.
    assert (forall i, i ∈ [0; 1; 2] ->
              exists content, (i, agent_label i ++ str ": " ++ content) ∈ completed) as Hin.
    { intros i Hi. rewrite <- Hp, <- Horder in Hi.
      apply list_elem_of_fmap in Hi as ([j r] & -> & Hjr).
      rewrite Forall_forall in Hdone. destruct (Hdone _ Hjr) as [content Hc].
      cbn [fst snd] in *. exists content. by rewrite <- Hc. }
    destruct (Hin 0 ltac:(set_solver)) as [a Ha].
    destruct (Hin 1 ltac:(set_solver)) as [b Hb].
    destruct (Hin 2 ltac:(set_solver)) as [c Hc].
    rewrite (consensus_in_launch_order provider schedule topic e completed e1 _ _ _
               Hp Hr Ha Hb Hc).
    unfold judged, bind, ParallelConsensus.judge, create.
    match goal with
    | |- context [provider ?rq (world e1)] =>
        change rq with (judge_request
                          ((agent_label 0 ++ str ": " ++ a) ++ nl ++
                           (agent_label 1 ++ str ": " ++ b) ++ nl ++
                           (agent_label 2 ++ str ": " ++ c)));
        destruct (provider (judge_request
                              ((agent_label 0 ++ str ": " ++ a) ++ nl ++
                               (agent_label 1 ++ str ": " ++ b) ++ nl ++
                               (agent_label 2 ++ str ": " ++ c))) (world e1))
          as [[verdict|x] w'] eqn:Hj
    end.
    + split; [reflexivity|]. exists a, b, c. cbn [sent]. rewrite Hs.
      rewrite (Permutation_length Hp). cbn [length replicate].
      rewrite <- app_assoc. reflexivity.
    + eexists _, (world e1). by rewrite Hj.
  - unfold ParallelConsensus.run_consensus, bind, gather. unfold bind. rewrite Hr.
    exact Hrun.
Qed.

Lemma consensus_four_requests_witness :
  [1; 2; 0] ≡ₚ [0; 1; 2] /\
  match ParallelConsensus.run_consensus Stub.numbered [1; 2; 0] (str "Python") Stub.start with
  | (Returned v, e') =>
      v = PNone /\
      exists a b c,
        sent e' = sent Stub.start ++
          [ consensus_request (str "Python"); consensus_request (str "Python");
            consensus_request (str "Python");
            judge_request (str "Agent A: " ++ a ++ nl ++ str "Agent B: " ++ b ++ nl ++
                           str "Agent C: " ++ c) ]
  | (Raised x, e') => exists rq w, fst (Stub.numbered rq w) = Raised x
  end.
Proof.
  assert ([1; 2; 0] ≡ₚ [0; 1; 2]) as H.
  { change ([1; 2; 0] ≡ₚ [0] ++ [1; 2]). symmetry. apply (Permutation_app_comm [0] [1; 2]). }
  split; [exact H|].
  exact (consensus_four_requests Stub.numbered [1; 2; 0] (str "Python") Stub.start H).
Defined.
